(** * classroom-api: visibility filter and fan-out/fan-in retrieval

    A shallow embedding of [src/main.go]: the visibility filter
    [isCourseworkVisible] as a function, and the goroutines of [_main] and
    [listCourseWorkFromCourseId] as a transition system over the states of
    the process.  [src/trace/main.go] has the same filter and the same
    goroutines; it has no early return on an empty listing, calls
    [wg2.Wait()] at the end instead of deferring it, and passes the loop
    variable to the worker as an argument.

    The program calls into Go's [fmt] and [time] packages and into the
    Classroom SDK.  The parts of those that the program uses are modelled
    below from their documented behaviour: [fmt.Sprintf] with the verbs
    [%d] and [%02d], [time.Parse] and [Time.Format] with the layout
    ["2006-01-02"], [Time.Truncate], [Time.Before], and the two remote
    read operations of the SDK as functions of a [Service] record.  The
    trace regions and tasks of [runtime/trace] have no effect on the
    results and are left out. *)

From Stdlib Require Import ZArith List String Ascii Bool Lia Permutation.
Import ListNotations.
Open Scope Z_scope.

(** ** Errors and results *)

(** A Go [error] value.  The program never inspects an error; it only tests
    it against [nil], so its origin and message are enough.  For a
    [*time.ParseError], [value] is its field [Value] and [msg] is the text
    of [Error()] after the quoted value. *)
Inductive error : Type :=
| ParseError (value : string) (msg : string)
| RemoteError (msg : string).

(** A Go result pair [(v, err)] with [err == nil] or [err != nil]. *)
Inductive result (A : Type) : Type :=
| Ok (a : A)
| Err (e : error).
Arguments Ok {A} a.
Arguments Err {A} e.

(** ** Package fmt: the verbs [%d] and [%02d] *)

Module fmt.

Definition digit_char (d : Z) : ascii :=
  match d with
  | 0 => "0" | 1 => "1" | 2 => "2" | 3 => "3" | 4 => "4"
  | 5 => "5" | 6 => "6" | 7 => "7" | 8 => "8" | _ => "9"
  end%char.

(** Decimal digits of a non-negative integer, most significant first.  The
    fuel bounds the number of digits; 20 covers every 64-bit value. *)
Fixpoint utoa_fuel (fuel : nat) (n : Z) (acc : string) : string :=
  match fuel with
  | O => acc
  | S fuel' =>
      let acc' := String (digit_char (n mod 10)) acc in
      if n / 10 =? 0 then acc' else utoa_fuel fuel' (n / 10) acc'
  end.

Definition utoa (n : Z) : string := utoa_fuel 20 n EmptyString.

Fixpoint zeros (k : nat) : string :=
  match k with
  | O => EmptyString
  | S k' => String "0"%char (zeros k')
  end.

(** [%d]: the decimal digits, with a leading minus sign when negative. *)
Definition fmt_d (n : Z) : string :=
  if n <? 0 then String "-"%char (utoa (- n)) else utoa n.

(** [%0wd]: as [%d], padded with zeros after the sign up to a total width
    of [w] characters, the sign included. *)
Definition fmt_0d (w : nat) (n : Z) : string :=
  let body := utoa (Z.abs n) in
  if n <? 0
  then String "-"%char (zeros (w - 1 - String.length body) ++ body)
  else zeros (w - String.length body) ++ body.

(** [fmt.Sprintf("%d-%02d-%02d", y, m, d)]. *)
Definition Sprintf_d_02d_02d (y m d : Z) : string :=
  (fmt_d y ++ "-" ++ fmt_0d 2 m ++ "-" ++ fmt_0d 2 d)%string.

End fmt.

(** ** Package time *)

Module time.

(** A [time.Time]: an instant, as nanoseconds since the zero time
    (January 1 of year 1, 00:00:00 UTC), and the offset in seconds east of
    UTC of its location at that instant.  [time.Now()] yields the local
    zone's offset, [time.Parse] without a zone in the layout yields UTC. *)
Record Time : Type := mkTime { abs : Z; offset : Z }.

Definition Nanosecond : Z := 1.
Definition Second : Z := 1000000000 * Nanosecond.
Definition Hour : Z := 3600 * Second.
Definition secondsPerDay : Z := 86400.

Definition isLeap (year : Z) : bool :=
  (year mod 4 =? 0) && (negb (year mod 100 =? 0) || (year mod 400 =? 0)).

(** Days before the first of month [m + 1] in a non-leap year
    ([daysBefore 0 = 0], [daysBefore 12 = 365]). *)
Definition daysBefore (m : Z) : Z :=
  match m with
  | 0 => 0 | 1 => 31 | 2 => 59 | 3 => 90 | 4 => 120 | 5 => 151 | 6 => 181
  | 7 => 212 | 8 => 243 | 9 => 273 | 10 => 304 | 11 => 334 | _ => 365
  end.

Definition daysIn (m : Z) (year : Z) : Z :=
  if (m =? 2) && isLeap year then 29
  else daysBefore m - daysBefore (m - 1).

(** Days from the zero time to January 1 of [year]. *)
Definition daysSinceEpoch (year : Z) : Z :=
  let y := year - 1 in
  365 * y + y / 4 - y / 100 + y / 400.

(** Days from the zero time to the civil date [year-month-day]. *)
Definition daysOfDate (year month day : Z) : Z :=
  daysSinceEpoch year
  + daysBefore (month - 1)
  + (if isLeap year && (3 <=? month) then 1 else 0)
  + (day - 1).

(** [time.Date(year, month, day, 0, 0, 0, 0, time.UTC)] on a date in range
    (the only use the program makes of it, through [Parse]). *)
Definition Date (year month day : Z) : Time :=
  mkTime (daysOfDate year month day * secondsPerDay * Second) 0.

(** The year and the day of that year (from 0) of a day number, as Go's
    [absDate] finds them: 400-year, 100-year and 4-year cycles are peeled
    off; [n - n >> 2] cuts the last day of a cycle down to its last year. *)
Definition absYearDay (days : Z) : Z * Z :=
  let n400 := days / 146097 in
  let d := days - 146097 * n400 in
  let n100 := d / 36524 in
  let n100 := n100 - Z.shiftr n100 2 in
  let d := d - 36524 * n100 in
  let n4 := d / 1461 in
  let d := d - 1461 * n4 in
  let n := d / 365 in
  let n := n - Z.shiftr n 2 in
  let d := d - 365 * n in
  (400 * n400 + 100 * n100 + 4 * n4 + n + 1, d).

(** The month and the day of the month of a day of the year: the leap day
    is taken out, the month is estimated as if every month had 31 days and
    adjusted by one. *)
Definition absMonthDay (leap : bool) (yday : Z) : Z * Z :=
  if leap && (yday =? 31 + 29 - 1) then (2, 29)
  else
    let day := if leap && (31 + 29 - 1 <? yday) then yday - 1 else yday in
    let month := day / 31 in
    let endm := daysBefore (month + 1) in
    if endm <=? day
    then (month + 2, day - endm + 1)
    else (month + 1, day - daysBefore month + 1).

(** The civil date of a day number (Go's [absDate]). *)
Definition absDate (days : Z) : Z * Z * Z :=
  let '(year, yday) := absYearDay days in
  let '(month, day) := absMonthDay (isLeap year) yday in
  (year, month, day).

(** Go's [appendInt]: the decimal digits padded with zeros to [width]
    digits, after a minus sign when negative. *)
Definition appendInt (x : Z) (width : nat) : string :=
  let body := fmt.utoa (Z.abs x) in
  let padded := (fmt.zeros (width - String.length body) ++ body)%string in
  if x <? 0 then String "-"%char padded else padded.

(** [t.Format("2006-01-02")]: the civil date of [t] on the wall clock of
    its own location. *)
Definition Format_2006_01_02 (t : Time) : string :=
  let wall := abs t / Second + offset t in
  let '(year, month, day) := absDate (wall / secondsPerDay) in
  (appendInt year 4 ++ "-" ++ appendInt month 2 ++ "-" ++ appendInt day 2)%string.

(** [t.Truncate(d)]: [t] rounded down to a multiple of [d] since the zero
    time.  It works on the absolute instant, not on the wall clock. *)
Definition Truncate (t : Time) (d : Z) : Time :=
  if d <=? 0 then t else mkTime (abs t - abs t mod d) (offset t).

(** [t.Before(u)]: the instant [t] is before the instant [u]. *)
Definition Before (t u : Time) : bool := abs t <? abs u.

Definition is_digit_char (c : ascii) : bool :=
  match c with
  | "0" | "1" | "2" | "3" | "4" | "5" | "6" | "7" | "8" | "9" => true
  | _ => false
  end%char.

Definition digit_val (c : ascii) : Z := Z.of_nat (nat_of_ascii c) - 48.

(** [leadingInt]: consumes the leading digits of [s]. *)
Fixpoint leadingInt (s : string) (x : Z) : Z * string :=
  match s with
  | EmptyString => (x, s)
  | String c rest =>
      if is_digit_char c then leadingInt rest (x * 10 + digit_val c)
      else (x, s)
  end.

(** [atoi]: an optional sign, then digits only. *)
Definition atoi (s : string) : option Z :=
  let '(neg, s') :=
    match s with
    | String "-"%char r => (true, r)
    | String "+"%char r => (false, r)
    | _ => (false, s)
    end in
  match leadingInt s' 0 with
  | (q, EmptyString) => Some (if neg then - q else q)
  | _ => None
  end.

(** [getnum(s, fixed)]: one or two digits; exactly two when [fixed]. *)
Definition getnum (s : string) (fixed : bool) : option (Z * string) :=
  match s with
  | String c0 rest =>
      if is_digit_char c0 then
        match rest with
        | String c1 rest' =>
            if is_digit_char c1
            then Some (digit_val c0 * 10 + digit_val c1, rest')
            else if fixed then None else Some (digit_val c0, rest)
        | EmptyString => if fixed then None else Some (digit_val c0, rest)
        end
      else None
  | EmptyString => None
  end.

(** [skip(value, "-")]: the literal separator of the layout. *)
Definition skip_dash (value : string) : option string :=
  match value with
  | String "-"%char rest => Some rest
  | _ => None
  end.

(** [quote]: the string between double quotes; a double quote and a
    backslash are escaped with a backslash, and every byte below the space
    or above ASCII is written [\xhh]. *)
Definition lowerhex (d : nat) : ascii :=
  match String.get d "0123456789abcdef" with
  | Some c => c
  | None => "0"%char
  end.

Definition doubleQuote : ascii := ascii_of_nat 34.

Definition quote_byte (c : ascii) (rest : string) : string :=
  let n := nat_of_ascii c in
  if ((128 <=? n) || (n <? 32))%nat then
    String "\"%char
      (String "x"%char
         (String (lowerhex (n / 16)%nat)
            (String (lowerhex (n mod 16)%nat) rest)))
  else if ((n =? 34) || (n =? 92))%nat then String "\"%char (String c rest)
  else String c rest.

Fixpoint quote_body (s : string) : string :=
  match s with
  | EmptyString => String doubleQuote EmptyString
  | String c rest => quote_byte c (quote_body rest)
  end.

Definition quote (s : string) : string := String doubleQuote (quote_body s).

(** The message of a [ParseError] with an empty [Message], after the
    quoted value: the layout, the rest of the value at the element that
    failed, and that element of the layout. *)
Definition cannotParse (valueElem layoutElem : string) : string :=
  (" as " ++ quote "2006-01-02" ++ ": cannot parse " ++ quote valueElem
   ++ " as " ++ quote layoutElem)%string.

(** [time.Parse("2006-01-02", value)]: a four-digit year, a two-digit month
    in 1..12, a two-digit day, nothing after it, and the day within the
    month; the result is midnight UTC of that date. *)
Definition Parse_2006_01_02 (value : string) : result Time :=
  let bad msg := Err (ParseError value msg) in
  match value with
  | String c0 (String c1 (String c2 (String c3 value1))) =>
      if negb (is_digit_char c0) then bad (cannotParse value "2006") else
      match atoi (String c0 (String c1 (String c2 (String c3 EmptyString)))) with
      | None => bad (cannotParse value "2006")
      | Some year =>
          match skip_dash value1 with
          | None => bad (cannotParse value1 "-")
          | Some value2 =>
              match getnum value2 true with
              | None => bad (cannotParse value2 "01")
              | Some (month, value3) =>
                  if (month <=? 0) || (12 <? month)
                  then bad ": month out of range"%string else
                  match skip_dash value3 with
                  | None => bad (cannotParse value3 "-")
                  | Some value4 =>
                      match getnum value4 true with
                      | None => bad (cannotParse value4 "02")
                      | Some (day, value5) =>
                          match value5 with
                          | String _ _ =>
                              bad (": extra text: " ++ quote value5)%string
                          | EmptyString =>
                              if (day <? 1) || (daysIn month year <? day)
                              then bad ": day out of range"%string
                              else Ok (Date year month day)
                          end
                      end
                  end
              end
          end
      end
  | _ => bad (cannotParse value "2006")
  end.

End time.

(** ** The Classroom SDK: records and the two remote reads *)

Module classroom.

(** [classroom.Date]: three int64 fields.  The program only prints them. *)
Record Date : Type := mkDate { Year : Z; Month : Z; Day : Z }.

(** [classroom.CourseWork], with the fields the program reads.  [DueDate]
    is a pointer; [None] is [nil]. *)
Record CourseWork : Type := mkCourseWork {
  Id : string;
  CourseId : string;
  Title : string;
  AlternateLink : string;
  DueDate : option Date
}.

Record StudentSubmission : Type := mkStudentSubmission { State : string }.

(** [*classroom.Service]: [srv.Courses.CourseWork.List(courseId).Do()] and
    [srv.Courses.CourseWork.StudentSubmissions.List(courseId, id).Do()],
    each yielding the listed records or an error.  A run makes each read
    once per course and once per assignment, so the answers of the remote
    service in a run are a function of the arguments. *)
Record Service : Type := mkService {
  CourseWork_List : string -> result (list CourseWork);
  StudentSubmissions_List : string -> string -> result (list StudentSubmission)
}.

End classroom.

Import classroom.

(** ** The visibility filter *)

(** A remote read made by the filter. *)
Inductive call : Type :=
| StudentSubmissionsListCall (courseId id : string).

(** The loop over [wr.StudentSubmissions]: the first record in state
    ["TURNED_IN"] ends it with [false, nil]; without one, [true, nil]. *)
Fixpoint scanSubmissions (l : list StudentSubmission) : bool * option error :=
  match l with
  | [] => (true, None)
  | s :: rest =>
      if String.eqb (State s) "TURNED_IN" then (false, None)
      else scanSubmissions rest
  end.

(** The string [date] of the filter: the due date printed with
    ["%d-%02d-%02d"], or the local date of the clock when there is none. *)
Definition dateString (now1 : time.Time) (c : CourseWork) : string :=
  match DueDate c with
  | Some d => fmt.Sprintf_d_02d_02d (Year d) (Month d) (Day d)
  | None => time.Format_2006_01_02 now1
  end.

(** [isCourseworkVisible(srv, c, ctx)].  The two readings of the clock are
    arguments: [now1] is the [time.Now()] of the branch without a due date,
    [now2] the [time.Now()] that is truncated to 24 hours.  The result is
    the pair the function returns and the remote reads it made. *)
Definition isCourseworkVisible (srv : Service) (now1 now2 : time.Time)
    (c : CourseWork) : (bool * option error) * list call :=
  let date := dateString now1 c in
  match time.Parse_2006_01_02 date with
  | Err err => ((false, Some err), [])
  | Ok parsedDate =>
      let currentDate := time.Truncate now2 (24 * time.Hour) in
      if time.Before parsedDate currentDate then ((false, None), [])
      else
        let calls := [StudentSubmissionsListCall (CourseId c) (Id c)] in
        match StudentSubmissions_List srv (CourseId c) (Id c) with
        | Err err => ((false, Some err), calls)
        | Ok wr => (scanSubmissions wr, calls)
        end
  end.

(** ** The goroutines of [_main]

    The state of the process holds every goroutine at its position in the
    code.  A step is the next statement of one goroutine, chosen by the
    scheduler; a goroutine that is blocked (in a [Wait] with a counter
    above zero, in a send with no receiver, in a receive with no sender on
    an open channel) has no step.  Each iteration of the loop over
    [r.CourseWork] has its own variable [c], as in Go 1.22 and later
    ([src/trace/main.go] passes it to the goroutine as an argument, which
    is the same in every version of Go).  The statements that would panic
    (a [Done] on a counter at zero, [close] on a closed channel, a send on
    a closed channel) have no step either; no run reaches them, as is
    proved below. *)

(** [fmt.Printf("%s (%s) link:%s\n", c.Title, c.Id, c.AlternateLink)]. *)
Definition printLine (c : CourseWork) : string :=
  (Title c ++ " (" ++ Id c ++ ") link:" ++ AlternateLink c
   ++ String (ascii_of_nat 10) EmptyString)%string.

(** The goroutine started per assignment in [listCourseWorkFromCourseId]. *)
Inductive worker : Type :=
| WCheck (c : CourseWork)   (* about to call isCourseworkVisible *)
| WSend (c : CourseWork)    (* blocked in [ch <- c] *)
| WExit                     (* about to run the deferred [wg2.Done()] *)
| WDone.                    (* finished *)

(** Where a [listCourseWorkFromCourseId] goroutine stands. *)
Inductive lister_pc : Type :=
| LList                            (* about to call [List(courseId).Do()] *)
| LLoop (todo : list CourseWork)   (* in the loop over [r.CourseWork] *)
| LWait                            (* in the deferred [wg2.Wait()] *)
| LExit                            (* about to run the deferred [wg.Done()] *)
| LDone.                           (* finished *)

(** A [listCourseWorkFromCourseId] goroutine: its argument, its position,
    the counter of its [wg2] and the goroutines it started. *)
Record lister : Type := mkLister {
  course : string;
  pc : lister_pc;
  wg2 : nat;
  workers : list worker
}.

(** Where the main goroutine stands in [_main]. *)
Inductive main_pc : Type :=
| MSpawn (ids : list string)   (* in the loop over [courseIds] *)
| MRange                       (* receiving in [for c := range ch] *)
| MPrint (c : CourseWork)      (* received [c], about to print it *)
| MReturned.                   (* [_main] returned *)

(** The goroutine that waits on [wg] and closes [ch]. *)
Inductive closer_pc : Type :=
| KNone    (* not started *)
| KWait    (* in [wg.Wait()] *)
| KDone.   (* closed [ch] and finished *)

(** The process: the goroutines, the counter of [wg], whether [ch] is
    closed, how often [close(ch)] ran, the lines printed so far, and the
    exit code once the process has ended. *)
Record state : Type := mkState {
  main : main_pc;
  wg : nat;
  closer : closer_pc;
  closed : bool;
  closes : nat;
  listers : list lister;
  out : list string;
  exit_code : option Z
}.

(** The worker [j] of the lister [i]. *)
Definition worker_at (s : state) (i j : nat) : option worker :=
  match nth_error (listers s) i with
  | Some l => nth_error (workers l) j
  | None => None
  end.

(** The scheduler's choice: which goroutine takes its next step. *)
Inductive action : Type :=
| MainStep
| CloserStep
| ListerStep (i : nat)
| WorkerStep (i k : nat).

(** Replace the element at position [i]. *)
Fixpoint upd {A : Type} (i : nat) (x : A) (l : list A) : list A :=
  match l, i with
  | [], _ => []
  | _ :: t, O => x :: t
  | h :: t, S i' => h :: upd i' x t
  end.

Definition set_lister (i : nat) (l : lister) (s : state) : state :=
  mkState (main s) (wg s) (closer s) (closed s) (closes s)
          (upd i l (listers s)) (out s) (exit_code s).

Definition set_main (m : main_pc) (s : state) : state :=
  mkState m (wg s) (closer s) (closed s) (closes s)
          (listers s) (out s) (exit_code s).

Definition set_wg (n : nat) (s : state) : state :=
  mkState (main s) n (closer s) (closed s) (closes s)
          (listers s) (out s) (exit_code s).

Definition set_exit (code : Z) (s : state) : state :=
  mkState (main s) (wg s) (closer s) (closed s) (closes s)
          (listers s) (out s) (Some code).

(** The courses of [_main]. *)
Definition courseIds : list string :=
  [ "681205615668"; "684704532100"; "675996740013"; "678236833659";
    "652602355337"; "312535887497"; "660443542825"; "672617426805";
    "672617014173"; "604108757787"; "660396558271" ]%string.

(** [_main] after the service is built, over a list of courses. *)
Definition init (ids : list string) : state :=
  mkState (MSpawn ids) 0 KNone false 0 [] [] None.

Section Process.

Variable srv : Service.

(** The clock readings of the check of each assignment. *)
Variable clock : CourseWork -> time.Time * time.Time.

(** The verdict [isVisible && err == nil] of the worker goroutine. *)
Definition visibleNow (c : CourseWork) : bool :=
  match fst (isCourseworkVisible srv (fst (clock c)) (snd (clock c)) c) with
  | (isVisible, None) => isVisible
  | (_, Some _) => false
  end.

Definition _main (s : state) : option state :=
  match main s with
  | MSpawn (courseId :: ids) =>
      (* wg.Add(1); go listCourseWorkFromCourseId(srv, courseId, ...) *)
      Some (mkState (MSpawn ids) (S (wg s)) (closer s) (closed s) (closes s)
                    (listers s ++ [mkLister courseId LList 0 []])
                    (out s) (exit_code s))
  | MSpawn [] =>
      (* go func() { wg.Wait(); close(ch) }() *)
      match closer s with
      | KNone =>
          Some (mkState MRange (wg s) KWait (closed s) (closes s)
                        (listers s) (out s) (exit_code s))
      | _ => None
      end
  | MRange =>
      (* the range loop ends when ch is closed; _main returns *)
      if closed s then Some (set_exit 0 (set_main MReturned s)) else None
  | MPrint c =>
      Some (mkState MRange (wg s) (closer s) (closed s) (closes s)
                    (listers s) (out s ++ [printLine c]) (exit_code s))
  | MReturned => None
  end.

Definition closer_step (s : state) : option state :=
  match closer s with
  | KWait =>
      (* wg.Wait() returns when the counter is zero; then close(ch) *)
      if Nat.eqb (wg s) 0 && negb (closed s)
      then Some (mkState (main s) (wg s) KDone true (S (closes s))
                         (listers s) (out s) (exit_code s))
      else None
  | _ => None
  end.

Definition listCourseWorkFromCourseId (i : nat) (s : state) : option state :=
  match nth_error (listers s) i with
  | None => None
  | Some l =>
      match pc l with
      | LList =>
          match CourseWork_List srv (course l) with
          | Err _ => Some (set_exit 1 s)     (* log.Fatalf *)
          | Ok r =>
              if (Z.of_nat (List.length r) <=? 0)
              then Some (set_lister i (mkLister (course l) LExit (wg2 l) (workers l)) s)
              else Some (set_lister i (mkLister (course l) (LLoop r) (wg2 l) (workers l)) s)
          end
      | LLoop (c :: todo) =>
          (* wg2.Add(1); go func() { ... }() *)
          Some (set_lister i (mkLister (course l) (LLoop todo) (S (wg2 l))
                                       (workers l ++ [WCheck c])) s)
      | LLoop [] =>
          Some (set_lister i (mkLister (course l) LWait (wg2 l) (workers l)) s)
      | LWait =>
          if Nat.eqb (wg2 l) 0
          then Some (set_lister i (mkLister (course l) LExit (wg2 l) (workers l)) s)
          else None
      | LExit =>
          match wg s with
          | S n => Some (set_wg n (set_lister i (mkLister (course l) LDone (wg2 l) (workers l)) s))
          | O => None
          end
      | LDone => None
      end
  end.

Definition worker_step (i k : nat) (s : state) : option state :=
  match nth_error (listers s) i with
  | None => None
  | Some l =>
      match nth_error (workers l) k with
      | None => None
      | Some (WCheck c) =>
          let w := if visibleNow c then WSend c else WExit in
          Some (set_lister i (mkLister (course l) (pc l) (wg2 l) (upd k w (workers l))) s)
      | Some (WSend c) =>
          (* ch is unbuffered: the send completes with the receive of main *)
          match main s with
          | MRange =>
              if closed s then None
              else Some (set_main (MPrint c)
                     (set_lister i (mkLister (course l) (pc l) (wg2 l) (upd k WExit (workers l))) s))
          | _ => None
          end
      | Some WExit =>
          match wg2 l with
          | S n => Some (set_lister i (mkLister (course l) (pc l) n (upd k WDone (workers l))) s)
          | O => None
          end
      | Some WDone => None
      end
  end.

(** One step of the process.  A process that has exited takes none. *)
Definition step (a : action) (s : state) : option state :=
  match exit_code s with
  | Some _ => None
  | None =>
      match a with
      | MainStep => _main s
      | CloserStep => closer_step s
      | ListerStep i => listCourseWorkFromCourseId i s
      | WorkerStep i k => worker_step i k s
      end
  end.

(** A schedule run from a state. *)
Fixpoint run (sched : list action) (s : state) : option state :=
  match sched with
  | [] => Some s
  | a :: rest =>
      match step a s with
      | Some s' => run rest s'
      | None => None
      end
  end.

(** The states of the runs of [_main] over the courses [ids]. *)
Definition reachable (ids : list string) (s : state) : Prop :=
  exists sched, run sched (init ids) = Some s.

(** What the remote service lists for a course that the filter lets
    through. *)
Definition visibleOfCourse (courseId : string) : list CourseWork :=
  match CourseWork_List srv courseId with
  | Ok r => filter visibleNow r
  | Err _ => []
  end.

(** *** The steps as a relation

    The same steps, one rule per statement of the program, with the
    goroutine that moves singled out of its list. *)

Inductive Step : state -> state -> Prop :=
| Step_spawn_lister courseId ids w k cl n ls o :
    Step (mkState (MSpawn (courseId :: ids)) w k cl n ls o None)
         (mkState (MSpawn ids) (S w) k cl n
                  (ls ++ [mkLister courseId LList 0 []]) o None)
| Step_spawn_closer w cl n ls o :
    Step (mkState (MSpawn []) w KNone cl n ls o None)
         (mkState MRange w KWait cl n ls o None)
| Step_return w k n ls o :
    Step (mkState MRange w k true n ls o None)
         (mkState MReturned w k true n ls o (Some 0))
| Step_print c w k cl n ls o :
    Step (mkState (MPrint c) w k cl n ls o None)
         (mkState MRange w k cl n ls (o ++ [printLine c]) None)
| Step_close m n ls o :
    Step (mkState m 0%nat KWait false n ls o None)
         (mkState m 0%nat KDone true (S n) ls o None)
| Step_list_fatal m w k cl n ls1 id g ws ls2 o e :
    CourseWork_List srv id = Err e ->
    Step (mkState m w k cl n (ls1 ++ mkLister id LList g ws :: ls2) o None)
         (mkState m w k cl n (ls1 ++ mkLister id LList g ws :: ls2) o (Some 1))
| Step_list_empty m w k cl n ls1 id g ws ls2 o :
    CourseWork_List srv id = Ok [] ->
    Step (mkState m w k cl n (ls1 ++ mkLister id LList g ws :: ls2) o None)
         (mkState m w k cl n (ls1 ++ mkLister id LExit g ws :: ls2) o None)
| Step_list_ok m w k cl n ls1 id g ws ls2 o r :
    CourseWork_List srv id = Ok r -> r <> [] ->
    Step (mkState m w k cl n (ls1 ++ mkLister id LList g ws :: ls2) o None)
         (mkState m w k cl n (ls1 ++ mkLister id (LLoop r) g ws :: ls2) o None)
| Step_spawn_worker m w k cl n ls1 id c todo g ws ls2 o :
    Step (mkState m w k cl n (ls1 ++ mkLister id (LLoop (c :: todo)) g ws :: ls2) o None)
         (mkState m w k cl n
            (ls1 ++ mkLister id (LLoop todo) (S g) (ws ++ [WCheck c]) :: ls2) o None)
| Step_loop_end m w k cl n ls1 id g ws ls2 o :
    Step (mkState m w k cl n (ls1 ++ mkLister id (LLoop []) g ws :: ls2) o None)
         (mkState m w k cl n (ls1 ++ mkLister id LWait g ws :: ls2) o None)
| Step_wait_return m w k cl n ls1 id ws ls2 o :
    Step (mkState m w k cl n (ls1 ++ mkLister id LWait 0 ws :: ls2) o None)
         (mkState m w k cl n (ls1 ++ mkLister id LExit 0 ws :: ls2) o None)
| Step_lister_done m w k cl n ls1 id g ws ls2 o :
    Step (mkState m (S w) k cl n (ls1 ++ mkLister id LExit g ws :: ls2) o None)
         (mkState m w k cl n (ls1 ++ mkLister id LDone g ws :: ls2) o None)
| Step_check m w k cl n ls1 id p g ws1 c ws2 ls2 o :
    Step (mkState m w k cl n
            (ls1 ++ mkLister id p g (ws1 ++ WCheck c :: ws2) :: ls2) o None)
         (mkState m w k cl n
            (ls1 ++ mkLister id p g
                      (ws1 ++ (if visibleNow c then WSend c else WExit) :: ws2)
                 :: ls2) o None)
| Step_send w k n ls1 id p g ws1 c ws2 ls2 o :
    Step (mkState MRange w k false n
            (ls1 ++ mkLister id p g (ws1 ++ WSend c :: ws2) :: ls2) o None)
         (mkState (MPrint c) w k false n
            (ls1 ++ mkLister id p g (ws1 ++ WExit :: ws2) :: ls2) o None)
| Step_worker_done m w k cl n ls1 id p g ws1 ws2 ls2 o :
    Step (mkState m w k cl n
            (ls1 ++ mkLister id p (S g) (ws1 ++ WExit :: ws2) :: ls2) o None)
         (mkState m w k cl n
            (ls1 ++ mkLister id p g (ws1 ++ WDone :: ws2) :: ls2) o None).

(** *** What the proofs count *)

Fixpoint sum_of {A : Type} (f : A -> nat) (l : list A) : nat :=
  match l with
  | [] => 0
  | x :: t => f x + sum_of f t
  end%nat.

(** Goroutines that have not finished. *)
Definition live_worker (w : worker) : nat :=
  match w with WDone => 0 | _ => 1 end%nat.

Definition live_lister (l : lister) : nat :=
  match pc l with LDone => 0 | _ => 1 end%nat.

(** Whether the line of [c] is the line [x]. *)
Definition is_line (x : string) (c : CourseWork) : nat :=
  if string_dec (printLine c) x then 1%nat else 0%nat.

(** How often the line [x] is still to come from an assignment, a course,
    a worker, a lister, the main goroutine. *)
Definition due_of_item (x : string) (c : CourseWork) : nat :=
  if visibleNow c then is_line x c else 0%nat.

Definition due_of_course (x : string) (courseId : string) : nat :=
  match CourseWork_List srv courseId with
  | Ok r => sum_of (due_of_item x) r
  | Err _ => 0%nat
  end.

Definition due_of_worker (x : string) (w : worker) : nat :=
  match w with
  | WCheck c => due_of_item x c
  | WSend c => is_line x c
  | WExit | WDone => 0%nat
  end.

Definition due_of_lister (x : string) (l : lister) : nat :=
  (match pc l with
   | LList => due_of_course x (course l)
   | LLoop todo => sum_of (due_of_item x) todo
   | LWait | LExit | LDone => 0
   end + sum_of (due_of_worker x) (workers l))%nat.

Definition due_of_main (x : string) (m : main_pc) : nat :=
  match m with
  | MSpawn ids => sum_of (due_of_course x) ids
  | MPrint c => is_line x c
  | MRange | MReturned => 0%nat
  end.

(** The assignments that pass the filter, over all courses. *)
Definition allVisible (ids : list string) : list CourseWork :=
  flat_map visibleOfCourse ids.

(** A worker holds an assignment to send only if the filter let it
    through. *)
Definition worker_ok (w : worker) : Prop :=
  match w with
  | WSend c => visibleNow c = true
  | _ => True
  end.

(** A lister's [wg2] counts its unfinished workers; it is past the
    listing only if the listing succeeded, in its loop only if the listing
    was not empty, and past [wg2.Wait()] only when its workers have all
    finished; it has workers only after a listing that was not empty. *)
Definition lister_ok (l : lister) : Prop :=
  wg2 l = sum_of live_worker (workers l)
  /\ Forall worker_ok (workers l)
  /\ match pc l with
     | LList => workers l = []
     | LLoop _ | LWait =>
         exists r, CourseWork_List srv (course l) = Ok r /\ r <> []
     | LExit | LDone =>
         sum_of live_worker (workers l) = 0%nat
         /\ exists r, CourseWork_List srv (course l) = Ok r
                      /\ (r = [] -> workers l = [])
     end.

(** The courses for which [_main] has not yet started a lister. *)
Definition unspawned (m : main_pc) : list string :=
  match m with
  | MSpawn ids => ids
  | _ => []
  end.

(** The invariant of the runs of [_main] over the courses [ids]. *)
Record Inv (ids : list string) (s : state) : Prop := mkInv {
  inv_wg : wg s = sum_of live_lister (listers s);
  inv_listers : Forall lister_ok (listers s);
  inv_closer :
    match closer s with
    | KNone => (exists rest, main s = MSpawn rest) /\ closed s = false
    | KWait => (forall rest, main s <> MSpawn rest) /\ closed s = false
    | KDone => (forall rest, main s <> MSpawn rest) /\ closed s = true
               /\ wg s = 0%nat
    end;
  inv_closes : closes s = if closed s then 1%nat else 0%nat;
  inv_main :
    match main s with
    | MReturned => exit_code s = Some 0 /\ closed s = true
    | MPrint c => visibleNow c = true /\ exit_code s <> Some 0
    | _ => exit_code s <> Some 0
    end;
  inv_exit : exit_code s = None \/ exit_code s = Some 0 \/ exit_code s = Some 1;
  inv_courses : map course (listers s) ++ unspawned (main s) = ids;
  inv_due : forall x,
    (count_occ string_dec (out s) x + due_of_main x (main s)
     + sum_of (due_of_lister x) (listers s)
     = sum_of (due_of_course x) ids)%nat
}.

(** The measure that every step lowers. *)
Definition mu_worker (w : worker) : nat :=
  match w with WCheck _ => 5 | WSend _ => 4 | WExit => 1 | WDone => 0 end%nat.

Definition mu_list (courseId : string) : nat :=
  match CourseWork_List srv courseId with
  | Ok r => 4 + 6 * List.length r
  | Err _ => 4
  end%nat.

Definition mu_lister (l : lister) : nat :=
  (match pc l with
   | LList => mu_list (course l)
   | LLoop todo => 3 + 6 * List.length todo
   | LWait => 2
   | LExit => 1
   | LDone => 0
   end + sum_of mu_worker (workers l))%nat.

Definition mu_main (m : main_pc) : nat :=
  match m with
  | MSpawn ids => 3 + sum_of (fun id => 1 + mu_list id) ids
  | MPrint _ => 2
  | MRange => 1
  | MReturned => 0
  end%nat.

Definition mu_closer (k : closer_pc) : nat :=
  match k with KNone | KWait => 1 | KDone => 0 end%nat.

Definition measure (s : state) : nat :=
  (mu_main (main s) + mu_closer (closer s)
   + sum_of mu_lister (listers s)
   + match exit_code s with None => 1 | Some _ => 0 end)%nat.

End Process.

(** ** A small world to run the program in *)

Module Example.

Definition utc (y m d : Z) (h : Z) : time.Time :=
  time.mkTime ((time.daysOfDate y m d * 24 + h) * time.Hour) 0.

Definition inZone (offsetHours : Z) (t : time.Time) : time.Time :=
  time.mkTime (time.abs t) (offsetHours * 3600).

Definition A1 := mkCourseWork "A1" "C1" "Essay" "https://c/A1" (Some (mkDate 2024 10 30)).
Definition A2 := mkCourseWork "A2" "C1" "Quiz" "https://c/A2" (Some (mkDate 2024 11 1)).
Definition A3 := mkCourseWork "A3" "C1" "Lab" "https://c/A3" None.
Definition A4 := mkCourseWork "A4" "C1" "Reading" "https://c/A4" None.
Definition A5 := mkCourseWork "A5" "C1" "Broken" "https://c/A5" (Some (mkDate 2024 13 1)).
Definition A6 := mkCourseWork "A6" "C1" "Offline" "https://c/A6" (Some (mkDate 2024 11 2)).

Definition srv : Service :=
  mkService
    (fun courseId =>
       if String.eqb courseId "C1" then Ok [A1; A2; A3; A4; A5; A6]
       else if String.eqb courseId "C0" then Ok []
       else Err (RemoteError "transport"))
    (fun courseId id =>
       if String.eqb id "A3" then Ok [mkStudentSubmission "CREATED"; mkStudentSubmission "TURNED_IN"]
       else if String.eqb id "A6" then Err (RemoteError "transport")
       else Ok [mkStudentSubmission "CREATED"]).

Definition noon : time.Time := utc 2024 10 31 12.
Definition clock (c : CourseWork) : time.Time * time.Time := (noon, noon).

(** A schedule of [_main] over the courses "C0" and "C1" that runs to the
    normal exit. *)
Definition schedule : list action :=
  [MainStep; MainStep; MainStep; ListerStep 0; ListerStep 1]
  ++ repeat (ListerStep 1) 7
  ++ [WorkerStep 1 0; WorkerStep 1 1; WorkerStep 1 2; WorkerStep 1 3;
      WorkerStep 1 4; WorkerStep 1 5]
  ++ [WorkerStep 1 1; MainStep; WorkerStep 1 3; MainStep]
  ++ [WorkerStep 1 0; WorkerStep 1 1; WorkerStep 1 2; WorkerStep 1 3;
      WorkerStep 1 4; WorkerStep 1 5]
  ++ [ListerStep 0; ListerStep 1; ListerStep 1; CloserStep; MainStep].


End Example.

(** ** Dates as the specification speaks of them *)

(** A calendar date: a month of the year and a day of that month. *)
Definition validDate (d : Date) : Prop :=
  1 <= Month d <= 12 /\ 1 <= Day d <= time.daysIn (Month d) (Year d).

(** A year that ["%d"] prints with four digits. *)
Definition fourDigitYear (d : Date) : Prop := 1000 <= Year d <= 9999.

(** [d1] is a calendar date strictly before [d2]. *)
Definition dateBefore (d1 d2 : Date) : Prop :=
  Year d1 < Year d2
  \/ (Year d1 = Year d2 /\ Month d1 < Month d2)
  \/ (Year d1 = Year d2 /\ Month d1 = Month d2 /\ Day d1 < Day d2).

(** Midnight UTC at the start of a date. *)
Definition midnight (d : Date) : time.Time :=
  time.Date (Year d) (Month d) (Day d).

(** The instant [t] falls on the calendar date [today] in UTC. *)
Definition onUtcDate (t : time.Time) (today : Date) : Prop :=
  validDate today
  /\ time.abs (midnight today) <= time.abs t
     < time.abs (midnight today) + 24 * time.Hour.

(** The wall clock of [t] in its own zone shows the calendar date [today]. *)
Definition onLocalDate (t : time.Time) (today : Date) : Prop :=
  validDate today
  /\ time.abs (midnight today)
     <= time.abs t + time.offset t * time.Second
     < time.abs (midnight today) + 24 * time.Hour.

(** A string of decimal digits. *)
Fixpoint all_digits (s : string) : bool :=
  match s with
  | EmptyString => true
  | String c r => time.is_digit_char c && all_digits r
  end.

(** The effective due date of an assignment: its due date when it has
    one, otherwise the date on the local wall clock at the first reading
    of the clock. *)
Definition effectiveDueDate (now1 : time.Time) (c : CourseWork) (e : Date) : Prop :=
  match DueDate c with
  | Some d => e = d
  | None => onLocalDate now1 e
  end.

(** Some record of a lookup is in the state "turned in". *)
Definition turnedIn (wr : list StudentSubmission) : Prop :=
  exists s, In s wr /\ State s = "TURNED_IN"%string.

(** ** The lister of [src/trace/main.go]

    The same goroutines, with the lister of [src/trace/main.go]: it has no
    early return on an empty listing, so it always enters its loop, and it
    calls [wg2.Wait()] at its end; [wg.Done()] is deferred as before. *)

Section TraceVariant.

Variable srv : Service.
Variable clock : CourseWork -> time.Time * time.Time.

Definition listCourseWorkFromCourseId_trace (i : nat) (s : state)
  : option state :=
  match nth_error (listers s) i with
  | None => None
  | Some l =>
      match pc l with
      | LList =>
          match CourseWork_List srv (course l) with
          | Err _ => Some (set_exit 1 s)     (* log.Fatalf *)
          | Ok r =>
              Some (set_lister i (mkLister (course l) (LLoop r) (wg2 l) (workers l)) s)
          end
      | LLoop (c :: todo) =>
          (* wg2.Add(1); go func(c *classroom.CourseWork) { ... }(coursework) *)
          Some (set_lister i (mkLister (course l) (LLoop todo) (S (wg2 l))
                                       (workers l ++ [WCheck c])) s)
      | LLoop [] =>
          Some (set_lister i (mkLister (course l) LWait (wg2 l) (workers l)) s)
      | LWait =>
          (* wg2.Wait() *)
          if Nat.eqb (wg2 l) 0
          then Some (set_lister i (mkLister (course l) LExit (wg2 l) (workers l)) s)
          else None
      | LExit =>
          match wg s with
          | S n => Some (set_wg n (set_lister i (mkLister (course l) LDone (wg2 l) (workers l)) s))
          | O => None
          end
      | LDone => None
      end
  end.

Definition step_trace (a : action) (s : state) : option state :=
  match exit_code s with
  | Some _ => None
  | None =>
      match a with
      | MainStep => _main s
      | CloserStep => closer_step s
      | ListerStep i => listCourseWorkFromCourseId_trace i s
      | WorkerStep i k => worker_step srv clock i k s
      end
  end.

Fixpoint run_trace (sched : list action) (s : state) : option state :=
  match sched with
  | [] => Some s
  | a :: rest =>
      match step_trace a s with
      | Some s' => run_trace rest s'
      | None => None
      end
  end.

(** A lister of [src/trace/main.go] seen as a lister of [src/main.go]: with
    an empty listing, in its loop or in its [wg2.Wait()], it stands where
    the early return of [src/main.go] leads, before the deferred
    [wg.Done()]. *)
Definition early_pc (courseId : string) (p : lister_pc) : lister_pc :=
  match CourseWork_List srv courseId, p with
  | Ok [], LLoop _ | Ok [], LWait => LExit
  | _, _ => p
  end.

Definition early_return (l : lister) : lister :=
  mkLister (course l) (early_pc (course l) (pc l)) (wg2 l) (workers l).

Definition as_main (s : state) : state :=
  mkState (main s) (wg s) (closer s) (closed s) (closes s)
          (map early_return (listers s)) (out s) (exit_code s).

(** What is left of the loop is the end of the listing. *)
Definition loop_in_listing (l : lister) : Prop :=
  forall todo, pc l = LLoop todo ->
    exists r done, CourseWork_List srv (course l) = Ok r /\ r = done ++ todo.

End TraceVariant.

(** ** The sequential [main] of [src/main.go]

    The second program of [src/main.go]: one loop over the courses and,
    inside it, one loop over the assignments of the course, with the date
    test only.  It ends at the end of [main], at the [return] after a date
    that does not parse, or in [log.Fatalf] when a listing fails. *)

Module Sequential.

(** How [main] ended. *)
Inductive ending : Type :=
| Finished              (* the end of [main] *)
| StoppedOnParseError   (* the [return] after "Error parsing date:" *)
| FatalExit.            (* [log.Fatalf] *)

Definition exit_code_of (e : ending) : Z :=
  match e with
  | Finished | StoppedOnParseError => 0
  | FatalExit => 1
  end.

(** [err.Error()]: for a parse error, [parsing time], the quoted value
    and the rest of the message; for an error of the service, its
    message. *)
Definition Error (e : error) : string :=
  match e with
  | ParseError value msg =>
      ("parsing time " ++ time.quote value ++ msg)%string
  | RemoteError msg => msg
  end.

Definition newline : string := String (ascii_of_nat 10) EmptyString.

(** [fmt.Println("Error parsing date:", err)]. *)
Definition errorLine (e : error) : string :=
  ("Error parsing date: " ++ Error e ++ newline)%string.

(** [fmt.Println("課題が見つかりません。")] and [fmt.Println("課題一覧:")]. *)
Definition noCourseWorkLine : string := ("課題が見つかりません。" ++ newline)%string.
Definition headerLine : string := ("課題一覧:" ++ newline)%string.

(** What [main] has done: the lines printed, the courses it asked the
    service to list, in order, and how it ended. *)
Record result : Type := mkResult {
  printed : list string;
  listed : list string;
  ended : ending
}.

Section Main.

Variable srv : Service.
Variable clock : CourseWork -> time.Time * time.Time.

(** The loop over [r.CourseWork]: the lines it prints, and whether it ran
    into the [return]. *)
Fixpoint courseWorkLoop (l : list CourseWork) : list string * bool :=
  match l with
  | [] => ([], false)
  | c :: rest =>
      match time.Parse_2006_01_02 (dateString (fst (clock c)) c) with
      | Err err => ([errorLine err], true)
      | Ok parsedDate =>
          let currentDate := time.Truncate (snd (clock c)) (24 * time.Hour) in
          if time.Before parsedDate currentDate then courseWorkLoop rest
          else
            let '(lines, stop) := courseWorkLoop rest in
            (printLine c :: lines, stop)
      end
  end.

(** [main] from the loop over the courses on. *)
Fixpoint main (ids : list string) : result :=
  match ids with
  | [] => mkResult [] [] Finished
  | courseId :: rest =>
      match CourseWork_List srv courseId with
      | Err _ => mkResult [] [courseId] FatalExit
      | Ok r =>
          if Z.of_nat (List.length r) <=? 0 then
            let res := main rest in
            mkResult (noCourseWorkLine :: printed res)
                     (courseId :: listed res) (ended res)
          else
            let '(lines, stop) := courseWorkLoop r in
            if stop
            then mkResult (headerLine :: lines) [courseId] StoppedOnParseError
            else
              let res := main rest in
              mkResult (headerLine :: lines ++ printed res)
                       (courseId :: listed res) (ended res)
      end
  end.

(** An assignment that the date test of the loop lets through. *)
Definition passesDate (c : CourseWork) : bool :=
  match time.Parse_2006_01_02 (dateString (fst (clock c)) c) with
  | Err _ => false
  | Ok parsedDate =>
      negb (time.Before parsedDate
              (time.Truncate (snd (clock c)) (24 * time.Hour)))
  end.

(** An assignment whose date string parses. *)
Definition parses (c : CourseWork) : bool :=
  match time.Parse_2006_01_02 (dateString (fst (clock c)) c) with
  | Err _ => false
  | Ok _ => true
  end.

End Main.

End Sequential.

(** ** A second small world: one course whose dates all parse *)

Module Example2.

Definition srv : Service :=
  mkService
    (fun courseId =>
       if String.eqb courseId "K1"
       then Ok [Example.A1; Example.A2; Example.A3; Example.A4]
       else if String.eqb courseId "K0" then Ok []
       else Err (RemoteError "transport"))
    (fun courseId id =>
       if String.eqb id "A3"
       then Ok [mkStudentSubmission "CREATED"; mkStudentSubmission "TURNED_IN"]
       else Ok []).

(** A schedule of [_main] over the course "K1" that runs to the normal
    exit. *)
Definition schedule : list action :=
  [MainStep; MainStep] ++ repeat (ListerStep 0) 6
  ++ [WorkerStep 0 0; WorkerStep 0 1; WorkerStep 0 2; WorkerStep 0 3]
  ++ [WorkerStep 0 1; MainStep; WorkerStep 0 3; MainStep]
  ++ [WorkerStep 0 0; WorkerStep 0 1; WorkerStep 0 2; WorkerStep 0 3]
  ++ [ListerStep 0; ListerStep 0; CloserStep; MainStep].

End Example2.

(** ** The stored token: [getClient], [getTokenFromWeb], [tokenFromFile],
    [saveToken]

    The functions that obtain the OAuth token work on the files of the
    process, on its standard input and on its standard output.  The world
    below holds these.  The types and operations of [oauth2] and of
    [encoding/json] on a token are parameters of the section. *)

Module Credentials.

(** The world of the process: the contents of the files that [os.Open] can
    open, the paths that [os.OpenFile] can create or truncate, the
    space-separated words waiting on standard input, and what has been
    printed. *)
Record World : Type := mkWorld {
  files : string -> option string;
  writable : string -> bool;
  stdin : list string;
  stdout : list string
}.

(** A call that returns a value in a new world, or ends the process in
    [log.Fatalf]; [msg] is the fixed part of the message, before the text
    of the error. *)
Inductive outcome (A : Type) : Type :=
| Returns (a : A) (w : World)
| Fatal (msg : string) (w : World).
Arguments Returns {A} a w.
Arguments Fatal {A} msg w.

Definition io (A : Type) : Type := World -> outcome A.

Definition ret {A : Type} (a : A) : io A := fun w => Returns a w.

Definition bind {A B : Type} (m : io A) (k : A -> io B) : io B :=
  fun w =>
    match m w with
    | Returns a w' => k a w'
    | Fatal msg w' => Fatal msg w'
    end.

Notation "x <- m ;; k" := (bind m (fun x => k))
  (at level 61, m at next level, right associativity).
Notation "m ;;; k" := (bind m (fun _ => k))
  (at level 61, right associativity).

(** [fmt.Printf] and [fmt.Print]: one more piece of output. *)
Definition print (line : string) : io unit :=
  fun w => Returns tt (mkWorld (files w) (writable w) (stdin w)
                               (stdout w ++ [line])).

(** [log.Fatalf]. *)
Definition fatal {A : Type} (msg : string) : io A := fun w => Fatal msg w.

(** [fmt.Scan(&s)]: the next word of standard input, or an error at its
    end. *)
Definition Scan : io (option string) :=
  fun w =>
    match stdin w with
    | [] => Returns None w
    | word :: rest =>
        Returns (Some word) (mkWorld (files w) (writable w) rest (stdout w))
    end.

(** [os.OpenFile(path, os.O_RDWR|os.O_CREATE|os.O_TRUNC, 0600)] followed by
    the write of [contents] and the deferred [Close]: [false] when the
    file cannot be opened, and then nothing is written.  A file opened
    with [O_RDWR] can be read afterwards.  An error of the write itself,
    which [saveToken] ignores, is not modelled. *)
Definition writeFile (path contents : string) : io bool :=
  fun w =>
    if writable w path
    then Returns true
           (mkWorld (fun p => if String.eqb p path then Some contents
                              else files w p)
                    (writable w) (stdin w) (stdout w))
    else Returns false w.

(** What [tokenFromFile] returns: the error of [os.Open], the error of the
    decoder, or the token. *)
Inductive stored (Token : Type) : Type :=
| NoFile
| BadFile (err : error)
| Stored (tok : Token).
Arguments NoFile {Token}.
Arguments BadFile {Token} err.
Arguments Stored {Token} tok.

Section Client.

Variables Token Config Client : Type.

(** [config.AuthCodeURL("state-token", oauth2.AccessTypeOffline)]. *)
Variable AuthCodeURL : Config -> string.
(** [config.Exchange(context.TODO(), authCode)]. *)
Variable Exchange : Config -> string -> result Token.
(** [config.Client(context.Background(), tok)]. *)
Variable NewClient : Config -> Token -> Client.
(** [json.NewEncoder(f).Encode(token)]: what is written to the file. *)
Variable Encode : Token -> string.
(** [json.NewDecoder(f).Decode(tok)]. *)
Variable Decode : string -> result Token.

Definition tokenFromFile (file : string) (w : World) : stored Token :=
  match files w file with
  | None => NoFile
  | Some contents =>
      match Decode contents with
      | Err err => BadFile err
      | Ok tok => Stored tok
      end
  end.

(** What [getTokenFromWeb] prints: the request and the link. *)
Definition prompt (config : Config) : string :=
  ("ブラウザで次のリンクにアクセスし、認証コードを入力してください: "
   ++ Sequential.newline ++ AuthCodeURL config ++ Sequential.newline)%string.

Definition getTokenFromWeb (config : Config) : io Token :=
  print (prompt config) ;;;
  authCode <- Scan ;;
  match authCode with
  | None => fatal "認証コードを読み取れませんでした"
  | Some authCode =>
      match Exchange config authCode with
      | Err _ => fatal "Webからトークンを取得できませんでした"
      | Ok tok => ret tok
      end
  end.

Definition saveToken (path : string) (token : Token) : io unit :=
  print ("資格情報ファイルを次の場所に保存しています: " ++ path
         ++ Sequential.newline) ;;;
  opened <- writeFile path (Encode token) ;;
  if opened then ret tt
  else fatal "OAuthトークンをキャッシュできませんでした".

Definition getClient (config : Config) : io Client :=
  fun w =>
    let tokFile := "token.json"%string in
    match tokenFromFile tokFile w with
    | Stored tok => Returns (NewClient config tok) w
    | NoFile | BadFile _ =>
        (tok <- getTokenFromWeb config ;;
         saveToken tokFile tok ;;;
         ret (NewClient config tok)) w
    end.

End Client.

Arguments prompt {Config} AuthCodeURL config.
Arguments tokenFromFile {Token} Decode file w.
Arguments getTokenFromWeb {Token Config} AuthCodeURL Exchange config w.
Arguments saveToken {Token} Encode path token w.
Arguments getClient {Token Config Client}
  AuthCodeURL Exchange NewClient Encode Decode config w.

(** The world a call leaves behind, however it ends. *)
Definition world_of {A : Type} (o : outcome A) : World :=
  match o with
  | Returns _ w => w
  | Fatal _ w => w
  end.

End Credentials.

(** A concrete instance: tokens are strings, written to the file after an
    opening brace; only the code [4/ok] can be exchanged. *)
Module Example3.

Definition AuthCodeURL (_ : unit) : string := "https://accounts.example/auth".

Definition Exchange (_ : unit) (authCode : string) : result string :=
  if String.eqb authCode "4/ok" then Ok ("ya29." ++ authCode)%string
  else Err (RemoteError "invalid_grant").

Definition NewClient (_ : unit) (tok : string) : string := tok.

Definition Encode (tok : string) : string := String "{"%char tok.

Definition Decode (contents : string) : result string :=
  match contents with
  | String "{"%char tok => Ok tok
  | _ => Err (ParseError contents "invalid character")
  end.

Definition getClient : Credentials.io string :=
  Credentials.getClient AuthCodeURL Exchange NewClient Encode Decode tt.

Definition secretOnly (p : string) : option string :=
  if String.eqb p "client_secret.json" then Some "{}"%string else None.

(** No token file yet, the directory is writable, the user types the
    code. *)
Definition firstRun : Credentials.World :=
  Credentials.mkWorld secretOnly (fun _ => true) ["4/ok"%string] [].

(** The user types a code that the server rejects. *)
Definition rejected : Credentials.World :=
  Credentials.mkWorld secretOnly (fun _ => true) ["4/no"%string] [].

End Example3.

(** * Properties *)

(** Division and remainder by constants are given to [lia] as their
    Euclidean equations. *)
Ltac Zify.zify_post_hook ::= Z.to_euclidean_division_equations.

(** ** Digits *)

Lemma digit_char_val (k : Z) :
  0 <= k <= 9 ->
  time.is_digit_char (fmt.digit_char k) = true
  /\ time.digit_val (fmt.digit_char k) = k.
Proof.
  intros H.
  assert (k = 0 \/ k = 1 \/ k = 2 \/ k = 3 \/ k = 4 \/ k = 5 \/ k = 6
          \/ k = 7 \/ k = 8 \/ k = 9) as Hk by lia.
  repeat (destruct Hk as [-> | Hk]; [split; reflexivity|]).
  subst; split; reflexivity.
Qed.

Lemma utoa_fuel_S (f : nat) (n : Z) (acc : string) :
  fmt.utoa_fuel (S f) n acc =
  if n / 10 =? 0 then String (fmt.digit_char (n mod 10)) acc
  else fmt.utoa_fuel f (n / 10) (String (fmt.digit_char (n mod 10)) acc).
Proof. reflexivity. Qed.

Lemma utoa_four_digits (y : Z) :
  1000 <= y <= 9999 ->
  fmt.utoa y =
  String (fmt.digit_char (y / 1000))
    (String (fmt.digit_char (y / 100 mod 10))
       (String (fmt.digit_char (y / 10 mod 10))
          (String (fmt.digit_char (y mod 10)) EmptyString))).
Proof.
  intros H. unfold fmt.utoa.
  assert ((y / 10 =? 0) = false) as E1 by (apply Z.eqb_neq; lia).
  assert ((y / 10 / 10 =? 0) = false) as E2 by (apply Z.eqb_neq; lia).
  assert ((y / 10 / 10 / 10 =? 0) = false) as E3 by (apply Z.eqb_neq; lia).
  assert ((y / 10 / 10 / 10 / 10 =? 0) = true) as E4 by (apply Z.eqb_eq; lia).
  rewrite utoa_fuel_S, E1, utoa_fuel_S, E2, utoa_fuel_S, E3, utoa_fuel_S, E4.
  replace (y / 10 / 10 / 10 mod 10) with (y / 1000) by lia.
  replace (y / 10 / 10 mod 10) with (y / 100 mod 10) by lia.
  reflexivity.
Qed.

Lemma fmt_0d_two_digits (k : Z) :
  0 <= k <= 99 ->
  fmt.fmt_0d 2 k =
  String (fmt.digit_char (k / 10))
    (String (fmt.digit_char (k mod 10)) EmptyString).
Proof.
  intros H. unfold fmt.fmt_0d, fmt.utoa.
  assert ((k <? 0) = false) as -> by (apply Z.ltb_ge; lia).
  rewrite Z.abs_eq by lia.
  rewrite utoa_fuel_S.
  destruct (k / 10 =? 0) eqn:E1.
  - apply Z.eqb_eq in E1. rewrite E1. reflexivity.
  - assert ((k / 10 / 10 =? 0) = true) as E2 by (apply Z.eqb_eq; lia).
    rewrite utoa_fuel_S, E2.
    replace (k / 10 mod 10) with (k / 10) by lia.
    reflexivity.
Qed.

(** ** Parsing what Sprintf printed *)

Lemma atoi_digit_first (c : ascii) (r : string) :
  time.is_digit_char c = true ->
  time.atoi (String c r) =
  match time.leadingInt (String c r) 0 with
  | (q, EmptyString) => Some q
  | _ => None
  end.
Proof.
  destruct c as [[] [] [] [] [] [] [] []]; intros H; try discriminate H;
    reflexivity.
Qed.

Lemma leadingInt_digit (c : ascii) (r : string) (x : Z) :
  time.is_digit_char c = true ->
  time.leadingInt (String c r) x = time.leadingInt r (x * 10 + time.digit_val c).
Proof. intros H. simpl. rewrite H. reflexivity. Qed.

Lemma getnum_two_digits (k : Z) (rest : string) :
  0 <= k <= 99 ->
  time.getnum (fmt.fmt_0d 2 k ++ rest) true = Some (k, rest).
Proof.
  intros H. rewrite fmt_0d_two_digits by lia.
  destruct (digit_char_val (k / 10)) as [D1 V1]; [lia|].
  destruct (digit_char_val (k mod 10)) as [D0 V0]; [lia|].
  cbn [append time.getnum]. rewrite D1, D0, V1, V0.
  do 2 f_equal. lia.
Qed.

Lemma daysIn_bound (m y : Z) : time.daysIn m y <= 31.
Proof.
  unfold time.daysIn.
  destruct ((m =? 2) && time.isLeap y); [lia|].
  destruct m as [|p|p]; try (cbn; lia).
  do 4 (destruct p as [p|p|]; try (cbn; lia)).
Qed.

(** The four digits of a year, two digits of a month and two digits of a
    day, with the separators of the layout: [Parse] checks the month, then
    the day against the month, and gives the midnight of the date. *)
Lemma Parse_digits_gen (y m dd : Z) :
  0 <= y <= 9999 -> 0 <= m <= 99 -> 0 <= dd <= 99 ->
  let v :=
    String (fmt.digit_char (y / 1000))
      (String (fmt.digit_char (y / 100 mod 10))
         (String (fmt.digit_char (y / 10 mod 10))
            (String (fmt.digit_char (y mod 10))
               ("-" ++ fmt.fmt_0d 2 m ++ "-" ++ fmt.fmt_0d 2 dd)))) in
  time.Parse_2006_01_02 v =
  if (m <=? 0) || (12 <? m)
  then Err (ParseError v ": month out of range")
  else if (dd <? 1) || (time.daysIn m y <? dd)
       then Err (ParseError v ": day out of range")
       else Ok (time.Date y m dd).
Proof.
  intros Hy Hm Hd.
  destruct (digit_char_val (y / 1000)) as [D3 V3]; [lia|].
  destruct (digit_char_val (y / 100 mod 10)) as [D2 V2]; [lia|].
  destruct (digit_char_val (y / 10 mod 10)) as [D1 V1]; [lia|].
  destruct (digit_char_val (y mod 10)) as [D0 V0]; [lia|].
  cbv zeta. cbn [append]. unfold time.Parse_2006_01_02.
  rewrite D3. cbn [negb].
  rewrite atoi_digit_first by exact D3.
  rewrite !leadingInt_digit by assumption.
  cbn [time.leadingInt]. rewrite V3, V2, V1, V0.
  replace ((((0 * 10 + y / 1000) * 10 + y / 100 mod 10) * 10
            + y / 10 mod 10) * 10 + y mod 10) with y by lia.
  cbn [time.skip_dash].
  rewrite getnum_two_digits by lia.
  destruct ((m <=? 0) || (12 <? m)); [reflexivity|].
  cbn [time.skip_dash].
  assert (time.getnum (fmt.fmt_0d 2 dd) true = Some (dd, EmptyString)) as ->.
  { rewrite <- (getnum_two_digits dd EmptyString) by lia. f_equal.
    clear. induction (fmt.fmt_0d 2 dd); cbn; congruence. }
  reflexivity.
Qed.

Lemma Parse_digits (y m dd : Z) :
  0 <= y <= 9999 -> 1 <= m <= 12 -> 1 <= dd <= time.daysIn m y ->
  time.Parse_2006_01_02
    (String (fmt.digit_char (y / 1000))
       (String (fmt.digit_char (y / 100 mod 10))
          (String (fmt.digit_char (y / 10 mod 10))
             (String (fmt.digit_char (y mod 10))
                ("-" ++ fmt.fmt_0d 2 m ++ "-" ++ fmt.fmt_0d 2 dd)))))
  = Ok (time.Date y m dd).
Proof.
  intros Hy Hm Hd.
  pose proof (daysIn_bound m y) as Hb.
  pose proof (Parse_digits_gen y m dd Hy ltac:(lia) ltac:(lia)) as H.
  cbv zeta in H. rewrite H.
  assert (((m <=? 0) || (12 <? m)) = false) as ->.
  { apply orb_false_iff. split; [apply Z.leb_gt | apply Z.ltb_ge]; lia. }
  assert (((dd <? 1) || (time.daysIn m y <? dd)) = false) as ->.
  { apply orb_false_iff. split; apply Z.ltb_ge; lia. }
  reflexivity.
Qed.

(** A date with a four-digit year, a month and a day of that month is
    printed by ["%d-%02d-%02d"] and parsed back to its midnight in UTC. *)
Lemma Parse_Sprintf (d : Date) :
  fourDigitYear d -> validDate d ->
  time.Parse_2006_01_02 (fmt.Sprintf_d_02d_02d (Year d) (Month d) (Day d))
  = Ok (midnight d).
Proof.
  destruct d as [y m dd]. unfold fourDigitYear, validDate, midnight.
  cbn [Year Month Day]. intros Hy [Hm Hd].
  unfold fmt.Sprintf_d_02d_02d, fmt.fmt_d.
  assert ((y <? 0) = false) as -> by (apply Z.ltb_ge; lia).
  rewrite utoa_four_digits by lia.
  cbn [append]. apply Parse_digits; lia.
Qed.

(** ** What Parse accepts of what Sprintf prints *)

Lemma append_assoc (a b c : string) :
  ((a ++ b) ++ c = a ++ (b ++ c))%string.
Proof. induction a as [|x a IH]; cbn; [reflexivity | rewrite IH; reflexivity]. Qed.

Lemma length_append (a b : string) :
  String.length (a ++ b) = (String.length a + String.length b)%nat.
Proof. induction a as [|x a IH]; cbn; [reflexivity | rewrite IH; reflexivity]. Qed.

Lemma all_digits_append (a b : string) :
  all_digits (a ++ b) = all_digits a && all_digits b.
Proof.
  induction a as [|x a IH]; cbn; [reflexivity|].
  rewrite IH, andb_assoc. reflexivity.
Qed.

Lemma digit_char_is_digit (k : Z) : time.is_digit_char (fmt.digit_char k) = true.
Proof.
  unfold fmt.digit_char.
  repeat match goal with
    | |- context [match ?x with _ => _ end] => destruct x
    end; reflexivity.
Qed.

(** The digits that [utoa] puts in front of its accumulator. *)
Lemma utoa_fuel_shape (f : nat) (n : Z) (acc : string) :
  exists p, fmt.utoa_fuel (S f) n acc = (p ++ acc)%string
            /\ all_digits p = true /\ (1 <= String.length p)%nat.
Proof.
  revert n acc. induction f as [|f IH]; intros n acc; rewrite utoa_fuel_S.
  - exists (String (fmt.digit_char (n mod 10)) EmptyString). cbn.
    rewrite digit_char_is_digit. destruct (n / 10 =? 0); repeat split; lia.
  - destruct (n / 10 =? 0).
    + exists (String (fmt.digit_char (n mod 10)) EmptyString). cbn.
      rewrite digit_char_is_digit. repeat split; lia.
    + destruct (IH (n / 10) (String (fmt.digit_char (n mod 10)) acc))
        as [p [E [D L]]].
      exists (p ++ String (fmt.digit_char (n mod 10)) EmptyString)%string.
      rewrite E, append_assoc, all_digits_append, length_append, D. cbn.
      rewrite digit_char_is_digit. repeat split; lia.
Qed.

Lemma utoa_digits (n : Z) :
  all_digits (fmt.utoa n) = true /\ (1 <= String.length (fmt.utoa n))%nat.
Proof.
  unfold fmt.utoa. destruct (utoa_fuel_shape 19 n EmptyString) as [p [E [D L]]].
  rewrite E, all_digits_append, length_append, D. cbn. split; [reflexivity | lia].
Qed.

Lemma utoa_length_four (y : Z) :
  0 <= y -> String.length (fmt.utoa y) = 4%nat -> 1000 <= y <= 9999.
Proof.
  intros Hy HL. unfold fmt.utoa in HL.
  rewrite utoa_fuel_S in HL.
  destruct (Z.eqb_spec (y / 10) 0); [cbn in HL; discriminate|].
  rewrite utoa_fuel_S in HL.
  destruct (Z.eqb_spec (y / 10 / 10) 0); [cbn in HL; discriminate|].
  rewrite utoa_fuel_S in HL.
  destruct (Z.eqb_spec (y / 10 / 10 / 10) 0); [cbn in HL; discriminate|].
  rewrite utoa_fuel_S in HL.
  destruct (Z.eqb_spec (y / 10 / 10 / 10 / 10) 0); [lia|].
  exfalso.
  match type of HL with
  | String.length (fmt.utoa_fuel (S ?f) ?n ?acc) = _ =>
      destruct (utoa_fuel_shape f n acc) as [p [E [_ L]]]
  end.
  rewrite E, length_append in HL. cbn in HL. lia.
Qed.

Lemma zeros_digits (k : nat) :
  all_digits (fmt.zeros k) = true /\ String.length (fmt.zeros k) = k.
Proof.
  induction k as [|k [D L]]; cbn; [split; reflexivity|].
  rewrite D, L. split; reflexivity.
Qed.

(** [%02d] of a non-negative number: digits only, and two of them only
    below 100. *)
Lemma fmt_0d_nonneg (k : Z) :
  0 <= k ->
  all_digits (fmt.fmt_0d 2 k) = true
  /\ (String.length (fmt.fmt_0d 2 k) = 2%nat -> k <= 99).
Proof.
  intros Hk. unfold fmt.fmt_0d.
  assert ((k <? 0) = false) as -> by (apply Z.ltb_ge; lia).
  rewrite Z.abs_eq by lia.
  destruct (utoa_digits k) as [D L].
  destruct (zeros_digits (2 - String.length (fmt.utoa k))) as [DZ LZ].
  rewrite all_digits_append, DZ, D, length_append, LZ.
  split; [reflexivity|]. intros HL.
  destruct (Z_le_gt_dec k 99) as [?|Hbig]; [assumption|]. exfalso.
  unfold fmt.utoa in HL. rewrite utoa_fuel_S in HL.
  destruct (Z.eqb_spec (k / 10) 0); [lia|]. rewrite utoa_fuel_S in HL.
  destruct (Z.eqb_spec (k / 10 / 10) 0); [lia|].
  match type of HL with
  | context [String.length (fmt.utoa_fuel (S ?f) ?n ?acc)] =>
      destruct (utoa_fuel_shape f n acc) as [p [E [_ Lp]]]
  end.
  rewrite E, length_append in HL. cbn in HL. lia.
Qed.

(** Two strings of digits that are each followed by a dash, in equal
    strings, are equal, and so is what follows. *)
Lemma digits_then_dash (a b ra rb : string) :
  all_digits a = true -> all_digits b = true ->
  (a ++ String "-" ra = b ++ String "-" rb)%string ->
  a = b /\ ra = rb.
Proof.
  revert b. induction a as [|x a IH]; intros [|y b] Da Db E; cbn in *.
  - injection E as ->. split; reflexivity.
  - injection E as <- _. cbn in Db. discriminate.
  - injection E as -> _. cbn in Da. discriminate.
  - injection E as -> E.
    apply andb_true_iff in Da. apply andb_true_iff in Db.
    destruct (IH b (proj2 Da) (proj2 Db) E) as [-> ->]. split; reflexivity.
Qed.

Lemma leadingInt_all (s : string) (x q : Z) :
  time.leadingInt s x = (q, EmptyString) -> all_digits s = true.
Proof.
  revert x. induction s as [|c s IH]; intros x H; cbn in *; [reflexivity|].
  destruct (time.is_digit_char c); [|discriminate]. cbn. exact (IH _ H).
Qed.

(** What [Parse] accepts: four digits, a dash, two digits, a dash, two
    digits. *)
Lemma Parse_Ok_shape (v : string) (t : time.Time) :
  time.Parse_2006_01_02 v = Ok t ->
  exists Y M D,
    v = (Y ++ String "-" (M ++ String "-" D))%string
    /\ all_digits Y = true /\ String.length Y = 4%nat
    /\ all_digits M = true /\ String.length M = 2%nat
    /\ all_digits D = true /\ String.length D = 2%nat.
Proof.
  unfold time.Parse_2006_01_02.
  destruct v as [|c0 [|c1 [|c2 [|c3 v1]]]]; try discriminate.
  destruct (time.is_digit_char c0) eqn:D0; [|discriminate]. cbn [negb].
  rewrite atoi_digit_first by exact D0.
  destruct (time.leadingInt _ 0) as [q rem] eqn:EL.
  destruct rem; [|discriminate].
  apply leadingInt_all in EL.
  destruct v1 as [|d v2]; [discriminate|]. cbn [time.skip_dash].
  destruct d as [[] [] [] [] [] [] [] []]; try discriminate.
  unfold time.getnum at 1.
  destruct v2 as [|m1 [|m0 v3]]; try discriminate;
    destruct (time.is_digit_char m1) eqn:DM1; try discriminate.
  destruct (time.is_digit_char m0) eqn:DM0; [|discriminate].
  destruct ((_ <=? 0) || (12 <? _)); [discriminate|].
  destruct v3 as [|d v4]; [discriminate|]. cbn [time.skip_dash].
  destruct d as [[] [] [] [] [] [] [] []]; try discriminate.
  unfold time.getnum.
  destruct v4 as [|d1 [|d0 v5]]; try discriminate;
    destruct (time.is_digit_char d1) eqn:DD1; try discriminate.
  destruct (time.is_digit_char d0) eqn:DD0; [|discriminate].
  destruct v5; [|discriminate]. intros _.
  exists (String c0 (String c1 (String c2 (String c3 EmptyString)))),
    (String m1 (String m0 EmptyString)), (String d1 (String d0 EmptyString)).
  cbn. rewrite DM1, DM0, DD1, DD0. cbn in EL. rewrite EL.
  repeat split; reflexivity.
Qed.

(** [Parse] accepts what ["%d-%02d-%02d"] printed only for a date with a
    four-digit year, a month and a day of that month. *)
Lemma Parse_Sprintf_Ok_inv (d : Date) (t : time.Time) :
  time.Parse_2006_01_02 (fmt.Sprintf_d_02d_02d (Year d) (Month d) (Day d))
  = Ok t ->
  fourDigitYear d /\ validDate d.
Proof.
  destruct d as [y m dd]. unfold fourDigitYear, validDate.
  cbn [Year Month Day]. intros HP.
  destruct (Parse_Ok_shape _ _ HP) as [Y [M [D [E [DY [LY [DM [LM [DD LD]]]]]]]]].
  unfold fmt.Sprintf_d_02d_02d in E. cbn [append] in E.
  change ("-" ++ fmt.fmt_0d 2 m ++ "-" ++ fmt.fmt_0d 2 dd)%string
    with (String "-" (fmt.fmt_0d 2 m ++ String "-" (fmt.fmt_0d 2 dd)))%string in E.
  assert (forall k r s c, k < 0 -> time.is_digit_char c = true ->
            (fmt.fmt_0d 2 k ++ r)%string <> String c s) as Hneg0.
  { intros k r s c Hk Hds. unfold fmt.fmt_0d.
    assert ((k <? 0) = true) as -> by (apply Z.ltb_lt; lia).
    cbn [append]. intros Hc. injection Hc as <- _. cbn in Hds. discriminate. }
  (* the year *)
  assert (0 <= y) as Hy0.
  { destruct (Z_lt_ge_dec y 0) as [Hneg|]; [exfalso | lia].
    unfold fmt.fmt_d in E.
    assert ((y <? 0) = true) as Hb by (apply Z.ltb_lt; lia).
    rewrite Hb in E. destruct Y as [|c Y]; [discriminate|].
    cbn [append] in E. injection E as <- _. cbn in DY. discriminate. }
  unfold fmt.fmt_d in E.
  assert ((y <? 0) = false) as Hb by (apply Z.ltb_ge; lia). rewrite Hb in E.
  destruct (utoa_digits y) as [Du _].
  destruct (digits_then_dash _ _ _ _ Du DY E) as [EY E1].
  assert (1000 <= y <= 9999) as Hy
    by (apply utoa_length_four; [lia | rewrite EY; exact LY]).
  (* the month *)
  assert (0 <= m) as Hm0.
  { destruct (Z_lt_ge_dec m 0) as [Hneg|]; [exfalso | lia].
    destruct M as [|c M]; [discriminate|].
    apply (Hneg0 m (String "-" (fmt.fmt_0d 2 dd)) (M ++ String "-" D)%string c Hneg);
      [|exact E1].
    cbn in DM. apply andb_true_iff in DM. apply DM. }
  destruct (fmt_0d_nonneg m Hm0) as [Dm Lm].
  destruct (digits_then_dash _ _ _ _ Dm DM E1) as [EM E2].
  assert (m <= 99) as Hm by (apply Lm; rewrite EM; exact LM).
  (* the day *)
  assert (0 <= dd) as Hd0.
  { destruct (Z_lt_ge_dec dd 0) as [Hneg|]; [exfalso | lia].
    destruct D as [|c D]; [discriminate|].
    cbn in DD. apply andb_true_iff in DD.
    apply (Hneg0 dd EmptyString D c Hneg (proj1 DD)).
    rewrite E2. clear. induction (String c D); cbn; congruence. }
  destruct (fmt_0d_nonneg dd Hd0) as [Dd Ld].
  assert (dd <= 99) as Hd by (apply Ld; rewrite E2; exact LD).
  (* the ranges *)
  clear E E1 E2 EY EM.
  unfold fmt.Sprintf_d_02d_02d, fmt.fmt_d in HP. rewrite Hb in HP.
  rewrite utoa_four_digits in HP by lia. cbn [append] in HP.
  pose proof (Parse_digits_gen y m dd ltac:(lia) ltac:(lia) ltac:(lia)) as HG.
  cbv zeta in HG. cbn [append] in HG. rewrite HG in HP.
  destruct (Z.leb_spec m 0); [discriminate|].
  destruct (Z.ltb_spec 12 m); [discriminate|]. cbn [orb] in HP.
  destruct (Z.ltb_spec dd 1); [discriminate|].
  destruct (Z.ltb_spec (time.daysIn m y) dd); [discriminate|].
  lia.
Qed.

(** Every failure of [Parse] is a parse error on the value. *)
Lemma Parse_Err_is_ParseError (v : string) (e : error) :
  time.Parse_2006_01_02 v = Err e -> exists msg, e = ParseError v msg.
Proof.
  assert (forall msg, Err (A := time.Time) (ParseError v msg) = Err e ->
                      exists msg, e = ParseError v msg) as HB.
  { intros msg H. injection H as <-. eexists. reflexivity. }
  unfold time.Parse_2006_01_02.
  destruct v as [|c0 [|c1 [|c2 [|c3 v1]]]]; try apply HB.
  destruct (negb (time.is_digit_char c0)); [apply HB|].
  destruct (time.atoi _) as [year|]; [|apply HB].
  destruct (time.skip_dash v1) as [v2|]; [|apply HB].
  destruct (time.getnum v2 true) as [[month v3]|]; [|apply HB].
  destruct ((month <=? 0) || (12 <? month)); [apply HB|].
  destruct (time.skip_dash v3) as [v4|]; [|apply HB].
  destruct (time.getnum v4 true) as [[day v5]|]; [|apply HB].
  destruct v5; [|apply HB].
  destruct ((day <? 1) || (time.daysIn month year <? day)); [apply HB|].
  discriminate.
Qed.

(** ** The day number of a date *)

Ltac month_cases m H :=
  let Hm := fresh "Hm" in
  assert (m = 1 \/ m = 2 \/ m = 3 \/ m = 4 \/ m = 5 \/ m = 6 \/ m = 7
          \/ m = 8 \/ m = 9 \/ m = 10 \/ m = 11 \/ m = 12) as Hm by lia;
  clear H;
  repeat (destruct Hm as [Hm | Hm]; [subst m|]); [..|subst m].

Lemma daysSinceEpoch_succ (y : Z) :
  time.daysSinceEpoch (y + 1)
  = time.daysSinceEpoch y + 365 + (if time.isLeap y then 1 else 0).
Proof.
  unfold time.daysSinceEpoch, time.isLeap.
  replace (y + 1 - 1) with y by lia.
  destruct (Z.eqb_spec (y mod 4) 0), (Z.eqb_spec (y mod 100) 0),
    (Z.eqb_spec (y mod 400) 0); cbn [negb andb orb]; lia.
Qed.

Lemma daysSinceEpoch_le (y1 y2 : Z) :
  y1 <= y2 -> time.daysSinceEpoch y1 <= time.daysSinceEpoch y2.
Proof.
  intros H. replace y2 with (y1 + Z.of_nat (Z.to_nat (y2 - y1))) by lia.
  induction (Z.to_nat (y2 - y1)) as [|n IH].
  - replace (y1 + Z.of_nat 0) with y1 by lia. lia.
  - replace (y1 + Z.of_nat (S n)) with (y1 + Z.of_nat n + 1) by lia.
    rewrite daysSinceEpoch_succ. destruct (time.isLeap _); lia.
Qed.

(** The day of the year of a calendar date lies within the year. *)
Lemma yday_bounds (y m d : Z) :
  1 <= m <= 12 -> 1 <= d <= time.daysIn m y ->
  0 <= time.daysOfDate y m d - time.daysSinceEpoch y
    < 365 + (if time.isLeap y then 1 else 0).
Proof.
  intros Hm Hd. unfold time.daysOfDate. revert Hd. unfold time.daysIn.
  month_cases m Hm; destruct (time.isLeap y); cbn; lia.
Qed.

Lemma daysOfDate_lt (d1 d2 : Date) :
  validDate d1 -> validDate d2 -> dateBefore d1 d2 ->
  time.daysOfDate (Year d1) (Month d1) (Day d1)
  < time.daysOfDate (Year d2) (Month d2) (Day d2).
Proof.
  destruct d1 as [y1 m1 dd1], d2 as [y2 m2 dd2].
  unfold validDate, dateBefore. cbn [Year Month Day].
  intros [Hm1 Hd1] [Hm2 Hd2] [Hy | [[-> Hm] | [-> [-> Hd]]]].
  - pose proof (yday_bounds y1 m1 dd1 Hm1 Hd1) as B1.
    pose proof (yday_bounds y2 m2 dd2 Hm2 Hd2) as B2.
    pose proof (daysSinceEpoch_succ y1) as S1.
    pose proof (daysSinceEpoch_le (y1 + 1) y2 ltac:(lia)) as L.
    lia.
  - unfold time.daysOfDate. revert Hd1 Hd2. unfold time.daysIn.
    month_cases m1 Hm1; month_cases m2 Hm2; try lia;
      destruct (time.isLeap y2); cbn; lia.
  - unfold time.daysOfDate. lia.
Qed.

(** Truncating an instant of a UTC date to 24 hours gives the midnight
    that starts the date. *)
Lemma Truncate_onUtcDate (t : time.Time) (today : Date) :
  onUtcDate t today ->
  time.abs (time.Truncate t (24 * time.Hour)) = time.abs (midnight today).
Proof.
  intros [_ H]. unfold time.Truncate. cbn [Z.leb Z.mul time.Hour time.Second
    time.Nanosecond Z.compare Pos.mul Pos.add Pos.compare Pos.compare_cont].
  revert H. unfold midnight, time.Date, time.Hour, time.Second,
    time.Nanosecond, time.secondsPerDay. cbn [time.abs].
  generalize (time.daysOfDate (Year today) (Month today) (Day today)).
  intros n H. cbn. lia.
Qed.

(** ** The date of a day number *)

Lemma absYearDay_spec (n : Z) :
  let '(year, yday) := time.absYearDay n in
  time.daysSinceEpoch year + yday = n
  /\ 0 <= yday < 365 + (if time.isLeap year then 1 else 0).
Proof.
  unfold time.absYearDay. rewrite !Z.shiftr_div_pow2 by lia.
  change (2 ^ 2) with 4.
  set (a := n / 146097).
  set (d1 := n - 146097 * a).
  set (b := d1 / 36524 - d1 / 36524 / 4).
  set (d2 := d1 - 36524 * b).
  set (c := d2 / 1461).
  set (d3 := d2 - 1461 * c).
  set (e := d3 / 365 - d3 / 365 / 4).
  set (d4 := d3 - 365 * e).
  assert (0 <= d1 < 146097) as B1 by (subst d1 a; lia).
  assert (0 <= b <= 3) as Bb by (subst b; lia).
  assert (0 <= d2 <= 36524 /\ (b < 3 -> d2 < 36524)) as B2 by (subst d2 b; lia).
  assert (0 <= c <= 24) as Bc by (subst c; lia).
  assert (0 <= d3 <= 1460 /\ (c = 24 -> b < 3 -> d3 < 1460)) as B3
    by (subst d3 c; lia).
  assert (0 <= e <= 3) as Be by (subst e; lia).
  assert (0 <= d4 <= 365 /\ (e < 3 -> d4 < 365)
          /\ (c = 24 -> b < 3 -> d4 < 365)) as B4 by (subst d4 e; lia).
  assert (n = 146097 * a + 36524 * b + 1461 * c + 365 * e + d4) as Hn
    by (subst d4 d3 d2 d1; lia).
  clearbody a b c e d4. clear d1 d2 d3 B1 B2 B3.
  unfold time.daysSinceEpoch, time.isLeap.
  replace (400 * a + 100 * b + 4 * c + e + 1 - 1)
    with (400 * a + 100 * b + 4 * c + e) by lia.
  split.
  - lia.
  - destruct (Z.eqb_spec ((400 * a + 100 * b + 4 * c + e + 1) mod 4) 0),
      (Z.eqb_spec ((400 * a + 100 * b + 4 * c + e + 1) mod 100) 0),
      (Z.eqb_spec ((400 * a + 100 * b + 4 * c + e + 1) mod 400) 0);
      cbn [negb andb orb]; lia.
Qed.

(** Evaluate the table lookups and comparisons on constants. *)
Ltac norm_closed :=
  repeat match goal with
    | |- context [time.daysBefore ?x] =>
        let v := eval cbv in (time.daysBefore x) in
        progress change (time.daysBefore x) with v
    | |- context [Z.eqb ?x ?y] =>
        let v := eval cbv in (Z.eqb x y) in
        match v with true => idtac | false => idtac end;
        change (Z.eqb x y) with v
    | |- context [Z.leb ?x ?y] =>
        let v := eval cbv in (Z.leb x y) in
        match v with true => idtac | false => idtac end;
        change (Z.leb x y) with v
    end;
  cbn [andb orb negb].

Lemma absMonthDay_spec (leap : bool) (yday : Z) :
  0 <= yday < 365 + (if leap then 1 else 0) ->
  let '(m, d) := time.absMonthDay leap yday in
  1 <= m <= 12
  /\ 1 <= d <= (if (m =? 2) && leap then 29
                else time.daysBefore m - time.daysBefore (m - 1))
  /\ time.daysBefore (m - 1) + (if leap && (3 <=? m) then 1 else 0) + (d - 1)
     = yday.
Proof.
  intros H. unfold time.absMonthDay.
  destruct (Z.ltb_spec (31 + 29 - 1) yday) as [Hlt|Hge];
    destruct (Z.eqb_spec yday (31 + 29 - 1)) as [Heq|Hne];
    destruct leap; cbn [andb]; try (cbn; lia).
  all: match goal with
       | |- context [Z.div ?day 31] =>
           let k := fresh "k" in
           let Hk := fresh "Hk" in
           assert (exists k, k = day / 31 /\ 0 <= k <= 11) as [k [Hk Bk]]
             by (eexists; split; [reflexivity | lia]);
           rewrite <- Hk;
           assert (k = 0 \/ k = 1 \/ k = 2 \/ k = 3 \/ k = 4 \/ k = 5
                   \/ k = 6 \/ k = 7 \/ k = 8 \/ k = 9 \/ k = 10 \/ k = 11)
             as Hc by lia;
           clear Bk;
           repeat (destruct Hc as [-> | Hc]); [..|rewrite Hc in *]
       end.
  all: norm_closed;
    match goal with
    | |- context [Z.leb ?a ?b] => destruct (Z.leb_spec a b)
    end; norm_closed; lia.
Qed.

(** [absDate] gives a calendar date, and the one of the day number. *)
Lemma absDate_spec (n : Z) :
  let '(y, m, d) := time.absDate n in
  validDate (mkDate y m d) /\ time.daysOfDate y m d = n.
Proof.
  unfold time.absDate.
  pose proof (absYearDay_spec n) as HY.
  destruct (time.absYearDay n) as [year yday]. destruct HY as [HY HB].
  pose proof (absMonthDay_spec (time.isLeap year) yday HB) as HM.
  destruct (time.absMonthDay (time.isLeap year) yday) as [m d].
  destruct HM as [Hm [Hd Hy]].
  unfold validDate, time.daysOfDate, time.daysIn. cbn [Year Month Day].
  repeat split; try lia.
Qed.

Lemma dateBefore_trichotomy (d1 d2 : Date) :
  dateBefore d1 d2 \/ d1 = d2 \/ dateBefore d2 d1.
Proof.
  destruct d1 as [y1 m1 a1], d2 as [y2 m2 a2]. unfold dateBefore.
  cbn [Year Month Day].
  destruct (Z.lt_trichotomy y1 y2) as [?|[->|?]]; [lia| |lia].
  destruct (Z.lt_trichotomy m1 m2) as [?|[->|?]]; [lia| |lia].
  destruct (Z.lt_trichotomy a1 a2) as [?|[->|?]]; [lia| |lia].
  right; left; reflexivity.
Qed.

Lemma absDate_daysOfDate (d : Date) :
  validDate d ->
  time.absDate (time.daysOfDate (Year d) (Month d) (Day d))
  = (Year d, Month d, Day d).
Proof.
  intros Hd.
  pose proof (absDate_spec (time.daysOfDate (Year d) (Month d) (Day d))) as H.
  destruct (time.absDate _) as [[y m] a]. destruct H as [Hv He].
  destruct (dateBefore_trichotomy (mkDate y m a) d) as [Hlt|[Heq|Hgt]].
  - pose proof (daysOfDate_lt _ _ Hv Hd Hlt) as L. cbn [Year Month Day] in L. lia.
  - subst d. reflexivity.
  - pose proof (daysOfDate_lt _ _ Hd Hv Hgt) as L. cbn [Year Month Day] in L. lia.
Qed.

(** ** Parsing what Format printed *)

Lemma appendInt_two_digits (k : Z) :
  0 <= k -> time.appendInt k 2 = fmt.fmt_0d 2 k.
Proof.
  intros H. unfold time.appendInt, fmt.fmt_0d.
  assert ((k <? 0) = false) as -> by (apply Z.ltb_ge; lia). reflexivity.
Qed.

Lemma appendInt_four_digits (y : Z) :
  0 <= y <= 9999 ->
  time.appendInt y 4 =
  String (fmt.digit_char (y / 1000))
    (String (fmt.digit_char (y / 100 mod 10))
       (String (fmt.digit_char (y / 10 mod 10))
          (String (fmt.digit_char (y mod 10)) EmptyString))).
Proof.
  intros H. unfold time.appendInt.
  assert ((y <? 0) = false) as -> by (apply Z.ltb_ge; lia).
  rewrite Z.abs_eq by lia.
  destruct (Z_le_gt_dec 1000 y) as [H4|H4].
  { rewrite utoa_four_digits by lia. reflexivity. }
  unfold fmt.utoa. rewrite utoa_fuel_S.
  replace (y / 1000) with 0 by lia.
  destruct (Z.eqb_spec (y / 10) 0) as [E1|E1].
  { replace (y / 100 mod 10) with 0 by lia.
    replace (y / 10 mod 10) with 0 by lia. reflexivity. }
  rewrite utoa_fuel_S.
  destruct (Z.eqb_spec (y / 10 / 10) 0) as [E2|E2].
  { replace (y / 100 mod 10) with 0 by lia. reflexivity. }
  rewrite utoa_fuel_S.
  assert ((y / 10 / 10 / 10 =? 0) = true) as -> by (apply Z.eqb_eq; lia).
  replace (y / 10 / 10 mod 10) with (y / 100 mod 10) by lia.
  reflexivity.
Qed.

(** An instant whose wall clock shows a date of the years 0 to 9999 is
    printed by [Format] and parsed back to the midnight of that date in
    UTC. *)
Lemma Parse_Format (t : time.Time) (today : Date) :
  onLocalDate t today -> 0 <= Year today <= 9999 ->
  time.Parse_2006_01_02 (time.Format_2006_01_02 t) = Ok (midnight today).
Proof.
  intros [Hv Hin] Hy. unfold time.Format_2006_01_02.
  assert ((time.abs t / time.Second + time.offset t) / time.secondsPerDay
          = time.daysOfDate (Year today) (Month today) (Day today)) as ->.
  { revert Hin. unfold midnight, time.Date, time.Hour, time.Second,
      time.Nanosecond, time.secondsPerDay. cbn [time.abs].
    generalize (time.daysOfDate (Year today) (Month today) (Day today)).
    intros n Hin. lia. }
  rewrite absDate_daysOfDate by exact Hv.
  destruct Hv as [Hm Hd].
  rewrite appendInt_four_digits by lia.
  rewrite !appendInt_two_digits by lia.
  cbn [append]. apply Parse_digits; lia.
Qed.

(** ** The visibility filter *)

Lemma scanSubmissions_no_error (wr : list StudentSubmission) :
  snd (scanSubmissions wr) = None.
Proof.
  induction wr as [|s wr IH]; cbn; [reflexivity|].
  destruct (String.eqb (State s) "TURNED_IN"); [reflexivity | exact IH].
Qed.

Lemma scanSubmissions_true (wr : list StudentSubmission) :
  fst (scanSubmissions wr) = true <-> ~ turnedIn wr.
Proof.
  unfold turnedIn. induction wr as [|s wr IH]; cbn.
  - split; [intros _ [s [[] _]] | reflexivity].
  - destruct (String.eqb_spec (State s) "TURNED_IN") as [E|E]; cbn.
    + split; [discriminate|]. intros H. exfalso. apply H. exists s. auto.
    + rewrite IH. split; intros H [s' [Hin Hs']].
      * destruct Hin as [<-|Hin]; [contradiction|]. apply H. exists s'. auto.
      * apply H. exists s'. auto.
Qed.

Lemma turnedIn_dec (wr : list StudentSubmission) :
  turnedIn wr \/ ~ turnedIn wr.
Proof.
  unfold turnedIn. induction wr as [|s wr IH].
  - right. intros [s [[] _]].
  - destruct (String.eqb_spec (State s) "TURNED_IN") as [Es|Es].
    + left. exists s. split; [left; reflexivity | exact Es].
    + destruct IH as [[s' [Hin Hs']]|Hn].
      * left. exists s'. split; [right; exact Hin | exact Hs'].
      * right. intros [s' [[<-|Hin] Hs']]; [contradiction|].
        apply Hn. exists s'. auto.
Qed.

(** The date string of an assignment parses to the midnight of its
    effective due date. *)
Lemma Parse_dateString (now1 : time.Time) (c : CourseWork) (e : Date) :
  effectiveDueDate now1 c e -> fourDigitYear e -> validDate e ->
  time.Parse_2006_01_02 (dateString now1 c) = Ok (midnight e).
Proof.
  unfold effectiveDueDate, dateString. intros He Hy Hv.
  destruct (DueDate c) as [d|].
  - subst e. apply Parse_Sprintf; assumption.
  - apply Parse_Format; [exact He | unfold fourDigitYear in Hy; lia].
Qed.

(** The test of step 4 on midnights is the order of the calendar. *)
Lemma Before_midnight (e today : Date) (now2 : time.Time) :
  validDate e -> onUtcDate now2 today ->
  time.Before (midnight e) (time.Truncate now2 (24 * time.Hour)) = true
  <-> dateBefore e today.
Proof.
  intros Hv Hu. pose proof (Truncate_onUtcDate _ _ Hu) as HT.
  destruct Hu as [Hvt _].
  unfold time.Before. rewrite HT, Z.ltb_lt.
  unfold midnight, time.Date, time.secondsPerDay, time.Second,
    time.Nanosecond. cbn [time.abs].
  split; intros H.
  - destruct (dateBefore_trichotomy e today) as [Hlt|[Heq|Hgt]];
      [exact Hlt | subst; lia |].
    pose proof (daysOfDate_lt _ _ Hvt Hv Hgt). lia.
  - pose proof (daysOfDate_lt _ _ Hv Hvt H). lia.
Qed.

(** The filter once the date string has parsed to the midnight of a
    calendar date: the test of step 4, then the lookup. *)
Lemma isCourseworkVisible_parsed (srv : Service) (now1 now2 : time.Time)
    (c : CourseWork) (e : Date) :
  time.Parse_2006_01_02 (dateString now1 c) = Ok (midnight e) ->
  isCourseworkVisible srv now1 now2 c =
  if time.Before (midnight e) (time.Truncate now2 (24 * time.Hour))
  then ((false, None), [])
  else
    (match StudentSubmissions_List srv (CourseId c) (Id c) with
     | Err err => (false, Some err)
     | Ok wr => scanSubmissions wr
     end, [StudentSubmissionsListCall (CourseId c) (Id c)]).
Proof.
  intros HP. unfold isCourseworkVisible. rewrite HP.
  destruct (time.Before _ _); [reflexivity|].
  destruct (StudentSubmissions_List srv (CourseId c) (Id c)); reflexivity.
Qed.

(** An assignment whose due date is a calendar date strictly before the
    UTC date of the clock reading that the filter truncates is not visible:
    the filter returns [false] with no error, whatever the submission
    records are, and makes no remote read. *)
Lemma overdue_is_not_visible (srv : Service) (now1 now2 : time.Time)
    (c : CourseWork) (d today : Date) :
  DueDate c = Some d -> fourDigitYear d -> validDate d ->
  onUtcDate now2 today -> dateBefore d today ->
  isCourseworkVisible srv now1 now2 c = ((false, None), []).
Proof.
  intros Hd Hy Hv Hu Hlt.
  rewrite (isCourseworkVisible_parsed srv now1 now2 c d).
  - destruct (Before_midnight d today now2 Hv Hu) as [_ HB].
    rewrite (HB Hlt). reflexivity.
  - apply Parse_dateString; [|assumption..].
    unfold effectiveDueDate. rewrite Hd. reflexivity.
Qed.

(** Closed goals about dates and runs are settled by evaluation. *)
Ltac decide_closed :=
  vm_compute;
  repeat match goal with
    | |- _ /\ _ => split
    | |- _ -> _ => intro
    | H : _ \/ _ |- _ => destruct H
    | H : _ /\ _ |- _ => destruct H
    | H : False |- _ => destruct H
    | H : ?a = ?a -> False |- _ => exfalso; apply H; reflexivity
    | H : _ = _ |- _ => discriminate H
    | |- _ = _ => reflexivity
    | |- _ \/ _ => (left; solve [decide_closed]) || (right; solve [decide_closed])
    end.


Lemma overdue_is_not_visible_witness :
  isCourseworkVisible Example.srv Example.noon Example.noon Example.A1
  = ((false, None), []).
Proof.
  apply (overdue_is_not_visible Example.srv Example.noon Example.noon
           Example.A1 (mkDate 2024 10 30) (mkDate 2024 10 31)); decide_closed.
Defined.

(** C1, on the code.  The date of the wall clock can be a day ahead of the
    UTC date.  At 2024-10-30 23:00 UTC a process nine hours east of UTC
    shows 08:00 on 2024-10-31.  An assignment due on 2024-10-30 is due
    strictly before the date of that wall clock, the date the filter itself
    takes as today for an assignment without a due date; yet the truncated
    clock is 2024-10-30 00:00 UTC, the date test lets the assignment
    through, the submissions are read, and the filter returns [true]. *)
Theorem overdue_visible_east_of_utc :
  let now := Example.inZone 9 (Example.utc 2024 10 30 23) in
  onLocalDate now (mkDate 2024 10 31)
  /\ onUtcDate now (mkDate 2024 10 30)
  /\ DueDate Example.A1 = Some (mkDate 2024 10 30)
  /\ dateBefore (mkDate 2024 10 30) (mkDate 2024 10 31)
  /\ time.abs (time.Truncate now (24 * time.Hour))
     = time.abs (Example.utc 2024 10 30 0)
  /\ isCourseworkVisible Example.srv now now Example.A1
     = ((true, None), [StudentSubmissionsListCall "C1" "A1"]).
Proof.
  cbv zeta.
  split; [decide_closed|]. split; [decide_closed|]. split; [reflexivity|].
  split; [unfold dateBefore; cbn; lia|].
  split; vm_compute; reflexivity.
Qed.

(** With no due date the date test compares the local date of the
    first clock reading with the UTC date of the second.  When the local
    date is not behind the UTC date the assignment passes the test and the
    result is that of the submission records. *)
Lemma dateless_passes_date_check (srv : Service) (now1 now2 : time.Time)
    (c : CourseWork) (l u : Date) :
  DueDate c = None -> onLocalDate now1 l -> fourDigitYear l ->
  onUtcDate now2 u -> ~ dateBefore l u ->
  isCourseworkVisible srv now1 now2 c =
  (match StudentSubmissions_List srv (CourseId c) (Id c) with
   | Err err => (false, Some err)
   | Ok wr => scanSubmissions wr
   end, [StudentSubmissionsListCall (CourseId c) (Id c)]).
Proof.
  intros Hd Hl Hy Hu Hn.
  assert (validDate l) as Hv by (destruct Hl; assumption).
  rewrite (isCourseworkVisible_parsed srv now1 now2 c l).
  - destruct (time.Before _ _) eqn:HB; [|reflexivity].
    exfalso. apply Hn. apply (Before_midnight l u now2 Hv Hu). exact HB.
  - apply Parse_dateString; [|assumption..].
    unfold effectiveDueDate. rewrite Hd. exact Hl.
Qed.

(** C2, on the code.  An assignment without a due date, checked at
    2024-10-31 01:00 UTC by a process five hours west of UTC (20:00 on
    2024-10-30 on its wall clock): the date string is the local date
    2024-10-30, the truncated clock is 2024-10-31 00:00 UTC, and the filter
    returns [false] at step 4 without looking at the submissions. *)
Theorem dateless_excluded_west_of_utc :
  let now := Example.inZone (-5) (Example.utc 2024 10 31 1) in
  DueDate Example.A4 = None
  /\ onLocalDate now (mkDate 2024 10 30)
  /\ onUtcDate now (mkDate 2024 10 31)
  /\ dateString now Example.A4 = "2024-10-30"%string
  /\ isCourseworkVisible Example.srv now now Example.A4 = ((false, None), []).
Proof. decide_closed. Qed.

(** An assignment whose effective due date is not before the UTC date of
    the truncated clock and whose submission records are read without
    error is visible exactly when no record is in the state "turned in";
    in both cases there is no error. *)
Lemma due_today_or_later_visible_iff_not_turned_in (srv : Service)
    (now1 now2 : time.Time) (c : CourseWork) (e today : Date)
    (wr : list StudentSubmission) :
  effectiveDueDate now1 c e -> fourDigitYear e -> validDate e ->
  onUtcDate now2 today -> ~ dateBefore e today ->
  StudentSubmissions_List srv (CourseId c) (Id c) = Ok wr ->
  exists isVisible : bool,
    fst (isCourseworkVisible srv now1 now2 c) = (isVisible, None)
    /\ (isVisible = true <-> ~ turnedIn wr)
    /\ (isVisible = false <-> turnedIn wr).
Proof.
  intros He Hy Hv Hu Hn Hwr.
  rewrite (isCourseworkVisible_parsed srv now1 now2 c e)
    by (apply Parse_dateString; assumption).
  destruct (time.Before _ _) eqn:HB.
  { exfalso. apply Hn. apply (Before_midnight e today now2 Hv Hu). exact HB. }
  rewrite Hwr. cbn [fst].
  exists (fst (scanSubmissions wr)).
  pose proof (scanSubmissions_no_error wr) as Hnone.
  pose proof (scanSubmissions_true wr) as Ht.
  destruct (scanSubmissions wr) as [v err]. cbn [fst snd] in *. subst err.
  split; [reflexivity|]. split; [exact Ht|].
  destruct v.
  - split; [discriminate|]. intros Hti. exfalso.
    destruct Ht as [Ht _]. exact (Ht eq_refl Hti).
  - split; [|reflexivity]. intros _.
    destruct (turnedIn_dec wr) as [Hti|Hti]; [exact Hti|].
    destruct Ht as [_ Ht]. discriminate (Ht Hti).
Qed.

Lemma due_today_or_later_visible_iff_not_turned_in_witness :
  exists isVisible : bool,
    fst (isCourseworkVisible Example.srv Example.noon Example.noon Example.A3)
    = (isVisible, None)
    /\ (isVisible = true
        <-> ~ turnedIn [mkStudentSubmission "CREATED";
                        mkStudentSubmission "TURNED_IN"])
    /\ (isVisible = false
        <-> turnedIn [mkStudentSubmission "CREATED";
                      mkStudentSubmission "TURNED_IN"]).
Proof.
  apply (due_today_or_later_visible_iff_not_turned_in Example.srv
           Example.noon Example.noon Example.A3
           (mkDate 2024 10 31) (mkDate 2024 10 31)); decide_closed.
Defined.

(** C3, on the code.  At 2024-10-31 01:00 UTC a process five hours west of
    UTC shows 20:00 on 2024-10-30.  The assignment A1, due on 2024-10-30,
    and the assignment A4, without a due date, both have that day as their
    effective due date: they are due today.  The submission records of both
    are read without error and none is turned in.  Yet the truncated clock
    is 2024-10-31 00:00 UTC, and the filter returns [false] for both at the
    date test, without reading the records. *)
Theorem due_today_not_visible_west_of_utc :
  let now := Example.inZone (-5) (Example.utc 2024 10 31 1) in
  let created := [mkStudentSubmission "CREATED"] in
  onLocalDate now (mkDate 2024 10 30)
  /\ effectiveDueDate now Example.A1 (mkDate 2024 10 30)
  /\ effectiveDueDate now Example.A4 (mkDate 2024 10 30)
  /\ ~ dateBefore (mkDate 2024 10 30) (mkDate 2024 10 30)
  /\ StudentSubmissions_List Example.srv "C1" "A1" = Ok created
  /\ StudentSubmissions_List Example.srv "C1" "A4" = Ok created
  /\ ~ turnedIn created
  /\ time.abs (time.Truncate now (24 * time.Hour))
     = time.abs (Example.utc 2024 10 31 0)
  /\ isCourseworkVisible Example.srv now now Example.A1 = ((false, None), [])
  /\ isCourseworkVisible Example.srv now now Example.A4 = ((false, None), []).
Proof.
  cbv zeta.
  split; [decide_closed|]. split; [decide_closed|]. split; [decide_closed|].
  split; [unfold dateBefore; cbn; lia|].
  split; [reflexivity|]. split; [reflexivity|].
  split; [intros [x [[<-|[]] Hx]]; discriminate Hx|].
  split; [vm_compute; reflexivity|].
  split; vm_compute; reflexivity.
Qed.

(** C9. When the filter returns an error its boolean is [false]: a
    verdict [true] always comes with a nil error. *)
Theorem error_implies_not_visible (srv : Service) (now1 now2 : time.Time)
    (c : CourseWork) :
  snd (fst (isCourseworkVisible srv now1 now2 c)) <> None ->
  fst (fst (isCourseworkVisible srv now1 now2 c)) = false.
Proof.
  unfold isCourseworkVisible.
  destruct (time.Parse_2006_01_02 _) as [parsedDate|err]; [|reflexivity].
  destruct (time.Before _ _); [reflexivity|].
  destruct (StudentSubmissions_List srv (CourseId c) (Id c)) as [wr|err];
    [|reflexivity].
  cbn [fst snd]. rewrite scanSubmissions_no_error. intros H. contradiction.
Qed.

Lemma error_implies_not_visible_witness :
  snd (fst (isCourseworkVisible Example.srv Example.noon Example.noon Example.A6))
  = Some (RemoteError "transport")
  /\ fst (fst (isCourseworkVisible Example.srv Example.noon Example.noon Example.A6))
     = false.
Proof.
  split; [reflexivity|].
  apply (error_implies_not_visible Example.srv Example.noon Example.noon
           Example.A6).
  vm_compute. discriminate.
Defined.

(** ** The process *)

Lemma upd_middle {A : Type} (l1 : list A) (x y : A) (l2 : list A) :
  upd (List.length l1) y (l1 ++ x :: l2) = l1 ++ y :: l2.
Proof. induction l1 as [|h t IH]; cbn; [reflexivity | rewrite IH; reflexivity]. Qed.

Lemma nth_error_middle {A : Type} (l1 : list A) (x : A) (l2 : list A) :
  nth_error (l1 ++ x :: l2) (List.length l1) = Some x.
Proof. induction l1 as [|h t IH]; cbn; [reflexivity | exact IH]. Qed.

Lemma nth_error_upd_split {A : Type} (l : list A) (i : nat) (x : A) :
  nth_error l i = Some x ->
  exists l1 l2, l = l1 ++ x :: l2 /\ List.length l1 = i
                /\ forall y, upd i y l = l1 ++ y :: l2.
Proof.
  revert i. induction l as [|h t IH]; intros [|i] H; cbn in H; try discriminate.
  - injection H as ->. exists [], t. repeat split.
  - destruct (IH i H) as [l1 [l2 [E [L U]]]].
    exists (h :: l1), l2. cbn. rewrite <- E, L. repeat split.
    intros y. rewrite U. reflexivity.
Qed.

Lemma sum_of_app {A : Type} (f : A -> nat) (l1 l2 : list A) :
  sum_of f (l1 ++ l2) = (sum_of f l1 + sum_of f l2)%nat.
Proof. induction l1 as [|h t IH]; cbn; [reflexivity | rewrite IH; lia]. Qed.

Section ProcessProofs.

Variable srv : Service.
Variable clock : CourseWork -> time.Time * time.Time.

(** Every step of the process is one of the rules. *)
Lemma step_Step (a : action) (s s' : state) :
  step srv clock a s = Some s' -> Step srv clock s s'.
Proof.
  destruct s as [m w k cl n ls o e]. unfold step. cbn [exit_code].
  destruct e as [code|]; [discriminate|].
  destruct a as [| |i|i j].
  - unfold _main. cbn [main wg closer closed closes listers out exit_code].
    destruct m as [[|id ids]| |c|].
    + destruct k; try discriminate. intros H; injection H as <-. constructor.
    + intros H; injection H as <-. constructor.
    + destruct cl; [|discriminate]. intros H; injection H as <-.
      cbn. constructor.
    + intros H; injection H as <-. constructor.
    + discriminate.
  - unfold closer_step. cbn [main wg closer closed closes listers out exit_code].
    destruct k; try discriminate.
    destruct w; [|discriminate]. destruct cl; [discriminate|].
    cbn. intros H; injection H as <-. constructor.
  - unfold listCourseWorkFromCourseId. cbn [main wg closer closed closes listers out exit_code].
    destruct (nth_error ls i) as [l|] eqn:El; [|discriminate].
    destruct (nth_error_upd_split _ _ _ El) as [ls1 [ls2 [-> [_ U]]]].
    unfold set_lister, set_wg, set_exit.
    cbn [main wg closer closed closes listers out exit_code].
    destruct l as [id p g ws]. cbn [course pc wg2 workers].
    destruct p as [|[|c todo]| | |].
    + destruct (CourseWork_List srv id) as [r|err] eqn:Er.
      * destruct r as [|c r].
        -- cbn. intros H; injection H as <-. rewrite U.
           constructor. exact Er.
        -- cbn. intros H; injection H as <-. rewrite U.
           constructor; [exact Er | discriminate].
      * intros H; injection H as <-. econstructor. exact Er.
    + intros H; injection H as <-. rewrite U. constructor.
    + intros H; injection H as <-. rewrite U. constructor.
    + destruct g; [|discriminate]. cbn.
      intros H; injection H as <-. rewrite U. constructor.
    + destruct w; [discriminate|].
      intros H; injection H as <-. rewrite U. constructor.
    + discriminate.
  - unfold worker_step. cbn [main wg closer closed closes listers out exit_code].
    destruct (nth_error ls i) as [l|] eqn:El; [|discriminate].
    destruct (nth_error_upd_split _ _ _ El) as [ls1 [ls2 [-> [_ U]]]].
    destruct l as [id p g ws]. cbn [course pc wg2 workers].
    destruct (nth_error ws j) as [wk|] eqn:Ew; [|discriminate].
    destruct (nth_error_upd_split _ _ _ Ew) as [ws1 [ws2 [-> [_ V]]]].
    unfold set_lister, set_main.
    cbn [main wg closer closed closes listers out exit_code].
    destruct wk as [c|c| |].
    + intros H; injection H as <-. rewrite U, V. constructor.
    + destruct m; try discriminate. destruct cl; [discriminate|].
      intros H; injection H as <-. rewrite U, V. constructor.
    + destruct g; [discriminate|].
      intros H; injection H as <-. rewrite U, V. constructor.
    + discriminate.
Qed.

(** *** The invariant *)

Ltac fields :=
  cbn [main wg closer closed closes listers out exit_code
       course pc wg2 workers] in *.

Lemma due_of_lister_mk (x : string) id p g ws :
  due_of_lister srv clock x (mkLister id p g ws)
  = (match p with
     | LList => due_of_course srv clock x id
     | LLoop todo => sum_of (due_of_item srv clock x) todo
     | LWait | LExit | LDone => 0
     end + sum_of (due_of_worker srv clock x) ws)%nat.
Proof. reflexivity. Qed.

Lemma mu_lister_mk id p g ws :
  mu_lister srv (mkLister id p g ws)
  = (match p with
     | LList => mu_list srv id
     | LLoop todo => 3 + 6 * List.length todo
     | LWait => 2
     | LExit => 1
     | LDone => 0
     end + sum_of mu_worker ws)%nat.
Proof. reflexivity. Qed.

Lemma live_lister_mk id p g ws :
  live_lister (mkLister id p g ws) = match p with LDone => 0 | _ => 1 end%nat.
Proof. reflexivity. Qed.

Ltac sums :=
  rewrite ?sum_of_app in *;
  cbn [sum_of] in *;
  rewrite ?due_of_lister_mk, ?mu_lister_mk, ?live_lister_mk in *;
  rewrite ?sum_of_app in *;
  cbn [sum_of live_worker due_of_worker due_of_main mu_worker mu_main
       mu_closer List.length] in *.

Ltac break_hyps :=
  repeat match goal with
    | H : _ /\ _ |- _ => destruct H
    | H : exists _, _ |- _ => destruct H
    | H : forall rest, MSpawn ?i <> MSpawn rest |- _ =>
        exfalso; exact (H _ eq_refl)
    | H : Some _ = None |- _ => discriminate H
    | H : None = Some _ |- _ => discriminate H
    | H : Some ?a = Some ?b |- _ => first [discriminate H | injection H as H]
    | H : _ ++ _ :: _ = [] |- _ => destruct (app_cons_not_nil _ _ _ (eq_sym H))
    | H : worker_ok _ _ _ |- _ => unfold worker_ok in H
    end.

Ltac finish_core :=
  break_hyps;
  repeat match goal with
    | |- _ /\ _ => split
    | |- Forall _ [] => constructor
    | |- worker_ok _ _ _ => unfold worker_ok
    | |- forall rest, _ <> MSpawn rest => intros ? ?
    end;
  eauto; try discriminate; try congruence; try lia.

Ltac finish :=
  finish_core; try solve [left; finish_core | right; finish_core].

Lemma due_of_course_eq (x : string) (id : string) :
  due_of_course srv clock x id
  = match CourseWork_List srv id with
    | Ok r => sum_of (due_of_item srv clock x) r
    | Err _ => 0%nat
    end.
Proof. reflexivity. Qed.

Ltac due :=
  repeat match goal with
    | H : CourseWork_List srv ?id = _,
      Hd : context [due_of_course srv clock ?x ?id] |- _ =>
        rewrite (due_of_course_eq x id), H in Hd
    end;
  rewrite ?count_occ_app; cbn [count_occ sum_of] in *;
  unfold is_line, due_of_item in *;
  repeat match goal with
    | E : visibleNow srv clock ?c = _ |- _ => rewrite E in *
    | |- context [string_dec ?a ?b] => destruct (string_dec a b)
    | H : context [string_dec ?a ?b] |- _ => destruct (string_dec a b)
    end;
  cbn [due_of_worker] in *; unfold is_line in *;
  repeat match goal with
    | |- context [string_dec ?a ?b] => destruct (string_dec a b)
    | H : context [string_dec ?a ?b] |- _ => destruct (string_dec a b)
    end;
  try congruence; try lia.

Lemma Inv_init (ids : list string) : Inv srv clock ids (init ids).
Proof.
  unfold init. constructor; fields; cbn [sum_of]; auto.
  all: try (split; [eexists; reflexivity | reflexivity]).
  all: try discriminate.
  all: try (intros x; cbn; lia).
Qed.

Lemma Inv_Step (ids : list string) (s s' : state) :
  Step srv clock s s' -> Inv srv clock ids s -> Inv srv clock ids s'.
Proof.
  intros HS [Hwg Hls Hk Hn Hm He Hc Hd].
  destruct HS; fields; constructor; fields;
    rewrite ?Forall_app, ?Forall_cons_iff in *; unfold lister_ok in *; fields;
    rewrite ?Forall_app, ?Forall_cons_iff in *.
  all: try (intros x; specialize (Hd x)).
  all: sums.
  all: try solve [finish].
  all: try solve [destruct k; finish].
  all: try solve [destruct m; finish].
  all: try solve [due].
  all: try solve [destruct (visibleNow srv clock c) eqn:Ev; try solve [due];
                  destruct p; finish].
  all: try solve [destruct p; finish].
  all: try solve [break_hyps; subst; cbn [sum_of] in *; finish].
  all: try solve [rewrite <- Hc, ?map_app; cbn [map course unspawned];
    rewrite ?map_app, <- ?app_assoc, ?app_nil_r; reflexivity].
  all: break_hyps; repeat split; eauto; try lia;
    eexists; split; [eassumption | intros; congruence].
Qed.

Lemma Inv_run (ids : list string) (sched : list action) (s s' : state) :
  Inv srv clock ids s -> run srv clock sched s = Some s' ->
  Inv srv clock ids s'.
Proof.
  revert s. induction sched as [|a rest IH]; intros s HI HR; cbn in HR.
  - injection HR as <-. exact HI.
  - destruct (step srv clock a s) as [s1|] eqn:E; [|discriminate].
    apply (IH s1); [|exact HR].
    apply (Inv_Step ids s s1); [apply (step_Step a); exact E | exact HI].
Qed.

Lemma Inv_reachable (ids : list string) (s : state) :
  reachable srv clock ids s -> Inv srv clock ids s.
Proof.
  intros [sched HR]. apply (Inv_run ids sched (init ids)); [apply Inv_init | exact HR].
Qed.

Lemma reachable_step (ids : list string) (a : action) (s s' : state) :
  reachable srv clock ids s -> step srv clock a s = Some s' ->
  reachable srv clock ids s'.
Proof.
  intros [sched HR] HS. exists (sched ++ [a]).
  revert HR. generalize (init ids). induction sched as [|b rest IH]; intros s0 HR; cbn in *.
  - injection HR as ->. rewrite HS. reflexivity.
  - destruct (step srv clock b s0) as [s1|]; [|discriminate]. apply IH. exact HR.
Qed.

(** *** Every step lowers the measure *)

Lemma mu_list_eq (id : string) :
  mu_list srv id
  = match CourseWork_List srv id with
    | Ok r => 4 + 6 * List.length r
    | Err _ => 4
    end%nat.
Proof. reflexivity. Qed.

Lemma Step_measure (s s' : state) :
  Step srv clock s s' -> (measure srv s' < measure srv s)%nat.
Proof.
  intros HS. destruct HS; unfold measure; fields; sums;
    repeat match goal with
      | H : CourseWork_List srv ?id = _ |- _ =>
          rewrite (mu_list_eq id), H; clear H
      end;
    cbn [List.length]; try lia.
  destruct (visibleNow srv clock c); cbn [mu_worker]; lia.
Qed.

(** *** A process that has not exited can take a step *)

Lemma sum_of_pos {A : Type} (f : A -> nat) (l : list A) :
  (0 < sum_of f l)%nat ->
  exists l1 x l2, l = l1 ++ x :: l2 /\ (0 < f x)%nat.
Proof.
  induction l as [|h t IH]; cbn; [lia|]. intros H.
  destruct (f h) as [|n] eqn:E.
  - destruct IH as [l1 [x [l2 [-> Hx]]]]; [lia|].
    exists (h :: l1), x, l2. split; [reflexivity | exact Hx].
  - exists [], h, t. split; [reflexivity | lia].
Qed.

Lemma listCourseWorkFromCourseId_enabled m w k cl n ls1 id p g ws ls2 o e :
  (p = LWait -> g = 0%nat) -> (p = LExit -> w <> 0%nat) -> p <> LDone ->
  exists s', listCourseWorkFromCourseId srv (List.length ls1)
               (mkState m w k cl n (ls1 ++ mkLister id p g ws :: ls2) o e)
             = Some s'.
Proof.
  intros HW HE HD. unfold listCourseWorkFromCourseId. fields.
  rewrite nth_error_middle. fields.
  destruct p as [|[|c todo]| | |]; try (eexists; reflexivity).
  - destruct (CourseWork_List srv id) as [r|err]; [|eexists; reflexivity].
    destruct (Z.of_nat (List.length r) <=? 0); eexists; reflexivity.
  - rewrite (HW eq_refl). eexists; reflexivity.
  - destruct w; [destruct (HE eq_refl eq_refl) | eexists; reflexivity].
  - contradiction.
Qed.

Lemma worker_step_enabled w k n ls1 id p g ws1 wk ws2 ls2 o :
  wk <> WDone -> g <> 0%nat ->
  exists s', worker_step srv clock (List.length ls1) (List.length ws1)
               (mkState MRange w k false n
                  (ls1 ++ mkLister id p g (ws1 ++ wk :: ws2) :: ls2) o None)
             = Some s'.
Proof.
  intros HD HG. unfold worker_step. fields.
  rewrite nth_error_middle. fields. rewrite nth_error_middle.
  destruct wk as [c|c| |]; try (eexists; reflexivity).
  - destruct g; [contradiction | eexists; reflexivity].
  - contradiction.
Qed.

Lemma progress (ids : list string) (s : state) :
  Inv srv clock ids s -> exit_code s = None ->
  exists a s', step srv clock a s = Some s'.
Proof.
  intros [Hwg Hls Hk Hn Hm He Hc Hd] Hx.
  destruct s as [m w k cl n ls o e]. fields. subst e.
  unfold step. cbn [exit_code].
  destruct m as [[|id rest]| |c|].
  - exists MainStep. unfold _main. fields.
    destruct k; [eexists; reflexivity | |]; break_hyps.
  - exists MainStep. eexists. reflexivity.
  - destruct cl.
    { exists MainStep. eexists. reflexivity. }
    destruct k; break_hyps; try discriminate.
    destruct w as [|w'].
    { exists CloserStep. eexists. reflexivity. }
    destruct (sum_of_pos live_lister ls ltac:(lia)) as [ls1 [l [ls2 [-> Hl]]]].
    apply Forall_app in Hls. destruct Hls as [_ Hls].
    apply Forall_cons_iff in Hls. destruct Hls as [[Hg [Hws Hp]] _].
    destruct l as [id p g ws]. fields. unfold live_lister in Hl. fields.
    destruct g as [|g'].
    + destruct (listCourseWorkFromCourseId_enabled MRange (S w') KWait false n ls1 id p 0 ws
                  ls2 o None) as [s' Hs']; try (intros; congruence).
      { intros ->. cbn in Hl. lia. }
      exists (ListerStep (List.length ls1)), s'. exact Hs'.
    + destruct (sum_of_pos live_worker ws ltac:(lia)) as [ws1 [wk [ws2 [-> Hwk]]]].
      destruct (worker_step_enabled (S w') KWait n ls1 id p (S g') ws1 wk ws2
                  ls2 o) as [s' Hs']; try discriminate.
      { intros ->. cbn in Hwk. lia. }
      exists (WorkerStep (List.length ls1) (List.length ws1)), s'. exact Hs'.
  - exists MainStep. eexists. reflexivity.
  - break_hyps.
Qed.

(** *** What a step of one goroutine leaves alone *)

Lemma nth_error_upd {A : Type} (i j : nat) (x : A) (l : list A) :
  nth_error (upd i x l) j
  = if Nat.eqb i j
    then match nth_error l i with Some _ => Some x | None => None end
    else nth_error l j.
Proof.
  revert i j. induction l as [|h t IH]; intros [|i] [|j]; cbn; try reflexivity.
  - destruct (Nat.eqb i j); reflexivity.
  - apply IH.
Qed.

Lemma worker_at_set_lister (s : state) (i : nat) (l : lister) (i' j' : nat) :
  worker_at (set_lister i l s) i' j'
  = if Nat.eqb i i'
    then match nth_error (listers s) i with
         | Some _ => nth_error (workers l) j'
         | None => None
         end
    else worker_at s i' j'.
Proof.
  unfold worker_at, set_lister. fields. rewrite nth_error_upd.
  destruct (Nat.eqb i i'); [|reflexivity].
  destruct (nth_error (listers s) i); reflexivity.
Qed.

Lemma worker_at_set_main (s : state) (m : main_pc) (i j : nat) :
  worker_at (set_main m s) i j = worker_at s i j.
Proof. reflexivity. Qed.

(** A step of a worker changes neither the output nor the exit code, and no
    other worker; a check ends in the send or in the exit of the worker, a
    send hands the assignment to the main goroutine. *)
Lemma worker_step_frame (i j : nat) (s s' : state) :
  worker_step srv clock i j s = Some s' ->
  exit_code s' = exit_code s /\ out s' = out s
  /\ (forall i' j', i' <> i \/ j' <> j -> worker_at s' i' j' = worker_at s i' j')
  /\ match worker_at s i j with
     | Some (WCheck c) =>
         main s' = main s
         /\ worker_at s' i j
            = Some (if visibleNow srv clock c then WSend c else WExit)
     | Some (WSend c) =>
         main s = MRange /\ main s' = MPrint c /\ worker_at s' i j = Some WExit
     | Some WExit => main s' = main s /\ worker_at s' i j = Some WDone
     | _ => False
     end.
Proof.
  unfold worker_step, worker_at.
  destruct (nth_error (listers s) i) as [l|] eqn:El; [|discriminate].
  destruct (nth_error (workers l) j) as [wk|] eqn:Ew; [|discriminate].
  assert (forall w m s0,
            s0 = set_main m (set_lister i
                   (mkLister (course l) (pc l) (wg2 l) (upd j w (workers l))) s)
            \/ s0 = set_lister i
                   (mkLister (course l) (pc l) (wg2 l) (upd j w (workers l))) s
            \/ (exists n, s0 = set_lister i
                   (mkLister (course l) (pc l) n (upd j w (workers l))) s) ->
            exit_code s0 = exit_code s /\ out s0 = out s
            /\ (forall i' j', i' <> i \/ j' <> j ->
                  worker_at s0 i' j' = worker_at s i' j')
            /\ worker_at s0 i j = Some w) as HF.
  { intros w m s0 Hs0.
    assert (forall i' j', worker_at s0 i' j'
              = if Nat.eqb i i'
                then nth_error (upd j w (workers l)) j'
                else worker_at s i' j') as HWA.
    { intros i' j'. destruct Hs0 as [->|[->|[n ->]]];
        rewrite ?worker_at_set_main, worker_at_set_lister, El; reflexivity. }
    split; [destruct Hs0 as [->|[->|[n ->]]]; reflexivity|].
    split; [destruct Hs0 as [->|[->|[n ->]]]; reflexivity|].
    split.
    - intros i' j' Hne. rewrite HWA.
      destruct (Nat.eqb_spec i i') as [<-|Hi]; [|reflexivity].
      rewrite nth_error_upd. unfold worker_at. rewrite El.
      destruct (Nat.eqb_spec j j') as [<-|Hj]; [|reflexivity].
      destruct Hne; contradiction.
    - rewrite HWA, Nat.eqb_refl, nth_error_upd, Nat.eqb_refl, Ew. reflexivity. }
  destruct wk as [c|c| |].
  - intros H; injection H as <-.
    destruct (HF (if visibleNow srv clock c then WSend c else WExit) MRange _
                (or_intror (or_introl eq_refl))) as [H1 [H2 [H3 H4]]].
    repeat split; assumption.
  - destruct (main s) eqn:Em; try discriminate.
    destruct (closed s); [discriminate|].
    intros H; injection H as <-.
    destruct (HF WExit (MPrint c) _ (or_introl eq_refl)) as [H1 [H2 [H3 H4]]].
    repeat split; assumption.
  - destruct (wg2 l) as [|n]; [discriminate|].
    intros H; injection H as <-.
    destruct (HF WDone MRange _ (or_intror (or_intror (ex_intro _ n eq_refl))))
      as [H1 [H2 [H3 H4]]].
    repeat split; assumption.
  - discriminate.
Qed.

(** A step of a lister changes neither the output nor the main goroutine;
    it ends the process exactly when its listing fails. *)
Lemma listCourseWorkFromCourseId_frame (i : nat) (s s' : state) :
  listCourseWorkFromCourseId srv i s = Some s' ->
  out s' = out s /\ main s' = main s
  /\ exists l, nth_error (listers s) i = Some l
     /\ match pc l, CourseWork_List srv (course l) with
        | LList, Err _ => s' = set_exit 1 s
        | LList, Ok r =>
            exit_code s' = exit_code s
            /\ nth_error (listers s') i
               = Some (mkLister (course l)
                         (match r with [] => LExit | _ => LLoop r end)
                         (wg2 l) (workers l))
        | LDone, _ => False
        | _, _ =>
            exit_code s' = exit_code s
            /\ exists l', nth_error (listers s') i = Some l'
                 /\ course l' = course l
                 /\ (pc l = LExit -> pc l' = LDone /\ workers l' = workers l)
        end.
Proof.
  unfold listCourseWorkFromCourseId.
  destruct (nth_error (listers s) i) as [l|] eqn:El; [|discriminate].
  assert (forall l0, nth_error (listers (set_lister i l0 s)) i = Some l0) as HN.
  { intros l0. unfold set_lister. fields.
    rewrite nth_error_upd, Nat.eqb_refl, El. reflexivity. }
  intros H.
  assert (out s' = out s /\ main s' = main s) as [Ho Hm].
  { destruct (pc l) as [|[|c todo]| | |];
      try destruct (CourseWork_List srv (course l));
      try destruct (Z.of_nat _ <=? 0);
      try destruct (Nat.eqb (wg2 l) 0);
      try destruct (wg s);
      try discriminate; injection H as <-; split; reflexivity. }
  split; [exact Ho|]. split; [exact Hm|]. exists l. split; [reflexivity|].
  destruct (pc l) as [|[|c todo]| | |] eqn:Ep.
  - destruct (CourseWork_List srv (course l)) as [r|err].
    + destruct r as [|c r]; cbn in H; injection H as <-;
        (split; [reflexivity | apply HN]).
    + injection H as <-. reflexivity.
  - injection H as <-.
    destruct (CourseWork_List srv (course l)); (split; [reflexivity|]);
      eexists; (split; [apply HN|]); (split; [reflexivity | discriminate]).
  - injection H as <-.
    destruct (CourseWork_List srv (course l)); (split; [reflexivity|]);
      eexists; (split; [apply HN|]); (split; [reflexivity | discriminate]).
  - destruct (Nat.eqb (wg2 l) 0); [|discriminate]. injection H as <-.
    destruct (CourseWork_List srv (course l)); (split; [reflexivity|]);
      eexists; (split; [apply HN|]); (split; [reflexivity | discriminate]).
  - destruct (wg s); [discriminate|]. injection H as <-.
    destruct (CourseWork_List srv (course l)); (split; [reflexivity|]);
      eexists; (split; [unfold set_wg; fields; apply HN|]);
      (split; [reflexivity | intros _; split; reflexivity]).
  - discriminate.
Qed.

(** *** Runs are finite *)

Lemma run_measure (sched : list action) (s s' : state) :
  run srv clock sched s = Some s' ->
  (List.length sched + measure srv s' <= measure srv s)%nat.
Proof.
  revert s. induction sched as [|a rest IH]; intros s HR; cbn in HR.
  - injection HR as <-. cbn. lia.
  - destruct (step srv clock a s) as [s1|] eqn:E; [|discriminate].
    pose proof (Step_measure _ _ (step_Step _ _ _ E)) as HM.
    pose proof (IH _ HR). cbn [List.length]. lia.
Qed.

(** *** What a normal exit has printed *)

Lemma sum_of_zero {A : Type} (f : A -> nat) (l : list A) :
  sum_of f l = 0%nat -> Forall (fun x => f x = 0%nat) l.
Proof.
  induction l as [|h t IH]; cbn; intros H; constructor; [lia | apply IH; lia].
Qed.

Lemma count_visible_items (x : string) (r : list CourseWork) :
  count_occ string_dec (map printLine (filter (visibleNow srv clock) r)) x
  = sum_of (due_of_item srv clock x) r.
Proof.
  induction r as [|c r IH]; cbn; [reflexivity|].
  unfold due_of_item at 1, is_line.
  destruct (visibleNow srv clock c); cbn; [|exact IH].
  destruct (string_dec (printLine c) x); rewrite IH; reflexivity.
Qed.

Lemma count_allVisible (x : string) (ids : list string) :
  count_occ string_dec (map printLine (allVisible srv clock ids)) x
  = sum_of (due_of_course srv clock x) ids.
Proof.
  unfold allVisible. induction ids as [|id ids IH]; cbn; [reflexivity|].
  rewrite map_app, count_occ_app, IH. f_equal.
  unfold visibleOfCourse, due_of_course.
  destruct (CourseWork_List srv id); [apply count_visible_items | reflexivity].
Qed.

Lemma closed_all_done (ids : list string) (s : state) :
  Inv srv clock ids s -> closed s = true ->
  closes s = 1%nat /\ map course (listers s) = ids
  /\ Forall (fun l => pc l = LDone) (listers s).
Proof.
  intros [Hwg Hls Hk Hn Hm He Hc Hd] Hcl. rewrite Hcl in *.
  split; [exact Hn|].
  destruct (closer s); break_hyps; try discriminate.
  split.
  - rewrite <- Hc. destruct (main s); cbn; rewrite ?app_nil_r; try reflexivity.
    break_hyps.
  - assert (sum_of live_lister (listers s) = 0%nat) as Hz by lia.
    apply sum_of_zero in Hz. revert Hz. apply Forall_impl.
    intros l. unfold live_lister. destruct (pc l); [discriminate..|reflexivity].
Qed.

Lemma past_wait_workers_done (ids : list string) (s : state) :
  Inv srv clock ids s ->
  Forall (fun l => pc l = LExit \/ pc l = LDone ->
                   Forall (fun w => w = WDone) (workers l)) (listers s).
Proof.
  intros [_ Hls _ _ _ _ _ _]. revert Hls. apply Forall_impl.
  intros l [_ [_ Hp]] Hpc.
  assert (sum_of live_worker (workers l) = 0%nat) as Hz
    by (destruct Hpc as [E|E]; rewrite E in Hp; apply Hp).
  apply sum_of_zero in Hz. revert Hz. apply Forall_impl.
  intros w. destruct w; [discriminate..|reflexivity].
Qed.

Lemma normal_exit_output (ids : list string) (s : state) :
  Inv srv clock ids s -> exit_code s = Some 0 ->
  Permutation (out s) (map printLine (allVisible srv clock ids)).
Proof.
  intros HI Hx.
  pose proof (past_wait_workers_done ids s HI) as Hw.
  destruct HI as [Hwg Hls Hk Hn Hm He Hc Hd].
  assert (main s = MReturned /\ closed s = true) as [Hmain Hcl].
  { destruct (main s); break_hyps; try contradiction; auto. }
  rewrite Hcl in *. destruct (closer s); break_hyps; try discriminate.
  assert (sum_of live_lister (listers s) = 0%nat) as Hz by lia.
  apply (Permutation_count_occ string_dec). intros x.
  rewrite count_allVisible, <- (Hd x), Hmain. cbn [due_of_main].
  assert (sum_of (due_of_lister srv clock x) (listers s) = 0%nat) as ->; [|lia].
  revert Hz Hw. generalize (listers s). clear.
  induction l as [|l ls IH]; intros Hz Hw; [reflexivity|].
  cbn [sum_of] in *.
  apply Forall_cons_iff in Hw. destruct Hw as [Hl Hw].
  rewrite IH; [|lia|exact Hw].
  unfold live_lister in Hz. unfold due_of_lister.
  destruct (pc l) eqn:Ep; try lia.
  specialize (Hl (or_intror eq_refl)).
  clear - Hl. induction Hl as [|w ws -> _ IHw]; [reflexivity|].
  cbn. cbn in IHw. lia.
Qed.

(** C8. In every run of [_main], the queue is closed at most once, and when
    it is closed a lister has been started for every course and all have
    finished; a lister is past its [wg2.Wait()] only when all its workers
    have finished; the aggregator returns only from a closed queue; a run
    that ends normally has printed the line of each visible assignment
    exactly once; as long as the process has not exited some goroutine can
    take a step, and no run is longer than the measure of the initial
    state. *)
Theorem fan_in_join_barrier (ids : list string) (sched : list action)
    (s : state) :
  run srv clock sched (init ids) = Some s ->
  (closes s <= 1)%nat
  /\ (closed s = true ->
      closes s = 1%nat /\ map course (listers s) = ids
      /\ Forall (fun l => pc l = LDone) (listers s))
  /\ Forall (fun l => pc l = LExit \/ pc l = LDone ->
                      Forall (fun w => w = WDone) (workers l)) (listers s)
  /\ (main s = MReturned -> closed s = true)
  /\ (exit_code s = Some 0 ->
      main s = MReturned
      /\ Permutation (out s) (map printLine (allVisible srv clock ids)))
  /\ (exit_code s = None -> exists a s', step srv clock a s = Some s')
  /\ (List.length sched + measure srv s <= measure srv (init ids))%nat.
Proof.
  intros HR.
  assert (Inv srv clock ids s) as HI by (apply Inv_reachable; exists sched; exact HR).
  split; [|split; [|split; [|split; [|split; [|split]]]]].
  - destruct HI as [_ _ _ Hn _ _ _ _]. rewrite Hn. destruct (closed s); lia.
  - apply (closed_all_done ids s HI).
  - apply (past_wait_workers_done ids s HI).
  - destruct HI as [_ _ _ _ Hm _ _ _]. intros E. rewrite E in Hm. apply Hm.
  - intros Hx. split; [|apply (normal_exit_output ids s HI Hx)].
    destruct HI as [_ _ _ _ Hm _ _ _].
    destruct (main s); break_hyps; try contradiction; reflexivity.
  - apply (progress ids s HI).
  - apply run_measure. exact HR.
Qed.

(** The program itself, over its eleven courses: a run that ends
    normally has printed the line of every visible assignment once. *)
Corollary courseIds_output (sched : list action) (s : state) :
  run srv clock sched (init courseIds) = Some s ->
  exit_code s = Some 0 ->
  Permutation (out s) (map printLine (allVisible srv clock courseIds)).
Proof.
  intros HR Hx. apply normal_exit_output; [|exact Hx].
  apply Inv_reachable. exists sched. exact HR.
Qed.

(** *** Assignments that the filter rejects *)

Lemma lister_at_ok (ids : list string) (s : state) (i : nat) (l : lister) :
  Inv srv clock ids s -> nth_error (listers s) i = Some l ->
  lister_ok srv clock l.
Proof.
  intros [_ Hls _ _ _ _ _ _] Hl.
  apply nth_error_In in Hl. rewrite Forall_forall in Hls. apply Hls. exact Hl.
Qed.

(** An assignment that the filter rejects is never sent and never held by
    the main goroutine; its check is a step that can always be taken, that
    ends the worker and touches nothing else: the process goes on. *)
Lemma rejected_is_dropped (c : CourseWork) (ids : list string)
    (sched : list action) (s : state) :
  visibleNow srv clock c = false ->
  run srv clock sched (init ids) = Some s ->
  (forall i j, worker_at s i j <> Some (WSend c))
  /\ main s <> MPrint c
  /\ (forall i j, worker_at s i j = Some (WCheck c) -> exit_code s = None ->
        exists s', step srv clock (WorkerStep i j) s = Some s')
  /\ (forall i j s', worker_at s i j = Some (WCheck c) ->
        step srv clock (WorkerStep i j) s = Some s' ->
        exit_code s' = None /\ out s' = out s /\ main s' = main s
        /\ worker_at s' i j = Some WExit
        /\ forall i' j', i' <> i \/ j' <> j ->
             worker_at s' i' j' = worker_at s i' j').
Proof.
  intros Hv HR.
  assert (Inv srv clock ids s) as HI
    by (apply Inv_reachable; exists sched; exact HR).
  split; [|split; [|split]].
  - intros i j Hw. unfold worker_at in Hw.
    destruct (nth_error (listers s) i) as [l|] eqn:El; [|discriminate].
    destruct (lister_at_ok ids s i l HI El) as [_ [Hws _]].
    apply nth_error_In in Hw. rewrite Forall_forall in Hws.
    specialize (Hws _ Hw). cbn in Hws. congruence.
  - destruct HI as [_ _ _ _ Hm _ _ _]. intros E. rewrite E in Hm.
    destruct Hm as [Hm _]. congruence.
  - intros i j Hw Hx. unfold step. rewrite Hx. unfold worker_step.
    unfold worker_at in Hw.
    destruct (nth_error (listers s) i) as [l|]; [|discriminate].
    rewrite Hw. eexists. reflexivity.
  - intros i j s' Hw HS. unfold step in HS.
    destruct (exit_code s) eqn:Hx; [discriminate|].
    destruct (worker_step_frame i j s s' HS) as [H1 [H2 [H3 H4]]].
    rewrite Hw, Hv in H4. destruct H4 as [H4 H5].
    repeat split; try assumption. congruence.
Qed.

(** C4. When the lookup of the submission records of an assignment fails,
    the filter returns [false] with the error of the lookup: it does so
    whenever the date string parses and the parsed date is not before the
    truncated clock, which are the cases in which it makes the lookup, and
    whenever the lookup is among its remote reads.  In no case is the
    result [true].  The worker sends nothing, so the assignment is never
    queued or printed; the check leaves the process running and every
    other worker as it was. *)
Theorem lookup_failure_is_soft (c : CourseWork) (e : error) :
  StudentSubmissions_List srv (CourseId c) (Id c) = Err e ->
  (forall now1 now2 parsedDate,
     time.Parse_2006_01_02 (dateString now1 c) = Ok parsedDate ->
     time.Before parsedDate (time.Truncate now2 (24 * time.Hour)) = false ->
     isCourseworkVisible srv now1 now2 c
     = ((false, Some e), [StudentSubmissionsListCall (CourseId c) (Id c)]))
  /\ (forall now1 now2,
        In (StudentSubmissionsListCall (CourseId c) (Id c))
           (snd (isCourseworkVisible srv now1 now2 c)) ->
        isCourseworkVisible srv now1 now2 c
        = ((false, Some e), [StudentSubmissionsListCall (CourseId c) (Id c)]))
  /\ (forall now1 now2,
        fst (fst (isCourseworkVisible srv now1 now2 c)) = false)
  /\ forall ids sched s,
       run srv clock sched (init ids) = Some s ->
       (forall i j, worker_at s i j <> Some (WSend c))
       /\ main s <> MPrint c
       /\ (forall i j, worker_at s i j = Some (WCheck c) ->
             exit_code s = None ->
             exists s', step srv clock (WorkerStep i j) s = Some s')
       /\ (forall i j s', worker_at s i j = Some (WCheck c) ->
             step srv clock (WorkerStep i j) s = Some s' ->
             exit_code s' = None /\ out s' = out s /\ main s' = main s
             /\ worker_at s' i j = Some WExit
             /\ forall i' j', i' <> i \/ j' <> j ->
                  worker_at s' i' j' = worker_at s i' j').
Proof.
  intros He.
  assert (forall now1 now2,
            fst (fst (isCourseworkVisible srv now1 now2 c)) = false) as HF.
  { intros now1 now2. unfold isCourseworkVisible.
    destruct (time.Parse_2006_01_02 _); [|reflexivity].
    destruct (time.Before _ _); [reflexivity|].
    rewrite He. reflexivity. }
  split; [|split; [|split; [exact HF|]]].
  - intros now1 now2 parsedDate HP HB.
    unfold isCourseworkVisible. rewrite HP, HB, He. reflexivity.
  - intros now1 now2. unfold isCourseworkVisible.
    destruct (time.Parse_2006_01_02 _); [|intros []].
    destruct (time.Before _ _); [intros []|].
    rewrite He. reflexivity.
  - intros ids sched s HR.
    apply (rejected_is_dropped c ids sched s); [|exact HR].
    unfold visibleNow.
    pose proof (HF (fst (clock c)) (snd (clock c))) as Hf.
    destruct (fst (isCourseworkVisible _ _ _ _)) as [v [err|]]; cbn in Hf;
      [reflexivity | exact Hf].
Qed.

(** C10. An assignment whose due date is not a date with a four-digit
    year, a month and a day of that month (month 13, day 0, year 999) is
    printed to a string that [Parse] rejects: the filter returns [false]
    with the parse error and reads nothing; the worker sends nothing, so
    the assignment is never queued or printed; the check leaves the process
    running and every other worker as it was. *)
Theorem unparseable_due_date_is_soft (c : CourseWork) (d : Date) :
  DueDate c = Some d -> ~ (fourDigitYear d /\ validDate d) ->
  (forall now1 now2, exists msg,
     isCourseworkVisible srv now1 now2 c
     = ((false,
         Some (ParseError
                 (fmt.Sprintf_d_02d_02d (Year d) (Month d) (Day d)) msg)),
        []))
  /\ forall ids sched s,
       run srv clock sched (init ids) = Some s ->
       (forall i j, worker_at s i j <> Some (WSend c))
       /\ main s <> MPrint c
       /\ (forall i j, worker_at s i j = Some (WCheck c) ->
             exit_code s = None ->
             exists s', step srv clock (WorkerStep i j) s = Some s')
       /\ (forall i j s', worker_at s i j = Some (WCheck c) ->
             step srv clock (WorkerStep i j) s = Some s' ->
             exit_code s' = None /\ out s' = out s /\ main s' = main s
             /\ worker_at s' i j = Some WExit
             /\ forall i' j', i' <> i \/ j' <> j ->
                  worker_at s' i' j' = worker_at s i' j').
Proof.
  intros Hd Hbad.
  assert (forall now1 now2, exists msg,
     isCourseworkVisible srv now1 now2 c
     = ((false,
         Some (ParseError
                 (fmt.Sprintf_d_02d_02d (Year d) (Month d) (Day d)) msg)),
        [])) as HF.
  { intros now1 now2. unfold isCourseworkVisible, dateString. rewrite Hd.
    destruct (time.Parse_2006_01_02 _) as [t|err] eqn:EP.
    - exfalso. apply Hbad. apply (Parse_Sprintf_Ok_inv d t). exact EP.
    - destruct (Parse_Err_is_ParseError _ _ EP) as [msg ->].
      exists msg. reflexivity. }
  split; [exact HF|].
  intros ids sched s HR. apply (rejected_is_dropped c ids sched s); [|exact HR].
  unfold visibleNow.
  destruct (HF (fst (clock c)) (snd (clock c))) as [msg ->]. reflexivity.
Qed.

(** *** No run reaches a panic *)

Lemma sum_of_member {A : Type} (f : A -> nat) (l : list A) (i : nat) (x : A) :
  nth_error l i = Some x -> (f x <= sum_of f l)%nat.
Proof.
  intros H. destruct (nth_error_upd_split _ _ _ H) as [l1 [l2 [-> _]]].
  rewrite sum_of_app. cbn. lia.
Qed.

(** X5.  [wg.Done()] and [wg2.Done()] find their counter above zero, [close]
    finds the channel open, and a worker blocked in its send is never
    overtaken by the close. *)
Lemma no_panic (ids : list string) (s : state) :
  reachable srv clock ids s ->
  (closer s = KWait -> closed s = false)
  /\ (forall i l, nth_error (listers s) i = Some l -> pc l = LExit ->
        wg s <> 0%nat)
  /\ (forall i l j, nth_error (listers s) i = Some l ->
        nth_error (workers l) j = Some WExit -> wg2 l <> 0%nat)
  /\ (forall i j c, worker_at s i j = Some (WSend c) -> closed s = false).
Proof.
  intros HR. pose proof (Inv_reachable ids s HR) as HI.
  split; [|split; [|split]].
  - destruct HI as [_ _ Hk _ _ _ _ _]. intros E. rewrite E in Hk. apply Hk.
  - intros i l Hl Hp. destruct HI as [Hwg _ _ _ _ _ _ _].
    pose proof (sum_of_member live_lister _ _ _ Hl) as H.
    unfold live_lister at 1 in H. rewrite Hp in H. lia.
  - intros i l j Hl Hw. destruct (lister_at_ok ids s i l HI Hl) as [Hg _].
    pose proof (sum_of_member live_worker _ _ _ Hw) as H. cbn in H. lia.
  - intros i j c Hw. destruct (closed s) eqn:Hc; [exfalso | reflexivity].
    destruct (closed_all_done ids s HI Hc) as [_ [_ Hd]].
    unfold worker_at in Hw.
    destruct (nth_error (listers s) i) as [l|] eqn:Hl; [|discriminate].
    destruct (lister_at_ok ids s i l HI Hl) as [_ [_ Hp]].
    rewrite Forall_forall in Hd. rewrite (Hd l (nth_error_In _ _ Hl)) in Hp.
    destruct Hp as [Hz _].
    pose proof (sum_of_member live_worker _ _ _ Hw) as H. cbn in H. lia.
Qed.

(** *** Listers *)

(** C5, as amended. A lister whose listing call fails has started no
    worker; its step ends the process with exit code 1 and adds nothing to
    the output, and no goroutine takes a step after it: nothing is retried
    and nothing that was in flight is printed.  The output of the process
    is what had been printed before the failure: lines of visible
    assignments of other courses, whose listing succeeded. *)
Theorem listing_failure_is_fatal (ids : list string) (sched : list action)
    (s : state) (i : nat) (l : lister) (e : error) :
  run srv clock sched (init ids) = Some s ->
  exit_code s = None ->
  nth_error (listers s) i = Some l ->
  CourseWork_List srv (course l) = Err e ->
  pc l = LList /\ workers l = []
  /\ step srv clock (ListerStep i) s = Some (set_exit 1 s)
  /\ exit_code (set_exit 1 s) = Some 1
  /\ out (set_exit 1 s) = out s
  /\ (forall a, step srv clock a (set_exit 1 s) = None)
  /\ (forall sched' s', run srv clock sched' (set_exit 1 s) = Some s' ->
        sched' = [] /\ s' = set_exit 1 s)
  /\ (forall x, In x (out (set_exit 1 s)) ->
        exists id r c,
          In id ids /\ id <> course l /\ CourseWork_List srv id = Ok r
          /\ In c r /\ visibleNow srv clock c = true /\ x = printLine c).
Proof.
  intros HR Hx Hl He.
  assert (Inv srv clock ids s) as HI
    by (apply Inv_reachable; exists sched; exact HR).
  destruct (lister_at_ok ids s i l HI Hl) as [_ [_ Hp]].
  assert (pc l = LList) as Hpc.
  { destruct (pc l); [reflexivity|..]; break_hyps; congruence. }
  rewrite Hpc in Hp.
  split; [exact Hpc|]. split; [exact Hp|].
  split; [|split; [reflexivity|split; [reflexivity|split; [|split]]]].
  - unfold step. rewrite Hx. unfold listCourseWorkFromCourseId. rewrite Hl, Hpc, He.
    reflexivity.
  - intros a. reflexivity.
  - intros [|a rest] s' H; cbn in H.
    + injection H as <-. split; reflexivity.
    + discriminate.
  - intros x Hin. change (out (set_exit 1 s)) with (out s) in Hin.
    assert (In x (map printLine (allVisible srv clock ids))) as Hv.
    { apply (count_occ_In string_dec).
      apply (count_occ_In string_dec) in Hin.
      destruct HI as [_ _ _ _ _ _ _ Hd].
      rewrite count_allVisible, <- (Hd x). lia. }
    apply in_map_iff in Hv. destruct Hv as [c [Hc Hv]].
    unfold allVisible in Hv. apply in_flat_map in Hv.
    destruct Hv as [id [Hid Hv]]. unfold visibleOfCourse in Hv.
    destruct (CourseWork_List srv id) as [r|err] eqn:Er; [|destruct Hv].
    apply filter_In in Hv. destruct Hv as [Hr Hvis].
    exists id, r, c. repeat split; try assumption; [|symmetry; exact Hc].
    intros ->. congruence.
Qed.

(** C6. A lister whose listing succeeds with no assignment never has a
    worker, so it sends nothing; it is never blocked; its steps are the
    return after the listing and the deferred [wg.Done()], and they change
    neither the output nor the exit code. *)
Theorem empty_course_contributes_nothing (ids : list string)
    (sched : list action) (s : state) (i : nat) (l : lister) :
  run srv clock sched (init ids) = Some s ->
  nth_error (listers s) i = Some l ->
  CourseWork_List srv (course l) = Ok [] ->
  workers l = [] /\ wg2 l = 0%nat
  /\ (pc l = LList \/ pc l = LExit \/ pc l = LDone)
  /\ (forall j, worker_at s i j = None)
  /\ (exit_code s = None -> pc l <> LDone ->
      exists s', step srv clock (ListerStep i) s = Some s')
  /\ (forall s', step srv clock (ListerStep i) s = Some s' ->
        exit_code s' = None /\ out s' = out s /\ main s' = main s
        /\ exists l', nth_error (listers s') i = Some l'
             /\ course l' = course l /\ workers l' = []
             /\ ((pc l = LList /\ pc l' = LExit)
                 \/ (pc l = LExit /\ pc l' = LDone))).
Proof.
  intros HR Hl He.
  assert (Inv srv clock ids s) as HI
    by (apply Inv_reachable; exists sched; exact HR).
  destruct (lister_at_ok ids s i l HI Hl) as [Hg [_ Hp]].
  assert (workers l = [] /\ (pc l = LList \/ pc l = LExit \/ pc l = LDone))
    as [Hws Hpc].
  { destruct (pc l); break_hyps; try congruence; auto.
    - split; [|auto]. match goal with H : _ -> workers l = [] |- _ => apply H end.
      congruence.
    - split; [|auto]. match goal with H : _ -> workers l = [] |- _ => apply H end.
      congruence. }
  split; [exact Hws|]. split; [rewrite Hg, Hws; reflexivity|].
  split; [exact Hpc|]. split; [|split].
  - intros j. unfold worker_at. rewrite Hl, Hws. destruct j; reflexivity.
  - intros Hx Hnd. unfold step. rewrite Hx. unfold listCourseWorkFromCourseId. rewrite Hl.
    destruct Hpc as [E|[E|E]]; [| |contradiction]; rewrite E.
    + rewrite He. cbn. eexists. reflexivity.
    + destruct HI as [Hwg _ _ _ _ _ _ _].
      destruct (nth_error_upd_split _ _ _ Hl) as [ls1 [ls2 [Els _]]].
      rewrite Els, sum_of_app in Hwg. cbn [sum_of] in Hwg.
      unfold live_lister at 2 in Hwg. rewrite E in Hwg.
      destruct (wg s); [lia|]. eexists. reflexivity.
  - intros s' HS. unfold step in HS.
    destruct (exit_code s) eqn:Hx; [discriminate|].
    destruct (listCourseWorkFromCourseId_frame i s s' HS) as [Ho [Hm [l0 [Hl0 HF]]]].
    rewrite Hl in Hl0. injection Hl0 as <-. rewrite He in HF.
    split; [|split; [exact Ho|split; [exact Hm|]]].
    + destruct Hpc as [E|[E|E]]; rewrite E in HF;
        [destruct HF as [HF _] | destruct HF as [HF _] | contradiction];
        congruence.
    + destruct Hpc as [E|[E|E]]; rewrite E in HF.
      * destruct HF as [_ HF]. eexists. split; [exact HF|].
        cbn. repeat split; auto.
      * destruct HF as [_ [l' [Hl' [Hc Hd]]]].
        destruct (Hd eq_refl) as [Hd1 Hd2].
        exists l'. repeat split; auto. congruence.
      * contradiction.
Qed.

(** *** The aggregator *)


End ProcessProofs.

(** ** The theorems at work on the small world *)

Lemma lookup_failure_is_soft_witness :
  StudentSubmissions_List Example.srv "C1" "A6"
  = Err (RemoteError "transport")
  /\ isCourseworkVisible Example.srv Example.noon Example.noon Example.A6
     = ((false, Some (RemoteError "transport")),
        [StudentSubmissionsListCall "C1" "A6"]).
Proof.
  split; [reflexivity|].
  apply (proj1 (lookup_failure_is_soft Example.srv Example.clock Example.A6
                  (RemoteError "transport") eq_refl)
           Example.noon Example.noon (Example.utc 2024 11 2 0)).
  - vm_compute. reflexivity.
  - vm_compute. reflexivity.
Defined.

Lemma unparseable_due_date_is_soft_witness :
  exists msg,
    isCourseworkVisible Example.srv Example.noon Example.noon Example.A5
    = ((false, Some (ParseError "2024-13-01" msg)), []).
Proof.
  apply (proj1 (unparseable_due_date_is_soft Example.srv Example.clock
                  Example.A5 (mkDate 2024 13 1) eq_refl
                  ltac:(decide_closed))).
Defined.

Lemma listing_failure_is_fatal_witness :
  exists s,
    run Example.srv Example.clock [MainStep] (init ["CX"%string]) = Some s
    /\ step Example.srv Example.clock (ListerStep 0) s = Some (set_exit 1 s)
    /\ exit_code (set_exit 1 s) = Some 1
    /\ forall a, step Example.srv Example.clock a (set_exit 1 s) = None.
Proof.
  eexists. split; [reflexivity|].
  destruct (listing_failure_is_fatal Example.srv Example.clock
              ["CX"%string] [MainStep] _ 0 _ (RemoteError "transport")
              eq_refl eq_refl eq_refl eq_refl)
    as [_ [_ [H1 [H2 [_ [H3 _]]]]]].
  split; [exact H1 | split; [exact H2 | exact H3]].
Defined.

(** C5, as stated, fails: the course "C1" is listed and the lines of its
    two visible assignments are printed; then the listing of the course
    "CX" fails.  The process ends with exit code 1 and the two lines are
    its output. *)
Lemma listing_failure_keeps_partial_output :
  exists s,
    run Example.srv Example.clock
      ([MainStep; MainStep; MainStep] ++ repeat (ListerStep 0) 8
       ++ [WorkerStep 0 0; WorkerStep 0 1; WorkerStep 0 2; WorkerStep 0 3;
           WorkerStep 0 4; WorkerStep 0 5]
       ++ [WorkerStep 0 1; MainStep; WorkerStep 0 3; MainStep]
       ++ [ListerStep 1])
      (init ["C1"; "CX"]%string) = Some s
    /\ CourseWork_List Example.srv "CX" = Err (RemoteError "transport")
    /\ exit_code s = Some 1
    /\ out s = [printLine Example.A2; printLine Example.A4]
    /\ out s <> [].
Proof.
  eexists. split; [vm_compute; reflexivity|].
  split; [reflexivity|]. split; [reflexivity|]. split; [reflexivity|].
  discriminate.
Qed.

Lemma empty_course_contributes_nothing_witness :
  exists s l,
    run Example.srv Example.clock [MainStep] (init ["C0"%string]) = Some s
    /\ nth_error (listers s) 0 = Some l
    /\ workers l = [] /\ forall j, worker_at s 0 j = None.
Proof.
  eexists. eexists. split; [reflexivity|]. split; [reflexivity|].
  destruct (empty_course_contributes_nothing Example.srv Example.clock
              ["C0"%string] [MainStep] _ 0 _ eq_refl eq_refl eq_refl)
    as [H1 [_ [_ [H2 _]]]].
  split; [exact H1 | exact H2].
Defined.


Lemma fan_in_join_barrier_witness :
  exists s,
    run Example.srv Example.clock Example.schedule (init ["C0"; "C1"]%string)
    = Some s
    /\ exit_code s = Some 0 /\ closes s = 1%nat
    /\ Permutation (out s)
         (map printLine
            (allVisible Example.srv Example.clock ["C0"; "C1"]%string)).
Proof.
  eexists. split; [vm_compute; reflexivity|].
  match goal with
  | |- exit_code ?s = _ /\ _ =>
      assert (run Example.srv Example.clock Example.schedule
                (init ["C0"; "C1"]%string) = Some s) as HR
        by (vm_compute; reflexivity);
      destruct (fan_in_join_barrier Example.srv Example.clock
                  ["C0"; "C1"]%string Example.schedule s HR)
        as [_ [H1 [_ [_ [H2 _]]]]]
  end.
  split; [reflexivity|]. split; [apply H1; reflexivity|].
  apply H2. reflexivity.
Defined.

(** * Further properties of the code *)

(** ** The visibility filter *)

Lemma Truncate_day (t : time.Time) :
  time.abs (time.Truncate t (24 * time.Hour))
  = 24 * time.Hour * (time.abs t / (24 * time.Hour)).
Proof.
  unfold time.Truncate. change (24 * time.Hour) with 86400000000000.
  destruct (Z.leb_spec 86400000000000 0); [lia|]. cbn [time.abs]. lia.
Qed.

(** X1.  With a due date the filter does not read the first clock, and of the
    second clock it uses the day in UTC only: neither the zone of the
    process nor the time of day changes the result. *)
Theorem due_date_verdict_depends_on_utc_day (srv : Service)
    (now1 now1' now2 now2' : time.Time) (c : CourseWork) (d : Date) :
  DueDate c = Some d ->
  time.abs now2 / (24 * time.Hour) = time.abs now2' / (24 * time.Hour) ->
  isCourseworkVisible srv now1 now2 c = isCourseworkVisible srv now1' now2' c.
Proof.
  intros Hd Hday. unfold isCourseworkVisible, dateString. rewrite Hd.
  destruct (time.Parse_2006_01_02 _) as [parsedDate|err]; [|reflexivity].
  unfold time.Before. rewrite !Truncate_day, Hday. reflexivity.
Qed.

Lemma due_date_verdict_depends_on_utc_day_witness :
  isCourseworkVisible Example.srv Example.noon Example.noon Example.A2
  = isCourseworkVisible Example.srv
      (Example.inZone 9 (Example.utc 2024 10 31 1))
      (Example.inZone (-5) (Example.utc 2024 10 31 23)) Example.A2.
Proof.
  apply (due_date_verdict_depends_on_utc_day Example.srv Example.noon
           (Example.inZone 9 (Example.utc 2024 10 31 1)) Example.noon
           (Example.inZone (-5) (Example.utc 2024 10 31 23)) Example.A2
           (mkDate 2024 11 1)); reflexivity.
Defined.

(** X2.  An assignment that the date test has excluded stays excluded at every
    later reading of the clock. *)
Theorem overdue_stays_overdue (srv : Service)
    (now1 now1' now2 later : time.Time) (c : CourseWork) (d : Date) :
  DueDate c = Some d ->
  isCourseworkVisible srv now1 now2 c = ((false, None), []) ->
  time.abs now2 <= time.abs later ->
  isCourseworkVisible srv now1' later c = ((false, None), []).
Proof.
  intros Hd Hr Hle. revert Hr. unfold isCourseworkVisible, dateString.
  rewrite Hd.
  destruct (time.Parse_2006_01_02 _) as [parsedDate|err]; [|discriminate].
  unfold time.Before. rewrite !Truncate_day.
  destruct (Z.ltb_spec (time.abs parsedDate)
              (24 * time.Hour * (time.abs now2 / (24 * time.Hour))))
    as [Hlt|Hge].
  - intros _.
    assert (time.abs now2 / (24 * time.Hour)
            <= time.abs later / (24 * time.Hour)) as Hdiv
      by (apply Z.div_le_mono; [reflexivity | exact Hle]).
    assert (0 < 24 * time.Hour) as Hpos by reflexivity.
    destruct (Z.ltb_spec (time.abs parsedDate)
                (24 * time.Hour * (time.abs later / (24 * time.Hour))))
      as [|Hge']; [reflexivity|].
    exfalso. revert Hlt Hge' Hdiv Hpos.
    generalize (24 * time.Hour) (time.abs now2 / (24 * time.Hour))
      (time.abs later / (24 * time.Hour)) (time.abs parsedDate).
    clear. intros D a b p. nia.
  - destruct (StudentSubmissions_List srv (CourseId c) (Id c)); discriminate.
Qed.

Lemma overdue_stays_overdue_witness :
  isCourseworkVisible Example.srv Example.noon
    (Example.utc 2025 1 1 0) Example.A1 = ((false, None), []).
Proof.
  apply (overdue_stays_overdue Example.srv Example.noon Example.noon
           Example.noon (Example.utc 2025 1 1 0) Example.A1
           (mkDate 2024 10 30)); decide_closed.
Defined.

(** X3.  The string that ["%d-%02d-%02d"] prints for a due date is accepted by
    [time.Parse] exactly when the year is between 1000 and 9999, so that
    ["%d"] prints four digits, and the month and the day are a month of the
    year and a day of that month. *)
Theorem due_date_parses_iff_well_formed (d : Date) :
  (exists t, time.Parse_2006_01_02
               (fmt.Sprintf_d_02d_02d (Year d) (Month d) (Day d)) = Ok t)
  <-> fourDigitYear d /\ validDate d.
Proof.
  split.
  - intros [t Ht]. apply (Parse_Sprintf_Ok_inv d t Ht).
  - intros [Hy Hv]. exists (midnight d). apply Parse_Sprintf; assumption.
Qed.

Lemma dateless_passes_date_check_witness :
  isCourseworkVisible Example.srv
    (Example.inZone 9 (Example.utc 2024 10 30 23))
    (Example.inZone 9 (Example.utc 2024 10 30 23)) Example.A4
  = ((true, None), [StudentSubmissionsListCall "C1" "A4"]).
Proof.
  apply (dateless_passes_date_check Example.srv
           (Example.inZone 9 (Example.utc 2024 10 30 23))
           (Example.inZone 9 (Example.utc 2024 10 30 23)) Example.A4
           (mkDate 2024 10 31) (mkDate 2024 10 30)); decide_closed.
Defined.

(** X4.  The loop over the submission records ends at the first record that is
    turned in, yet its result does not depend on the order of the
    records. *)
Theorem scanSubmissions_order_irrelevant (wr wr' : list StudentSubmission) :
  Permutation wr wr' -> scanSubmissions wr = scanSubmissions wr'.
Proof.
  intros HP.
  pose proof (scanSubmissions_no_error wr) as E1.
  pose proof (scanSubmissions_no_error wr') as E2.
  pose proof (scanSubmissions_true wr) as T1.
  pose proof (scanSubmissions_true wr') as T2.
  assert (turnedIn wr <-> turnedIn wr') as HT.
  { unfold turnedIn. split; intros [s [Hin Hs]]; exists s; split; try exact Hs.
    - apply (Permutation_in _ HP Hin).
    - apply (Permutation_in _ (Permutation_sym HP) Hin). }
  destruct (scanSubmissions wr) as [v1 e1], (scanSubmissions wr') as [v2 e2].
  cbn [fst snd] in *. subst e1 e2. f_equal.
  destruct v1, v2; try reflexivity; exfalso.
  - destruct T1 as [T1 _]. destruct (turnedIn_dec wr') as [H|H].
    + apply (T1 eq_refl). apply HT. exact H.
    + destruct T2 as [_ T2]. discriminate (T2 H).
  - destruct T2 as [T2 _]. destruct (turnedIn_dec wr) as [H|H].
    + apply (T2 eq_refl). apply HT. exact H.
    + destruct T1 as [_ T1]. discriminate (T1 H).
Qed.

Lemma scanSubmissions_order_irrelevant_witness :
  scanSubmissions [mkStudentSubmission "CREATED"; mkStudentSubmission "TURNED_IN"]
  = scanSubmissions [mkStudentSubmission "TURNED_IN"; mkStudentSubmission "CREATED"].
Proof.
  apply scanSubmissions_order_irrelevant. apply perm_swap.
Defined.

(** ** The process of [_main] *)

Section ProcessMore.

Variable srv : Service.
Variable clock : CourseWork -> time.Time * time.Time.

Lemma run_app (sched1 sched2 : list action) (s s1 : state) :
  run srv clock sched1 s = Some s1 ->
  run srv clock (sched1 ++ sched2) s = run srv clock sched2 s1.
Proof.
  revert s. induction sched1 as [|a rest IH]; intros s H; cbn in *.
  - injection H as ->. reflexivity.
  - destruct (step srv clock a s) as [s'|]; [|discriminate]. apply IH. exact H.
Qed.

(** From every state of a run the process can run on to its exit. *)
Lemma run_to_exit (ids : list string) (n : nat) (s : state) :
  (measure srv s <= n)%nat -> Inv srv clock ids s ->
  exists sched s', run srv clock sched s = Some s' /\ exit_code s' <> None.
Proof.
  revert s. induction n as [|n IH]; intros s Hm HI.
  - exists [], s. split; [reflexivity|].
    unfold measure in Hm. destruct (exit_code s); [discriminate | lia].
  - destruct (exit_code s) eqn:Hx.
    + exists [], s. split; [reflexivity | congruence].
    + destruct (progress srv clock ids s HI Hx) as [a [s1 Hs1]].
      pose proof (Step_measure srv clock _ _ (step_Step srv clock _ _ _ Hs1)) as Hlt.
      destruct (IH s1 ltac:(lia)
                  (Inv_Step srv clock ids _ _ (step_Step srv clock _ _ _ Hs1) HI))
        as [sched [s' [HR Hx']]].
      exists (a :: sched), s'. split; [|exact Hx'].
      cbn. rewrite Hs1. exact HR.
Qed.

(** A lister whose course cannot be listed never leaves the call. *)
Lemma failing_lister_at_call (ids : list string) (s : state) (l : lister)
    (e : error) :
  Inv srv clock ids s -> In l (listers s) ->
  CourseWork_List srv (course l) = Err e -> pc l = LList.
Proof.
  intros [_ Hls _ _ _ _ _ _] Hin He.
  rewrite Forall_forall in Hls. destruct (Hls l Hin) as [_ [_ Hp]].
  destruct (pc l); [reflexivity|..].
  - destruct Hp as [r [E _]]. congruence.
  - destruct Hp as [r [E _]]. congruence.
  - destruct Hp as [_ [r [E _]]]. congruence.
  - destruct Hp as [_ [r [E _]]]. congruence.
Qed.

Lemma run_snoc (sched : list action) (a : action) (s0 s : state) :
  run srv clock (sched ++ [a]) s0 = Some s ->
  exists s1, run srv clock sched s0 = Some s1 /\ step srv clock a s1 = Some s.
Proof.
  revert s0. induction sched as [|b sched IH]; intros s0 H; cbn in *.
  - destruct (step srv clock a s0) as [s1|] eqn:E; [|discriminate].
    injection H as <-. exists s0. split; [reflexivity | exact E].
  - destruct (step srv clock b s0) as [s1|]; [|discriminate].
    apply IH. exact H.
Qed.

(** The exit code 1 comes from a course that could not be listed. *)
Lemma fatal_exit_has_cause (ids : list string) (sched : list action)
    (s : state) :
  run srv clock sched (init ids) = Some s -> exit_code s = Some 1 ->
  exists id e, In id ids /\ CourseWork_List srv id = Err e.
Proof.
  intros HR Hx.
  destruct sched as [|a sched _] using rev_ind.
  { cbn in HR. injection HR as <-. cbn in Hx. discriminate. }
  destruct (run_snoc _ _ _ _ HR) as [s0 [HR0 HS]].
  assert (Inv srv clock ids s0) as HI0
    by (apply Inv_reachable; exists sched; exact HR0).
  destruct HI0 as [_ _ _ _ _ _ Hc _].
  pose proof (step_Step srv clock a s0 s HS) as HStep.
  destruct HStep; cbn in Hx; try discriminate.
  exists id, e. split; [|assumption].
  rewrite <- Hc. cbn [listers]. rewrite map_app. cbn.
  apply in_or_app. left. apply in_or_app. right. left. reflexivity.
Qed.

Lemma Inv_exit_code (ids : list string) (s : state) :
  Inv srv clock ids s ->
  exit_code s = None \/ exit_code s = Some 0 \/ exit_code s = Some 1.
Proof. intros [_ _ _ _ _ He _ _]. exact He. Qed.

Lemma normal_exit_all_done (ids : list string) (s : state) :
  Inv srv clock ids s -> exit_code s = Some 0 ->
  map course (listers s) = ids /\ Forall (fun l => pc l = LDone) (listers s).
Proof.
  intros HI Hx.
  assert (closed s = true) as Hc.
  { destruct HI as [_ _ _ _ Hm _ _ _].
    destruct (main s); try contradiction.
    - destruct Hm as [_ Hm]. contradiction.
    - apply Hm. }
  apply (closed_all_done srv clock ids s HI Hc).
Qed.

(** X6.  When the listing of one of the courses fails, no run ends normally,
    whatever the other courses hold and however the goroutines are
    scheduled, and every run can only be continued to the exit with
    code 1. *)
Theorem listing_failure_ends_every_run_fatally (ids : list string)
    (sched : list action) (s : state) (id : string) (e : error) :
  In id ids -> CourseWork_List srv id = Err e ->
  run srv clock sched (init ids) = Some s ->
  exit_code s <> Some 0
  /\ exists sched' s',
       run srv clock (sched ++ sched') (init ids) = Some s'
       /\ exit_code s' = Some 1.
Proof.
  intros Hin He HR.
  assert (forall s0, Inv srv clock ids s0 -> exit_code s0 <> Some 0) as Hnot.
  { intros s0 HI Hx.
    destruct (normal_exit_all_done ids s0 HI Hx) as [Hc Hd].
    rewrite <- Hc in Hin. apply in_map_iff in Hin.
    destruct Hin as [l [Hl Hinl]]. subst id.
    pose proof (failing_lister_at_call ids s0 l e HI Hinl He) as Hp.
    rewrite Forall_forall in Hd. rewrite (Hd l Hinl) in Hp. discriminate. }
  assert (Inv srv clock ids s) as HI
    by (apply Inv_reachable; exists sched; exact HR).
  split; [apply Hnot; exact HI|].
  destruct (run_to_exit ids (measure srv s) s (le_n _) HI)
    as [sched' [s' [HR' Hx']]].
  exists sched', s'. rewrite (run_app _ _ _ _ HR). split; [exact HR'|].
  assert (Inv srv clock ids s') as HI' by (apply (Inv_run srv clock ids sched' s); assumption).
  destruct (Inv_exit_code ids s' HI') as [Hex|[Hex|Hex]];
    [contradiction | | exact Hex].
  exfalso. apply (Hnot s' HI' Hex).
Qed.

(** X7.  When the listing of every course succeeds, no run ends with the exit
    code 1, and every run can be continued to the normal exit, where the
    output holds the line of each visible assignment exactly once. *)
Theorem all_listings_succeed_run_completes (ids : list string)
    (sched : list action) (s : state) :
  (forall id, In id ids -> exists r, CourseWork_List srv id = Ok r) ->
  run srv clock sched (init ids) = Some s ->
  exit_code s <> Some 1
  /\ exists sched' s',
       run srv clock (sched ++ sched') (init ids) = Some s'
       /\ exit_code s' = Some 0
       /\ Permutation (out s') (map printLine (allVisible srv clock ids)).
Proof.
  intros Hall HR.
  assert (forall sch s0, run srv clock sch (init ids) = Some s0 ->
                         exit_code s0 <> Some 1) as Hnot.
  { intros sch s0 HR0 Hx.
    destruct (fatal_exit_has_cause ids sch s0 HR0 Hx) as [id [e [Hin He]]].
    destruct (Hall id Hin) as [r Hr]. congruence. }
  split; [apply (Hnot sched s HR)|].
  assert (Inv srv clock ids s) as HI
    by (apply Inv_reachable; exists sched; exact HR).
  destruct (run_to_exit ids (measure srv s) s (le_n _) HI)
    as [sched' [s' [HR' Hx']]].
  assert (run srv clock (sched ++ sched') (init ids) = Some s') as HR2
    by (rewrite (run_app _ _ _ _ HR); exact HR').
  assert (Inv srv clock ids s') as HI'
    by (apply Inv_reachable; exists (sched ++ sched'); exact HR2).
  assert (exit_code s' = Some 0) as H0.
  { destruct (Inv_exit_code ids s' HI') as [Hex|[Hex|Hex]];
      [contradiction | exact Hex |].
    exfalso. apply (Hnot _ _ HR2 Hex). }
  exists sched', s'. split; [exact HR2|]. split; [exact H0|].
  apply (normal_exit_output srv clock ids s' HI' H0).
Qed.

(** X8.  At every moment of every run, also of one that ends fatally, no line
    has been printed more often than there are visible assignments with
    that line. *)
Theorem printed_lines_never_exceed_visible (ids : list string)
    (sched : list action) (s : state) (x : string) :
  run srv clock sched (init ids) = Some s ->
  (count_occ string_dec (out s) x
   <= count_occ string_dec (map printLine (allVisible srv clock ids)) x)%nat.
Proof.
  intros HR.
  assert (Inv srv clock ids s) as HI
    by (apply Inv_reachable; exists sched; exact HR).
  destruct HI as [_ _ _ _ _ _ _ Hd].
  rewrite count_allVisible, <- (Hd x). lia.
Qed.

(** X9.  The counter of [wg] is the number of listers that have not finished,
    and the counter of the [wg2] of each lister is the number of its
    workers that have not finished. *)
Theorem waitgroups_count_unfinished (ids : list string)
    (sched : list action) (s : state) :
  run srv clock sched (init ids) = Some s ->
  wg s = sum_of live_lister (listers s)
  /\ Forall (fun l => wg2 l = sum_of live_worker (workers l)) (listers s).
Proof.
  intros HR.
  assert (Inv srv clock ids s) as HI
    by (apply Inv_reachable; exists sched; exact HR).
  destruct HI as [Hwg Hls _ _ _ _ _ _]. split; [exact Hwg|].
  revert Hls. apply Forall_impl. intros l Hl. apply Hl.
Qed.

(** X10.  One lister is started per course, in the order of the list of
    courses; the main goroutine receives and the channel is closed only
    when all of them have been started. *)
Theorem listers_follow_courses (ids : list string)
    (sched : list action) (s : state) :
  run srv clock sched (init ids) = Some s ->
  map course (listers s) ++ unspawned (main s) = ids
  /\ (closer s <> KNone -> map course (listers s) = ids).
Proof.
  intros HR.
  assert (Inv srv clock ids s) as HI
    by (apply Inv_reachable; exists sched; exact HR).
  destruct HI as [_ _ Hk _ _ _ Hc _]. split; [exact Hc|].
  intros Hn. rewrite <- Hc.
  destruct (closer s); [contradiction| |];
    destruct Hk as [Hm _]; destruct (main s); cbn; rewrite ?app_nil_r;
    try reflexivity; exfalso; apply (Hm _ eq_refl).
Qed.

End ProcessMore.

Lemma listing_failure_ends_every_run_fatally_witness :
  exists sched' s',
    run Example.srv Example.clock ([MainStep] ++ sched')
      (init ["C1"; "CX"]%string) = Some s'
    /\ exit_code s' = Some 1.
Proof.
  eapply (fun s H1 H2 H3 =>
            proj2 (listing_failure_ends_every_run_fatally Example.srv
                     Example.clock ["C1"; "CX"]%string [MainStep] s
                     "CX"%string (RemoteError "transport") H1 H2 H3)).
  - right. left. reflexivity.
  - reflexivity.
  - vm_compute. reflexivity.
Defined.

Lemma all_listings_succeed_run_completes_witness :
  exists sched' s',
    run Example.srv Example.clock ([MainStep] ++ sched')
      (init ["C0"; "C1"]%string) = Some s'
    /\ exit_code s' = Some 0
    /\ Permutation (out s')
         (map printLine
            (allVisible Example.srv Example.clock ["C0"; "C1"]%string)).
Proof.
  eapply (fun s H1 H2 =>
            proj2 (all_listings_succeed_run_completes Example.srv
                     Example.clock ["C0"; "C1"]%string [MainStep] s H1 H2)).
  - intros id [<-|[<-|[]]]; eexists; reflexivity.
  - vm_compute. reflexivity.
Defined.

Lemma printed_lines_never_exceed_visible_witness :
  exists s,
    run Example.srv Example.clock Example.schedule (init ["C0"; "C1"]%string)
    = Some s
    /\ (count_occ string_dec (out s) (printLine Example.A2)
        <= count_occ string_dec
             (map printLine
                (allVisible Example.srv Example.clock ["C0"; "C1"]%string))
             (printLine Example.A2))%nat.
Proof.
  eexists. split; [vm_compute; reflexivity|].
  apply (printed_lines_never_exceed_visible Example.srv Example.clock
           ["C0"; "C1"]%string Example.schedule).
  vm_compute. reflexivity.
Defined.

Lemma waitgroups_count_unfinished_witness :
  exists s,
    run Example.srv Example.clock
      [MainStep; MainStep; MainStep; ListerStep 1; ListerStep 1]
      (init ["C0"; "C1"]%string) = Some s
    /\ wg s = 2%nat
    /\ Forall (fun l => wg2 l = sum_of live_worker (workers l)) (listers s).
Proof.
  eexists. split; [vm_compute; reflexivity|].
  apply (waitgroups_count_unfinished Example.srv Example.clock
           ["C0"; "C1"]%string
           [MainStep; MainStep; MainStep; ListerStep 1; ListerStep 1]).
  vm_compute. reflexivity.
Defined.

Lemma listers_follow_courses_witness :
  exists s,
    run Example.srv Example.clock [MainStep] (init ["C0"; "C1"]%string)
    = Some s
    /\ map course (listers s) ++ unspawned (main s) = ["C0"; "C1"]%string.
Proof.
  eexists. split; [vm_compute; reflexivity|].
  apply (listers_follow_courses Example.srv Example.clock
           ["C0"; "C1"]%string [MainStep]).
  vm_compute. reflexivity.
Defined.

Lemma no_panic_witness :
  exists s,
    run Example.srv Example.clock
      ([MainStep; MainStep; ListerStep 0; ListerStep 0; ListerStep 0;
        WorkerStep 0 1])
      (init ["C1"%string]) = Some s
    /\ worker_at s 0 1 = Some (WSend Example.A2)
    /\ closed s = false.
Proof.
  eexists. split; [vm_compute; reflexivity|].
  split; [vm_compute; reflexivity|].
  refine (proj2 (proj2 (proj2 (no_panic Example.srv Example.clock
            ["C1"%string] _ _))) 0%nat 1%nat Example.A2 _).
  - exists [MainStep; MainStep; ListerStep 0; ListerStep 0; ListerStep 0;
            WorkerStep 0 1].
    vm_compute. reflexivity.
  - vm_compute. reflexivity.
Defined.

(** ** The lister of [src/trace/main.go] *)

Section TraceProofs.

Variable srv : Service.
Variable clock : CourseWork -> time.Time * time.Time.

Lemma upd_map {A B : Type} (f : A -> B) (i : nat) (x : A) (l : list A) :
  map f (upd i x l) = upd i (f x) (map f l).
Proof.
  revert i. induction l as [|h t IH]; intros [|i]; cbn; try reflexivity.
  rewrite IH. reflexivity.
Qed.

Lemma Forall_upd {A : Type} (P : A -> Prop) (i : nat) (x : A) (l : list A) :
  Forall P l -> P x -> Forall P (upd i x l).
Proof.
  intros Hl Hx. revert i. induction Hl as [|h t Hh Ht IH]; intros [|i]; cbn;
    constructor; auto.
Qed.

Lemma upd_same {A : Type} (i : nat) (x : A) (l : list A) :
  nth_error l i = Some x -> upd i x l = l.
Proof.
  revert i. induction l as [|h t IH]; intros [|i] H; cbn in *;
    try discriminate.
  - injection H as ->. reflexivity.
  - rewrite (IH i H). reflexivity.
Qed.

Lemma as_main_set_lister (i : nat) (l : lister) (s : state) :
  as_main srv (set_lister i l s)
  = set_lister i (early_return srv l) (as_main srv s).
Proof. unfold as_main, set_lister. cbn. rewrite upd_map. reflexivity. Qed.

Lemma early_pc_fixed (id : string) (p : lister_pc) :
  (forall todo, p <> LLoop todo) -> p <> LWait -> early_pc srv id p = p.
Proof.
  intros H1 H2. unfold early_pc.
  destruct (CourseWork_List srv id) as [[|c r]|e]; try reflexivity.
  destruct p; try reflexivity; [exfalso; eapply H1; reflexivity | contradiction].
Qed.

Lemma early_pc_nonempty (id : string) (p : lister_pc) :
  CourseWork_List srv id <> Ok [] -> early_pc srv id p = p.
Proof.
  intros H. unfold early_pc.
  destruct (CourseWork_List srv id) as [[|c r]|e]; try reflexivity.
  contradiction.
Qed.

Lemma nth_error_as_main (s : state) (i : nat) :
  nth_error (listers (as_main srv s)) i
  = option_map (early_return srv) (nth_error (listers s) i).
Proof. unfold as_main. cbn. apply nth_error_map. Qed.

(** A step of the lister of [src/trace/main.go] is a step of the lister of
    [src/main.go], or one of the two steps that the early return skips. *)
Lemma trace_lister_simulated (i : nat) (s s' : state) :
  Forall (loop_in_listing srv) (listers s) ->
  listCourseWorkFromCourseId_trace srv i s = Some s' ->
  Forall (loop_in_listing srv) (listers s')
  /\ (as_main srv s' = as_main srv s
      \/ listCourseWorkFromCourseId srv i (as_main srv s)
         = Some (as_main srv s')).
Proof.
  intros HT. unfold listCourseWorkFromCourseId_trace, listCourseWorkFromCourseId.
  rewrite nth_error_as_main.
  destruct (nth_error (listers s) i) as [l|] eqn:El; [|discriminate].
  cbn [option_map].
  assert (loop_in_listing srv l) as Hl
    by (rewrite Forall_forall in HT; apply HT; apply (nth_error_In _ _ El)).
  assert (forall l', loop_in_listing srv l' ->
            Forall (loop_in_listing srv) (listers (set_lister i l' s))) as HU.
  { intros l' Hl'. unfold set_lister. cbn. apply Forall_upd; assumption. }
  assert (forall l', as_main srv (set_lister i l' s) = as_main srv s ->
            as_main srv (set_lister i l' s) = as_main srv s
            \/ False) as _ by auto.
  destruct l as [id p g ws]. unfold early_return.
  cbn [course pc wg2 workers] in *.
  destruct p as [|[|c todo]| | |].
  - (* the listing call *)
    rewrite (early_pc_fixed id LList) by discriminate.
    destruct (CourseWork_List srv id) as [r|err] eqn:Er.
    + intros H. injection H as <-. split.
      * apply HU. intros todo E. cbn in E. injection E as <-.
        exists r, []. split; [exact Er | reflexivity].
      * right. rewrite as_main_set_lister. unfold early_return, early_pc.
        cbn [course pc wg2 workers]. rewrite Er.
        destruct r as [|c r]; reflexivity.
    + intros H. injection H as <-. split; [exact HT|]. right. reflexivity.
  - (* the end of the loop *)
    intros H. injection H as <-. split; [apply HU; intros todo E; discriminate|].
    rewrite as_main_set_lister. unfold early_return, early_pc.
    cbn [course pc wg2 workers].
    destruct (CourseWork_List srv id) as [[|c r]|err] eqn:Er.
    + left. unfold as_main, set_lister. cbn. f_equal.
      apply upd_same. rewrite nth_error_map, El. cbn.
      unfold early_return, early_pc. cbn. rewrite Er. reflexivity.
    + right. reflexivity.
    + right. reflexivity.
  - (* the start of a worker *)
    destruct (Hl _ eq_refl) as [r [done [Er Hr]]].
    cbn [course] in Er.
    assert (CourseWork_List srv id <> Ok []) as Hne.
    { rewrite Er. intros E. injection E as E. subst r.
      destruct done; discriminate. }
    rewrite (early_pc_nonempty id _ Hne).
    intros H. injection H as <-. split.
    + apply HU. intros todo' E. cbn in E. injection E as <-.
      exists r, (done ++ [c]). split; [exact Er|].
      rewrite <- app_assoc. exact Hr.
    + right. rewrite as_main_set_lister. unfold early_return.
      cbn [course pc wg2 workers]. rewrite (early_pc_nonempty id _ Hne).
      reflexivity.
  - (* wg2.Wait() *)
    destruct (Nat.eqb g 0) eqn:Eg; [|discriminate].
    intros H. injection H as <-. split; [apply HU; intros todo E; discriminate|].
    rewrite as_main_set_lister. unfold early_return, early_pc.
    cbn [course pc wg2 workers].
    destruct (CourseWork_List srv id) as [[|c r]|err] eqn:Er.
    + left. unfold as_main, set_lister. cbn. f_equal.
      apply upd_same. rewrite nth_error_map, El. cbn.
      unfold early_return, early_pc. cbn. rewrite Er. reflexivity.
    + right. reflexivity.
    + right. reflexivity.
  - (* the deferred wg.Done() *)
    rewrite (early_pc_fixed id LExit) by discriminate.
    change (wg (as_main srv s)) with (wg s).
    destruct (wg s) as [|n]; [discriminate|].
    intros H. injection H as <-. split.
    + unfold set_wg. cbn [listers]. apply HU. intros todo E. discriminate.
    + right. unfold set_wg. cbn [main wg closer closed closes listers out exit_code].
      f_equal. unfold as_main, set_lister. cbn. rewrite upd_map.
      unfold early_return. cbn. rewrite (early_pc_fixed id LDone) by discriminate.
      reflexivity.
  - rewrite (early_pc_fixed id LDone) by discriminate. discriminate.
Qed.

Lemma early_return_new (id : string) :
  early_return srv (mkLister id LList 0 []) = mkLister id LList 0 [].
Proof.
  unfold early_return. cbn. rewrite early_pc_fixed by discriminate. reflexivity.
Qed.

Lemma trace_main_simulated (s s' : state) :
  Forall (loop_in_listing srv) (listers s) ->
  _main s = Some s' ->
  Forall (loop_in_listing srv) (listers s')
  /\ _main (as_main srv s) = Some (as_main srv s').
Proof.
  intros HT. unfold _main. change (main (as_main srv s)) with (main s).
  change (closer (as_main srv s)) with (closer s).
  change (closed (as_main srv s)) with (closed s).
  destruct (main s) as [[|id rest]| |c|].
  - destruct (closer s); try discriminate. intros H; injection H as <-.
    split; [exact HT | reflexivity].
  - intros H; injection H as <-. split.
    + cbn. apply Forall_app. split; [exact HT|]. constructor; [|constructor].
      intros todo E. discriminate.
    + unfold as_main. cbn. rewrite map_app. cbn. rewrite early_return_new.
      reflexivity.
  - destruct (closed s); [|discriminate]. intros H; injection H as <-.
    split; [exact HT | reflexivity].
  - intros H; injection H as <-. split; [exact HT | reflexivity].
  - discriminate.
Qed.

Lemma trace_closer_simulated (s s' : state) :
  Forall (loop_in_listing srv) (listers s) ->
  closer_step s = Some s' ->
  Forall (loop_in_listing srv) (listers s')
  /\ closer_step (as_main srv s) = Some (as_main srv s').
Proof.
  intros HT. unfold closer_step.
  change (closer (as_main srv s)) with (closer s).
  change (closed (as_main srv s)) with (closed s).
  change (wg (as_main srv s)) with (wg s).
  destruct (closer s); try discriminate.
  destruct (Nat.eqb (wg s) 0 && negb (closed s)); [|discriminate].
  intros H; injection H as <-. split; [exact HT | reflexivity].
Qed.

Lemma trace_worker_simulated (i j : nat) (s s' : state) :
  Forall (loop_in_listing srv) (listers s) ->
  worker_step srv clock i j s = Some s' ->
  Forall (loop_in_listing srv) (listers s')
  /\ worker_step srv clock i j (as_main srv s) = Some (as_main srv s').
Proof.
  intros HT. unfold worker_step. rewrite nth_error_as_main.
  change (main (as_main srv s)) with (main s).
  change (closed (as_main srv s)) with (closed s).
  destruct (nth_error (listers s) i) as [l|] eqn:El; [|discriminate].
  cbn [option_map].
  assert (loop_in_listing srv l) as Hl
    by (rewrite Forall_forall in HT; apply HT; apply (nth_error_In _ _ El)).
  assert (forall g ws,
            Forall (loop_in_listing srv)
              (listers (set_lister i (mkLister (course l) (pc l) g ws) s)))
    as HU.
  { intros g ws. unfold set_lister. cbn. apply Forall_upd; [exact HT|].
    intros todo E. apply (Hl todo E). }
  assert (forall g ws,
            as_main srv (set_lister i (mkLister (course l) (pc l) g ws) s)
            = set_lister i
                (mkLister (course (early_return srv l))
                   (pc (early_return srv l)) g ws) (as_main srv s)) as HA.
  { intros g ws. rewrite as_main_set_lister. reflexivity. }
  change (workers (early_return srv l)) with (workers l).
  change (wg2 (early_return srv l)) with (wg2 l).
  destruct (nth_error (workers l) j) as [[c|c| |]|]; try discriminate.
  - intros H; injection H as <-. split; [apply HU|]. rewrite HA. reflexivity.
  - destruct (main s); try discriminate. destruct (closed s); [discriminate|].
    intros H; injection H as <-. split; [apply HU|].
    change (as_main srv (set_main (MPrint c) ?x))
      with (set_main (MPrint c) (as_main srv x)).
    unfold set_main at 1. cbn [main wg closer closed closes listers out exit_code].
    rewrite <- HA. reflexivity.
  - destruct (wg2 l); [discriminate|].
    intros H; injection H as <-. split; [apply HU|]. rewrite HA. reflexivity.
Qed.

Lemma trace_step_simulated (a : action) (s s' : state) :
  Forall (loop_in_listing srv) (listers s) ->
  step_trace srv clock a s = Some s' ->
  Forall (loop_in_listing srv) (listers s')
  /\ (as_main srv s' = as_main srv s
      \/ step srv clock a (as_main srv s) = Some (as_main srv s')).
Proof.
  intros HT. unfold step_trace, step.
  change (exit_code (as_main srv s)) with (exit_code s).
  destruct (exit_code s); [discriminate|].
  destruct a as [| |i|i j]; intros H.
  - destruct (trace_main_simulated s s' HT H). auto.
  - destruct (trace_closer_simulated s s' HT H). auto.
  - apply (trace_lister_simulated i s s' HT H).
  - destruct (trace_worker_simulated i j s s' HT H). auto.
Qed.

Lemma trace_run_simulated (sched : list action) (s0 s : state) :
  Forall (loop_in_listing srv) (listers s0) ->
  run_trace srv clock sched s0 = Some s ->
  exists sched', run srv clock sched' (as_main srv s0) = Some (as_main srv s)
                 /\ (List.length sched' <= List.length sched)%nat.
Proof.
  revert s0. induction sched as [|a rest IH]; intros s0 HT HR; cbn in HR.
  - injection HR as <-. exists []. split; [reflexivity | cbn; lia].
  - destruct (step_trace srv clock a s0) as [s1|] eqn:E; [|discriminate].
    destruct (trace_step_simulated a s0 s1 HT E) as [HT1 Hsim].
    destruct (IH s1 HT1 HR) as [sched' [HR' HL]].
    destruct Hsim as [Heq|Hstep].
    + exists sched'. rewrite <- Heq. split; [exact HR' | cbn; lia].
    + exists (a :: sched'). cbn. rewrite Hstep. split; [exact HR' | lia].
Qed.

(** X11.  The process with the lister of [src/trace/main.go] does what the
    process of [src/main.go] does: every state of its runs is reached by a
    run of [src/main.go] that is not longer, with the same output, the same
    exit code and the same state of the main goroutine and of the channel;
    so it never prints a line more often than there are visible
    assignments with it, and a normal exit has printed the line of each
    visible assignment exactly once. *)
Theorem trace_lister_refines_main (ids : list string) (sched : list action)
    (s : state) :
  run_trace srv clock sched (init ids) = Some s ->
  (exists sched' s0,
     run srv clock sched' (init ids) = Some s0
     /\ (List.length sched' <= List.length sched)%nat
     /\ out s0 = out s /\ exit_code s0 = exit_code s
     /\ main s0 = main s /\ closed s0 = closed s /\ wg s0 = wg s)
  /\ (forall x,
        count_occ string_dec (out s) x
        <= count_occ string_dec
             (map printLine (allVisible srv clock ids)) x)%nat
  /\ (exit_code s = Some 0 ->
      Permutation (out s) (map printLine (allVisible srv clock ids))).
Proof.
  intros HR.
  destruct (trace_run_simulated sched (init ids) s (Forall_nil _) HR)
    as [sched' [HR' HL]].
  change (as_main srv (init ids)) with (init ids) in HR'.
  assert (Inv srv clock ids (as_main srv s)) as HI
    by (apply Inv_reachable; exists sched'; exact HR').
  split; [|split].
  - exists sched', (as_main srv s). repeat split; assumption.
  - intros x. destruct HI as [_ _ _ _ _ _ _ Hd].
    rewrite count_allVisible, <- (Hd x). cbn [out as_main]. lia.
  - intros Hx. apply (normal_exit_output srv clock ids (as_main srv s) HI Hx).
Qed.

End TraceProofs.

Lemma trace_lister_refines_main_witness :
  exists s,
    run_trace Example.srv Example.clock
      ([MainStep; MainStep] ++ repeat (ListerStep 0) 4
       ++ [CloserStep; MainStep])
      (init ["C0"%string]) = Some s
    /\ exit_code s = Some 0
    /\ exists sched' s0,
         run Example.srv Example.clock sched' (init ["C0"%string]) = Some s0
         /\ (List.length sched' <= 8)%nat
         /\ out s0 = out s /\ exit_code s0 = exit_code s
         /\ main s0 = main s /\ closed s0 = closed s /\ wg s0 = wg s.
Proof.
  eexists. split; [vm_compute; reflexivity|]. split; [reflexivity|].
  refine (proj1 (trace_lister_refines_main Example.srv Example.clock
                   ["C0"%string]
                   ([MainStep; MainStep] ++ repeat (ListerStep 0) 4
                    ++ [CloserStep; MainStep]) _ _)).
  vm_compute. reflexivity.
Defined.

(** ** The sequential [main] *)

Section SequentialProofs.

Variable srv : Service.
Variable clock : CourseWork -> time.Time * time.Time.

Lemma courseWorkLoop_spec (r : list CourseWork) :
  if forallb (Sequential.parses clock) r
  then Sequential.courseWorkLoop clock r
       = (map printLine (filter (Sequential.passesDate clock) r), false)
  else exists lines err,
         Sequential.courseWorkLoop clock r
         = (lines ++ [Sequential.errorLine err], true).
Proof.
  induction r as [|c r IH]; [reflexivity|].
  cbn [forallb Sequential.courseWorkLoop filter].
  unfold Sequential.parses at 1, Sequential.passesDate at 1.
  destruct (time.Parse_2006_01_02 _) as [parsedDate|err].
  - cbn [andb]. destruct (forallb (Sequential.parses clock) r).
    + rewrite IH. destruct (time.Before _ _); reflexivity.
    + destruct IH as [lines [err E]]. rewrite E.
      destruct (time.Before _ _).
      * exists lines, err. reflexivity.
      * exists (printLine c :: lines), err. reflexivity.
  - exists [], err. reflexivity.
Qed.

(** X12.  [main] over two lists of courses in a row: when it finishes the
    first list it goes on with the second, and what it printed and listed
    is what it prints and lists for each; when it stops in the first list,
    on a date or on a listing, the second list is never reached. *)
Theorem sequential_main_app (ids1 ids2 : list string) :
  Sequential.main srv clock (ids1 ++ ids2) =
  match Sequential.ended (Sequential.main srv clock ids1) with
  | Sequential.Finished =>
      Sequential.mkResult
        (Sequential.printed (Sequential.main srv clock ids1)
         ++ Sequential.printed (Sequential.main srv clock ids2))
        (Sequential.listed (Sequential.main srv clock ids1)
         ++ Sequential.listed (Sequential.main srv clock ids2))
        (Sequential.ended (Sequential.main srv clock ids2))
  | _ => Sequential.main srv clock ids1
  end.
Proof.
  induction ids1 as [|id ids1 IH].
  - cbn. destruct (Sequential.main srv clock ids2). reflexivity.
  - cbn [app Sequential.main].
    destruct (CourseWork_List srv id) as [r|err]; [|reflexivity].
    destruct (Z.of_nat (List.length r) <=? 0).
    + rewrite IH. cbn [Sequential.ended].
      destruct (Sequential.ended (Sequential.main srv clock ids1)) eqn:E;
        cbn [Sequential.printed Sequential.listed Sequential.ended app];
        rewrite ?E; reflexivity.
    + destruct (Sequential.courseWorkLoop clock r) as [lines [|]];
        [reflexivity|].
      rewrite IH. cbn [Sequential.ended].
      destruct (Sequential.ended (Sequential.main srv clock ids1)) eqn:E;
        cbn [Sequential.printed Sequential.listed Sequential.ended app];
        rewrite ?E, <- ?app_assoc; reflexivity.
Qed.

(** X13.  [main] reaches its end exactly when every course is listed without
    error and the date of every listed assignment parses. *)
Theorem sequential_main_finishes_iff (ids : list string) :
  Sequential.ended (Sequential.main srv clock ids) = Sequential.Finished
  <-> forall id, In id ids ->
        exists r, CourseWork_List srv id = Ok r
                  /\ forall c, In c r -> Sequential.parses clock c = true.
Proof.
  induction ids as [|id ids IH].
  - split; [intros _ id [] | reflexivity].
  - cbn [Sequential.main].
    destruct (CourseWork_List srv id) as [r|err] eqn:Er.
    + pose proof (courseWorkLoop_spec r) as HS.
      assert (forall A (X Y : A),
                (if Z.of_nat (List.length r) <=? 0 then X else Y)
                = match r with [] => X | _ => Y end) as Hlen
        by (intros; destruct r; reflexivity).
      rewrite Hlen. clear Hlen.
      destruct (forallb (Sequential.parses clock) r) eqn:EF.
      * rewrite forallb_forall in EF.
        assert (Sequential.ended
                  match r with
                  | [] =>
                      Sequential.mkResult
                        (Sequential.noCourseWorkLine
                         :: Sequential.printed (Sequential.main srv clock ids))
                        (id :: Sequential.listed (Sequential.main srv clock ids))
                        (Sequential.ended (Sequential.main srv clock ids))
                  | _ :: _ =>
                      let '(lines, stop) := Sequential.courseWorkLoop clock r in
                      if stop
                      then Sequential.mkResult (Sequential.headerLine :: lines)
                             [id] Sequential.StoppedOnParseError
                      else Sequential.mkResult
                             (Sequential.headerLine
                              :: lines
                                 ++ Sequential.printed (Sequential.main srv clock ids))
                             (id :: Sequential.listed (Sequential.main srv clock ids))
                             (Sequential.ended (Sequential.main srv clock ids))
                  end
                = Sequential.ended (Sequential.main srv clock ids)) as ->.
        { destruct r; [reflexivity|]. rewrite HS. reflexivity. }
        rewrite IH. split.
        -- intros H id' [<-|Hin]; [|apply H; exact Hin].
           exists r. split; [exact Er | exact EF].
        -- intros H id' Hin. apply H. right. exact Hin.
      * destruct HS as [lines [err E]].
        destruct r as [|c r]; [discriminate|]. rewrite E.
        cbn [Sequential.ended]. split; [discriminate|].
        intros H. destruct (H id (or_introl eq_refl)) as [r' [Er' Hp]].
        rewrite Er in Er'. injection Er' as <-.
        assert (forallb (Sequential.parses clock) (c :: r) = true) as Ht
          by (apply forallb_forall; exact Hp).
        congruence.
    + cbn [Sequential.ended]. split; [discriminate|].
      intros H. destruct (H id (or_introl eq_refl)) as [r' [Er' _]].
      congruence.
Qed.

(** A listing with an assignment whose date does not parse has a first
    such assignment. *)
Lemma first_unparsed (r : list CourseWork) :
  forallb (Sequential.parses clock) r = false ->
  exists before c after err,
    r = before ++ c :: after
    /\ forallb (Sequential.parses clock) before = true
    /\ time.Parse_2006_01_02 (dateString (fst (clock c)) c) = Err err.
Proof.
  induction r as [|c r IH]; [discriminate|].
  cbn [forallb]. unfold Sequential.parses at 1.
  destruct (time.Parse_2006_01_02 (dateString (fst (clock c)) c))
    as [parsedDate|err] eqn:EP.
  - cbn [andb]. intros H.
    destruct (IH H) as [before [c' [after [err [-> [Hb Hc]]]]]].
    exists (c :: before), c', after, err. split; [reflexivity|].
    split; [|exact Hc].
    cbn [forallb]. unfold Sequential.parses at 1. rewrite EP. exact Hb.
  - intros _. exists [], c, r, err. repeat split. exact EP.
Qed.

(** The loop over a listing stops at the first assignment whose date does
    not parse, after the lines of the assignments before it that pass the
    date test, with the line of the error. *)
Lemma courseWorkLoop_stops (before after : list CourseWork) (c : CourseWork)
    (err : error) :
  forallb (Sequential.parses clock) before = true ->
  time.Parse_2006_01_02 (dateString (fst (clock c)) c) = Err err ->
  Sequential.courseWorkLoop clock (before ++ c :: after)
  = (map printLine (filter (Sequential.passesDate clock) before)
     ++ [Sequential.errorLine err], true).
Proof.
  intros Hb Hc. induction before as [|b before IH].
  - cbn [app Sequential.courseWorkLoop filter map]. rewrite Hc. reflexivity.
  - cbn [forallb] in Hb. apply andb_prop in Hb. destruct Hb as [Hp Hb].
    cbn [app Sequential.courseWorkLoop filter].
    unfold Sequential.parses in Hp. unfold Sequential.passesDate at 1.
    destruct (time.Parse_2006_01_02 (dateString (fst (clock b)) b))
      as [parsedDate|e]; [|discriminate].
    rewrite (IH Hb).
    destruct (time.Before _ _); reflexivity.
Qed.

(** X14.  When the date of an assignment of a course does not parse, [main]
    stops at the first such assignment of the listing: it has printed the
    header, the lines of the assignments before it that pass the date
    test, and last the line [Error parsing date:] with the message of that
    parse error; the course is the last one listed, the courses that
    follow are never looked at, and the process ends with exit code 0. *)
Theorem sequential_parse_error_stops_main (id : string) (rest : list string)
    (r : list CourseWork) (c : CourseWork) :
  CourseWork_List srv id = Ok r -> In c r ->
  Sequential.parses clock c = false ->
  exists before c' after err,
    r = before ++ c' :: after
    /\ (forall b, In b before -> Sequential.parses clock b = true)
    /\ time.Parse_2006_01_02 (dateString (fst (clock c')) c') = Err err
    /\ Sequential.main srv clock (id :: rest)
       = Sequential.mkResult
           (Sequential.headerLine
            :: map printLine (filter (Sequential.passesDate clock) before)
               ++ [("Error parsing date: " ++ Sequential.Error err
                    ++ Sequential.newline)%string])
           [id] Sequential.StoppedOnParseError
    /\ Sequential.main srv clock (id :: rest) = Sequential.main srv clock [id]
    /\ Sequential.exit_code_of
         (Sequential.ended (Sequential.main srv clock (id :: rest))) = 0.
Proof.
  intros Er Hin Hp.
  assert (forallb (Sequential.parses clock) r = false) as EF.
  { destruct (forallb (Sequential.parses clock) r) eqn:E; [|reflexivity].
    rewrite forallb_forall in E. rewrite (E c Hin) in Hp. discriminate. }
  destruct (first_unparsed r EF) as [before [c' [after [err [-> [Hb Hc]]]]]].
  exists before, c', after, err.
  split; [reflexivity|].
  split; [rewrite forallb_forall in Hb; exact Hb|].
  split; [exact Hc|].
  assert (forall rest',
            Sequential.main srv clock (id :: rest')
            = Sequential.mkResult
                (Sequential.headerLine
                 :: map printLine
                      (filter (Sequential.passesDate clock) before)
                    ++ [Sequential.errorLine err])
                [id] Sequential.StoppedOnParseError) as HM.
  { intros rest'. cbn [Sequential.main]. rewrite Er.
    replace (Z.of_nat (List.length (before ++ c' :: after)) <=? 0) with false
      by (symmetry; apply Z.leb_gt; rewrite length_app; cbn [List.length]; lia).
    rewrite (courseWorkLoop_stops before after c' err Hb Hc). reflexivity. }
  split; [apply HM|]. split; [rewrite (HM rest), (HM []); reflexivity|].
  rewrite (HM rest). reflexivity.
Qed.

Lemma visibleNow_passesDate (c : CourseWork) :
  visibleNow srv clock c = true -> Sequential.passesDate clock c = true.
Proof.
  unfold visibleNow, isCourseworkVisible, Sequential.passesDate.
  destruct (time.Parse_2006_01_02 _); [|discriminate].
  destruct (time.Before _ _); [discriminate | reflexivity].
Qed.

Lemma due_le_passesDate (x : string) (r : list CourseWork) :
  (sum_of (due_of_item srv clock x) r
   <= count_occ string_dec
        (map printLine (filter (Sequential.passesDate clock) r)) x)%nat.
Proof.
  induction r as [|c r IH]; cbn; [lia|].
  unfold due_of_item at 1, is_line.
  destruct (visibleNow srv clock c) eqn:Ev.
  - rewrite (visibleNow_passesDate c Ev). cbn.
    destruct (string_dec (printLine c) x); lia.
  - destruct (Sequential.passesDate clock c); cbn;
      [destruct (string_dec (printLine c) x)|]; lia.
Qed.

Lemma due_le_sequential (x : string) (ids : list string) :
  Sequential.ended (Sequential.main srv clock ids) = Sequential.Finished ->
  (sum_of (due_of_course srv clock x) ids
   <= count_occ string_dec
        (Sequential.printed (Sequential.main srv clock ids)) x)%nat.
Proof.
  induction ids as [|id ids IH]; [cbn; lia|].
  cbn [Sequential.main sum_of]. unfold due_of_course at 1.
  destruct (CourseWork_List srv id) as [r|err]; [|discriminate].
  pose proof (courseWorkLoop_spec r) as HS.
  pose proof (due_le_passesDate x r) as HD.
  destruct r as [|c r].
  - change (Z.of_nat (List.length (@nil CourseWork)) <=? 0) with true.
    cbn iota. cbn [Sequential.ended Sequential.printed count_occ sum_of].
    intros H. specialize (IH H).
    destruct (string_dec Sequential.noCourseWorkLine x); lia.
  - change (Z.of_nat (List.length (c :: r)) <=? 0) with false. cbn iota.
    destruct (forallb (Sequential.parses clock) (c :: r)).
    + rewrite HS. cbn [Sequential.ended Sequential.printed].
      intros H. specialize (IH H).
      cbn [count_occ]. rewrite count_occ_app.
      destruct (string_dec Sequential.headerLine x); lia.
    + destruct HS as [lines [err E]]. rewrite E. discriminate.
Qed.

(** X15.  The concurrent program prints no more than the sequential [main]:
    when [main] reaches its end, every line that a run of [_main] has
    printed, over the same courses and with the same readings of the clock,
    is printed by [main] at least as often. *)
Theorem concurrent_prints_within_sequential (ids : list string)
    (sched : list action) (s : state) (x : string) :
  Sequential.ended (Sequential.main srv clock ids) = Sequential.Finished ->
  run srv clock sched (init ids) = Some s ->
  (count_occ string_dec (out s) x
   <= count_occ string_dec
        (Sequential.printed (Sequential.main srv clock ids)) x)%nat.
Proof.
  intros HF HR.
  assert (Inv srv clock ids s) as HI
    by (apply Inv_reachable; exists sched; exact HR).
  destruct HI as [_ _ _ _ _ _ _ Hd].
  pose proof (due_le_sequential x ids HF) as HL.
  specialize (Hd x). lia.
Qed.

End SequentialProofs.

Lemma sequential_parse_error_stops_main_witness :
  Sequential.main Example.srv Example.clock ["C1"; "C0"; "CX"]%string
  = Sequential.main Example.srv Example.clock ["C1"%string]
  /\ Sequential.exit_code_of
       (Sequential.ended
          (Sequential.main Example.srv Example.clock
             ["C1"; "C0"; "CX"]%string)) = 0.
Proof.
  destruct (sequential_parse_error_stops_main Example.srv Example.clock
              "C1"%string ["C0"; "CX"]%string
              [Example.A1; Example.A2; Example.A3; Example.A4; Example.A5;
               Example.A6] Example.A5 eq_refl
              ltac:(cbn; tauto) eq_refl)
    as [before [c' [after [err [_ [_ [_ [_ [H1 H2]]]]]]]]].
  split; [exact H1 | exact H2].
Defined.

Lemma concurrent_prints_within_sequential_witness :
  exists s,
    run Example2.srv Example.clock Example2.schedule (init ["K1"%string])
    = Some s
    /\ exit_code s = Some 0
    /\ out s = [printLine Example.A2; printLine Example.A4]
    /\ (count_occ string_dec (out s) (printLine Example.A2)
        <= count_occ string_dec
             (Sequential.printed
                (Sequential.main Example2.srv Example.clock ["K1"%string]))
             (printLine Example.A2))%nat.
Proof.
  eexists. split; [vm_compute; reflexivity|].
  split; [reflexivity|]. split; [reflexivity|].
  apply (concurrent_prints_within_sequential Example2.srv Example.clock
           ["K1"%string] Example2.schedule).
  - vm_compute. reflexivity.
  - vm_compute. reflexivity.
Defined.

(** ** The stored token *)

Section CredentialsProofs.

Import Credentials.

Variables Token Config Client : Type.
Variable AuthCodeURL : Config -> string.
Variable Exchange : Config -> string -> result Token.
Variable NewClient : Config -> Token -> Client.
Variable Encode : Token -> string.
Variable Decode : string -> result Token.

(** What [getTokenFromWeb] leaves behind: the files as they were, at most
    one word taken from standard input, the prompt printed. *)
Lemma getTokenFromWeb_world config w :
  let w' := world_of (getTokenFromWeb AuthCodeURL Exchange config w) in
  files w' = files w /\ writable w' = writable w /\
  (stdin w' = stdin w \/ stdin w' = tl (stdin w)) /\
  exists line, stdout w' = stdout w ++ [line].
Proof.
  unfold getTokenFromWeb, bind, print, Scan, fatal, ret.
  cbn [stdin files writable stdout].
  destruct (stdin w) as [|word rest]; cbn [world_of].
  - cbn [files writable stdin stdout]. eauto 6.
  - destruct (Exchange config word); cbn [world_of files writable stdin stdout tl];
      eauto 6.
Qed.

(** What [saveToken] leaves behind. *)
Lemma saveToken_world path tok w :
  let w' := world_of (saveToken Encode path tok w) in
  (forall p, p <> path -> files w' p = files w p) /\
  writable w' = writable w /\ stdin w' = stdin w /\
  exists line, stdout w' = stdout w ++ [line].
Proof.
  unfold saveToken, bind, print, writeFile, fatal, ret.
  cbn [stdin files writable stdout].
  destruct (writable w path); cbn [world_of files writable stdin stdout].
  - repeat split; eauto.
    intros p Hp. destruct (String.eqb_spec p path); congruence.
  - repeat split; eauto.
Qed.

(** X16.  A token saved with [saveToken] is the one [tokenFromFile] reads
    back from the same path, when the file can be opened for writing and
    the decoder inverts the encoder on this token. *)
Theorem saved_token_is_read_back path tok w :
  writable w path = true ->
  Decode (Encode tok) = Ok tok ->
  exists w', saveToken Encode path tok w = Returns tt w' /\
             tokenFromFile Decode path w' = Stored tok.
Proof.
  intros Hw Hrt.
  unfold saveToken, bind, print, writeFile, ret.
  cbn [writable files stdin stdout]. rewrite Hw.
  eexists. split; [reflexivity|].
  unfold tokenFromFile. cbn [files].
  rewrite String.eqb_refl, Hrt. reflexivity.
Qed.

(** X17.  After [getClient] has returned, a second call returns the same
    client and leaves the world as it is: it prints no prompt, reads no
    word and writes no file.  The decoder is assumed to invert the
    encoder. *)
Theorem getClient_second_call_is_silent config w cl w' :
  (forall tok, Decode (Encode tok) = Ok tok) ->
  getClient AuthCodeURL Exchange NewClient Encode Decode config w = Returns cl w' ->
  getClient AuthCodeURL Exchange NewClient Encode Decode config w' = Returns cl w'.
Proof.
  intros Hrt H.
  assert (Hweb : (tok <- getTokenFromWeb AuthCodeURL Exchange config ;;
                  saveToken Encode "token.json" tok ;;;
                  ret (NewClient config tok)) w = Returns cl w' ->
                 getClient AuthCodeURL Exchange NewClient Encode Decode config w' = Returns cl w').
  { clear H. unfold bind at 1.
    destruct (getTokenFromWeb AuthCodeURL Exchange config w) as [tok w1|msg w1]; [|discriminate].
    unfold bind at 1.
    destruct (saveToken Encode "token.json" tok w1)
      as [[] w2|msg w2] eqn:Es; [|discriminate].
    unfold ret. intros E. injection E as <- <-.
    assert (Hs : tokenFromFile Decode "token.json" w2 = Stored tok).
    { revert Es.
      unfold saveToken, bind, print, writeFile, ret, fatal.
      cbn [writable files stdin stdout].
      destruct (writable w1 "token.json"); [|discriminate].
      intros E. injection E as <-.
      unfold tokenFromFile. cbn [files].
      rewrite String.eqb_refl, Hrt. reflexivity. }
    unfold getClient. rewrite Hs. reflexivity. }
  revert H. unfold getClient at 1.
  destruct (tokenFromFile Decode "token.json" w) as [|err|tok] eqn:Et;
    [exact Hweb|exact Hweb|].
  intros E. injection E as <- <-.
  unfold getClient. rewrite Et. reflexivity.
Qed.

(** X18.  When [getClient] ends the process, no file has changed: a failed
    authorization never overwrites the token file. *)
Theorem getClient_fatal_keeps_files config w msg w' :
  getClient AuthCodeURL Exchange NewClient Encode Decode config w = Fatal msg w' ->
  files w' = files w.
Proof.
  unfold getClient.
  destruct (tokenFromFile Decode "token.json" w) as [|err|tok]; [| |discriminate].
  all: unfold bind at 1;
    pose proof (getTokenFromWeb_world config w) as (Hf & _);
    destruct (getTokenFromWeb AuthCodeURL Exchange config w) as [tok w1|msg1 w1];
    cbn [world_of] in Hf;
    [|intros E; injection E as <- <-; exact Hf].
  all: unfold saveToken, bind, print, writeFile, ret, fatal;
    cbn [writable files stdin stdout];
    destruct (writable w1 "token.json"); [discriminate|];
    intros E; injection E as <- <-; exact Hf.
Qed.

(** X19.  However [getClient] ends, every file other than [token.json] is
    as it was, at most one word has been taken from standard input, and
    what had been printed is still there. *)
Theorem getClient_touches_only_token_file config w :
  let w' := world_of (getClient AuthCodeURL Exchange NewClient Encode Decode config w) in
  (forall p, p <> "token.json"%string -> files w' p = files w p) /\
  (stdin w' = stdin w \/ stdin w' = tl (stdin w)) /\
  exists lines, stdout w' = stdout w ++ lines.
Proof.
  assert (Hweb : let w' :=
                   world_of ((tok <- getTokenFromWeb AuthCodeURL Exchange config ;;
                              saveToken Encode "token.json" tok ;;;
                              ret (NewClient config tok)) w) in
                 (forall p, p <> "token.json"%string ->
                            files w' p = files w p) /\
                 (stdin w' = stdin w \/ stdin w' = tl (stdin w)) /\
                 exists lines, stdout w' = stdout w ++ lines).
  { unfold bind at 1.
    pose proof (getTokenFromWeb_world config w) as (Hf & _ & Hi & l1 & Ho).
    destruct (getTokenFromWeb AuthCodeURL Exchange config w) as [tok w1|msg1 w1];
      cbn [world_of] in Hf, Hi, Ho |- *.
    - unfold bind.
      pose proof (saveToken_world "token.json" tok w1) as (Hf2 & _ & Hi2 & l2 & Ho2).
      destruct (saveToken Encode "token.json" tok w1)
        as [[] w2|msg2 w2]; cbn [world_of ret] in Hf2, Hi2, Ho2 |- *.
      all: split; [|split];
        [intros p Hp; rewrite (Hf2 p Hp), Hf; reflexivity
        |rewrite Hi2; exact Hi
        |exists ([l1] ++ [l2]); rewrite Ho2, Ho, <- app_assoc; reflexivity].
    - split; [|split]; [intros p _; rewrite Hf; reflexivity|exact Hi|eauto]. }
  unfold getClient.
  destruct (tokenFromFile Decode "token.json" w) as [|err|tok];
    [exact Hweb|exact Hweb|].
  cbn [world_of]. split; [|split]; [reflexivity|now left|].
  exists []. rewrite app_nil_r. reflexivity.
Qed.

(** X20.  [getClient] leaves the world untouched exactly when [token.json]
    holds a token that decodes; in every other case the first thing it
    adds to the output is the prompt with the link of [AuthCodeURL]. *)
Theorem getClient_prompts_iff_no_stored_token config w :
  (world_of (getClient AuthCodeURL Exchange NewClient Encode Decode config w)
   = w
   <-> exists tok, tokenFromFile Decode "token.json" w = Stored tok)
  /\ ((forall tok, tokenFromFile Decode "token.json" w <> Stored tok) ->
      exists more,
        stdout
          (world_of
             (getClient AuthCodeURL Exchange NewClient Encode Decode config w))
        = stdout w ++ prompt AuthCodeURL config :: more).
Proof.
  assert (Hweb : exists more,
            stdout (world_of ((tok <- getTokenFromWeb AuthCodeURL Exchange config ;;
                               saveToken Encode "token.json" tok ;;;
                               ret (NewClient config tok)) w))
            = stdout w ++ prompt AuthCodeURL config :: more).
  { unfold getTokenFromWeb, saveToken, bind, print, Scan, writeFile, fatal, ret.
    cbn [stdin files writable stdout].
    destruct (stdin w) as [|word rest]; cbn [world_of stdout].
    - exists []. reflexivity.
    - destruct (Exchange config word) as [tok|err]; cbn [world_of stdout].
      + cbn [writable files stdin stdout].
        destruct (writable w "token.json"); cbn [world_of stdout];
          rewrite <- app_assoc; eexists; reflexivity.
      + exists []. reflexivity. }
  assert (Hne : world_of ((tok <- getTokenFromWeb AuthCodeURL Exchange config ;;
                           saveToken Encode "token.json" tok ;;;
                           ret (NewClient config tok)) w) <> w).
  { destruct Hweb as [more Ho]. intros E. rewrite E in Ho.
    apply (f_equal (@List.length string)) in Ho.
    rewrite length_app in Ho. cbn in Ho. lia. }
  unfold getClient.
  destruct (tokenFromFile Decode "token.json" w) as [|err|tok].
  - split; [|intros _; exact Hweb].
    split; [intros E; contradiction|intros [tok E]; discriminate].
  - split; [|intros _; exact Hweb].
    split; [intros E; contradiction|intros [tok E]; discriminate].
  - cbn [world_of]. split; [split; eauto|].
    intros H. exfalso. apply (H tok). reflexivity.
Qed.

End CredentialsProofs.

Lemma saved_token_is_read_back_witness :
  Credentials.writable Example3.firstRun "token.json"%string = true /\
  Example3.Decode (Example3.Encode "ya29.4/ok"%string) = Ok "ya29.4/ok"%string /\
  exists w',
    Credentials.saveToken Example3.Encode "token.json"%string "ya29.4/ok"%string
      Example3.firstRun = Credentials.Returns tt w' /\
    Credentials.tokenFromFile Example3.Decode "token.json"%string w' =
    Credentials.Stored "ya29.4/ok"%string.
Proof.
  split; [reflexivity|]. split; [reflexivity|].
  apply (saved_token_is_read_back string Example3.Encode Example3.Decode
           "token.json"%string "ya29.4/ok"%string Example3.firstRun).
  - reflexivity.
  - reflexivity.
Defined.

Lemma getClient_second_call_is_silent_witness :
  exists w',
    Example3.getClient Example3.firstRun =
    Credentials.Returns "ya29.4/ok"%string w' /\
    Example3.getClient w' = Credentials.Returns "ya29.4/ok"%string w'.
Proof.
  eexists. split; [vm_compute; reflexivity|].
  apply (getClient_second_call_is_silent string unit string
           Example3.AuthCodeURL Example3.Exchange Example3.NewClient
           Example3.Encode Example3.Decode tt Example3.firstRun).
  - intros tok. reflexivity.
  - vm_compute. reflexivity.
Defined.

Lemma getClient_fatal_keeps_files_witness :
  exists msg w',
    Example3.getClient Example3.rejected = Credentials.Fatal msg w' /\
    Credentials.files w' = Credentials.files Example3.rejected.
Proof.
  eexists. eexists. split; [vm_compute; reflexivity|].
  eapply (getClient_fatal_keeps_files string unit string
            Example3.AuthCodeURL Example3.Exchange Example3.NewClient
            Example3.Encode Example3.Decode tt Example3.rejected).
  vm_compute. reflexivity.
Defined.

Lemma getClient_prompts_iff_no_stored_token_witness :
  Credentials.stdout (Credentials.world_of (Example3.getClient Example3.firstRun))
  = [Credentials.prompt Example3.AuthCodeURL tt;
     ("資格情報ファイルを次の場所に保存しています: token.json"
      ++ Sequential.newline)%string].
Proof.
  destruct (proj2 (getClient_prompts_iff_no_stored_token string unit string
                     Example3.AuthCodeURL Example3.Exchange Example3.NewClient
                     Example3.Encode Example3.Decode tt Example3.firstRun))
    as [more H].
  - intros tok. vm_compute. discriminate.
  - vm_compute. reflexivity.
Defined.
